(** * procgenac: the training loop of [procgenac/modelling/training.py]

    A shallow embedding of [train_model] and [evaluate_model] and of the
    trajectory store they drive, with the properties the design document
    states about them, and of [training_pipeline], which builds the
    collaborators and the file paths around these two.

    Numbers.  Python integers (step counters, sizes) are [Z], with [//] and
    [%] as [Z.div] and [Z.modulo] on a non-zero divisor and
    [ZeroDivisionError] on a zero one.  Tensor entries are exact rationals
    [Qc]: rounding of the floating-point backend is not modelled.

    Effects.  The loop threads one [World] (environments, model, optimizer,
    store, random generator, call trace) through every collaborator call. *)

From Stdlib Require Import ZArith QArith Qcanon Reals Lia Lra Permutation.
From stdpp Require Import base list strings.

Local Open Scope Z_scope.

(** ** Outcomes of a Python call *)

Inductive exn : Type :=
| ZeroDivisionError     (* [//] or [%] with a zero right operand *)
| StackEmpty            (* [torch.stack] of an empty list *)
| CapacityViolation.    (* a write past the capacity of the store *)

Inductive outcome (A : Type) : Type :=
| Ok (a : A)
| Raise (e : exn)
| OutOfFuel.

Arguments Ok {A} a.
Arguments Raise {A} e.
Arguments OutOfFuel {A}.

#[export] Instance outcome_ret : MRet outcome := fun A a => Ok a.

#[export] Instance outcome_bind : MBind outcome := fun A B k m =>
  match m with
  | Ok a => k a
  | Raise e => Raise e
  | OutOfFuel => OutOfFuel
  end.

(** A one-dimensional tensor with one entry per environment instance. *)
Abbreviation tensor := (list Qc).

(** [1 - done] as a factor. *)
Definition keep (d : bool) : Qc := if d then 0%Qc else 1%Qc.

(** ** The trajectory store *)

Module Storage.
Section Store.

Context {Obs Action Info : Type} `{!Inhabited Obs, !Inhabited Action}.

(** The random source of the numeric backend: [draw g n] is a number drawn
    for the bound [n] and the generator state after the draw. *)
Context {Rng : Type} (draw : Rng -> nat -> nat * Rng).

(** Modelled from the spec: the class [Storage] of [procgenac.utils] is not
    part of the sources at hand; only its calls in [train_model] are.  The
    record follows the design document's data model: one rollout window of
    [num_steps] rows with [num_envs] cells each, one extra row of
    observations and values for the bootstrap pair, the derived tables, and
    the write position. *)
Record t : Type := mk {
  num_steps : nat;
  num_envs : nat;
  gamma : Qc;
  lam : Qc;
  obs : list (list Obs);          (* num_steps + 1 rows *)
  action : list (list Action);
  reward : list tensor;
  done : list (list bool);
  info : list Info;
  log_prob : list tensor;
  value : list tensor;            (* num_steps + 1 rows *)
  returns : list tensor;
  delta : list tensor;
  advantage : list tensor;
  cursor : nat                    (* write position *)
}.

Definition zeros (n : nat) : tensor := replicate n 0%Qc.

(** Modelled from the spec: the constructor [Storage(...)] called at
    training.py:113; a buffer of fixed capacity, allocated once. *)
Definition init (T E : nat) (g l : Qc) : t :=
  {| num_steps := T; num_envs := E; gamma := g; lam := l;
     obs := replicate (S T) (replicate E inhabitant);
     action := replicate T (replicate E inhabitant);
     reward := replicate T (zeros E);
     done := replicate T (replicate E false);
     info := [];
     log_prob := replicate T (zeros E);
     value := replicate (S T) (zeros E);
     returns := replicate T (zeros E);
     delta := replicate T (zeros E);
     advantage := replicate T (zeros E);
     cursor := 0%nat |}.

(** Modelled from the spec: the reset that the design document's contract
    of [store] refers to ("without an intervening reset"); the window is
    rewritten from its first row. *)
Definition reset (st : t) : t :=
  {| num_steps := num_steps st; num_envs := num_envs st;
     gamma := gamma st; lam := lam st;
     obs := obs st; action := action st; reward := reward st;
     done := done st; info := []; log_prob := log_prob st;
     value := value st; returns := returns st; delta := delta st;
     advantage := advantage st; cursor := 0%nat |}.

(** Modelled from the spec: [store] "appends one time-step of transitions
    (across all environment instances) at the current write position;
    advances position; fails if called more times than [num_steps] per
    rollout without an intervening reset". *)
Definition store (st : t) (o : list Obs) (a : list Action) (r : tensor)
    (d : list bool) (i : Info) (lp v : tensor) : outcome t :=
  if decide (cursor st < num_steps st)%nat then
    Ok {| num_steps := num_steps st; num_envs := num_envs st;
          gamma := gamma st; lam := lam st;
          obs := <[cursor st := o]> (obs st);
          action := <[cursor st := a]> (action st);
          reward := <[cursor st := r]> (reward st);
          done := <[cursor st := d]> (done st);
          info := info st ++ [i];
          log_prob := <[cursor st := lp]> (log_prob st);
          value := <[cursor st := v]> (value st);
          returns := returns st; delta := delta st;
          advantage := advantage st;
          cursor := S (cursor st) |}
  else Raise CapacityViolation.

(** Modelled from the spec: [store_last] "records the bootstrap
    observation/value pair used solely for advantage computation at the
    rollout's final step". *)
Definition store_last (st : t) (o : list Obs) (v : tensor) : t :=
  {| num_steps := num_steps st; num_envs := num_envs st;
     gamma := gamma st; lam := lam st;
     obs := <[num_steps st := o]> (obs st);
     action := action st; reward := reward st; done := done st;
     info := info st; log_prob := log_prob st;
     value := <[num_steps st := v]> (value st);
     returns := returns st; delta := delta st;
     advantage := advantage st; cursor := cursor st |}.

(** Cell [(i, e)] of a table; cells outside the table read as [d]. *)
Definition cell {A : Type} (d : A) (tbl : list (list A)) (i e : nat) : A :=
  nth e (nth i tbl []) d.

(** Modelled from the spec: "residual
    [delta_t = reward_t + gamma * value_{t+1} * (1 - done_t) - value_t]",
    for the row of time step [i]. *)
Definition delta_row (st : t) (i : nat) : tensor :=
  map (fun e =>
         cell 0 (reward st) i e
         + gamma st * cell 0 (value st) (S i) e * keep (cell false (done st) i e)
         - cell 0 (value st) i e)%Qc
      (seq 0 (num_envs st)).

(** Modelled from the spec: "advantage
    [A_t = delta_t + gamma * lam * (1 - done_t) * A_{t+1}]", for the row of
    time step [i], from the residual row [dl] and the advantage row [nxt] of
    step [i + 1]. *)
Definition advantage_row (st : t) (i : nat) (dl nxt : tensor) : tensor :=
  map (fun e =>
         nth e dl 0 + gamma st * lam st * keep (cell false (done st) i e) * nth e nxt 0)%Qc
      (seq 0 (num_envs st)).

(** Modelled from the spec: "return [R_t = A_t + value_t]". *)
Definition returns_row (st : t) (i : nat) (adv : tensor) : tensor :=
  map (fun e => nth e adv 0 + cell 0 (value st) i e)%Qc (seq 0 (num_envs st)).

Definition set_derived (st : t) (rs ds advs : list tensor) : t :=
  {| num_steps := num_steps st; num_envs := num_envs st;
     gamma := gamma st; lam := lam st;
     obs := obs st; action := action st; reward := reward st;
     done := done st; info := info st; log_prob := log_prob st;
     value := value st; returns := rs; delta := ds; advantage := advs;
     cursor := cursor st |}.

(** Modelled from the spec: one step of the "backward recursion from the
    last step to the first" of [compute_return_advantage].  The running
    advantage row [adv] is the row of step [i + 1]; the rows of step [i] are
    written in place. *)
Definition gae_step (acc : tensor * t) (i : nat) : tensor * t :=
  let '(adv, st) := acc in
  let dl := delta_row st i in
  let adv' := advantage_row st i dl adv in
  (adv', set_derived st (<[i := returns_row st i adv']> (returns st))
                        (<[i := dl]> (delta st))
                        (<[i := adv']> (advantage st))).

(** Modelled from the spec: [compute_return_advantage] "computes, for every
    (time, env-instance) cell, a discounted return and a generalized
    advantage estimate using backward recursion from the last step to the
    first".  The value row after the last step is the bootstrap value
    written by [store_last]; the running advantage starts from zero, so the
    last advantage is the last residual, which the bootstrap value seeds. *)
Definition compute_return_advantage (st : t) : t :=
  snd (foldl gae_step (zeros (num_envs st), st) (rev (seq 0 (num_steps st)))).

(** The tables have the sizes the constructor gave them. *)
Definition wf (st : t) : bool :=
  bool_decide (length (obs st) = S (num_steps st)
    /\ length (action st) = num_steps st
    /\ length (reward st) = num_steps st
    /\ length (done st) = num_steps st
    /\ length (log_prob st) = num_steps st
    /\ length (value st) = S (num_steps st)
    /\ length (returns st) = num_steps st
    /\ length (delta st) = num_steps st
    /\ length (advantage st) = num_steps st).

(** One time step of transitions, as [store] receives it. *)
Record transition : Type := mkTransition {
  tr_obs : list Obs;
  tr_action : list Action;
  tr_reward : tensor;
  tr_done : list bool;
  tr_info : Info;
  tr_log_prob : tensor;
  tr_value : tensor
}.

Definition store_tr (st : t) (x : transition) : outcome t :=
  store st (tr_obs x) (tr_action x) (tr_reward x) (tr_done x) (tr_info x)
        (tr_log_prob x) (tr_value x).

(** [store] called once per element of [xs], in order. *)
Fixpoint store_all (st : t) (xs : list transition) : outcome t :=
  match xs with
  | [] => Ok st
  | x :: xs' => st' ← store_tr st x; store_all st' xs'
  end.

(** A rollout window: the stores of [xs], then [store_last]. *)
Definition rollout (st : t) (xs : list transition) (o : list Obs) (v : tensor)
    : outcome t :=
  st' ← store_all st xs; Ok (store_last st' o v).

(** Modelled from the spec: [get_reward] "returns the mean
    per-environment-instance-summed reward over the current window". *)
Definition get_reward (st : t) : Qc :=
  (foldr Qcplus 0 (concat (reward st)) / Q2Qc (inject_Z (Z.of_nat (num_envs st))))%Qc.

(** *** Minibatches *)

(** Modelled from the spec: a Minibatch, "a randomly sampled, fixed-size
    subset of flattened (time x env-instance) indices" that "exposes
    observation, action, old log-prob, old value, return, residual (delta),
    and advantage for each sampled index". *)
Record minibatch : Type := mkBatch {
  b_indices : list nat;
  b_obs : list Obs;
  b_action : list Action;
  b_log_pi : tensor;
  b_value : tensor;
  b_returns : tensor;
  b_delta : tensor;
  b_advantage : tensor
}.

(** The flattened index [k] is the cell [(k / num_envs, k mod num_envs)]. *)
Definition gather {A : Type} (d : A) (st : t) (tbl : list (list A)) (ks : list nat)
    : list A :=
  map (fun k => cell d tbl (k / num_envs st)%nat (k mod num_envs st)%nat) ks.

Definition make_batch (st : t) (ks : list nat) : minibatch :=
  {| b_indices := ks;
     b_obs := gather inhabitant st (obs st) ks;
     b_action := gather inhabitant st (action st) ks;
     b_log_pi := gather 0%Qc st (log_prob st) ks;
     b_value := gather 0%Qc st (value st) ks;
     b_returns := gather 0%Qc st (returns st) ks;
     b_delta := gather 0%Qc st (delta st) ks;
     b_advantage := gather 0%Qc st (advantage st) ks |}.

Definition insert_at {A : Type} (p : nat) (x : A) (l : list A) : list A :=
  take p l ++ x :: drop p l.

(** Modelled from the spec: the "full random permutation" of
    [get_generator], as a shuffle over the random source.  One step: index
    [i] goes to a drawn position of the indices placed so far. *)
Definition shuffle_step (acc : list nat * Rng) (i : nat) : list nat * Rng :=
  let '(l, g) := acc in
  let '(p, g') := draw g (S (length l)) in
  (insert_at p i l, g').

(** A random permutation of [0 .. n-1], drawn from [g]. *)
Definition randperm (n : nat) (g : Rng) : list nat * Rng :=
  foldl shuffle_step ([], g) (seq 0 n).

(** Modelled from the spec: "partitioned into batches of [batch_size]
    (final partial batch included)".  [l] is cut into consecutive pieces of
    [b] elements; the last piece holds what remains. *)
Fixpoint chunks (fuel b : nat) (l : list nat) : list (list nat) :=
  match fuel with
  | O => []
  | S f =>
      match l with
      | [] => []
      | _ :: _ => take b l :: chunks f b (drop b l)
      end
  end.

(** Modelled from the spec: [get_generator] "produces a lazy sequence of
    Minibatches covering a full random permutation of all (time x
    env-instance) indices, partitioned into batches of [batch_size] (final
    partial batch included); finite, not restartable (a fresh call produces
    a new independent permutation)".  The sequence is the list of its
    elements; the generator state after the draws is returned with it. *)
Definition get_generator (st : t) (batch_size : nat) (g : Rng)
    : list minibatch * Rng :=
  let n := (num_steps st * num_envs st)%nat in
  let '(perm, g') := randperm n g in
  (map (make_batch st) (chunks n batch_size perm), g').

(** What [compute_return_advantage] reads and leaves as it is. *)
Definition same_inputs (st st' : t) : Prop :=
  num_steps st' = num_steps st
  /\ num_envs st' = num_envs st
  /\ gamma st' = gamma st
  /\ lam st' = lam st
  /\ obs st' = obs st
  /\ action st' = action st
  /\ reward st' = reward st
  /\ done st' = done st
  /\ info st' = info st
  /\ log_prob st' = log_prob st
  /\ value st' = value st
  /\ cursor st' = cursor st.

(** The advantage row that step [t] reads as [A_{t+1}] when the recursion
    has covered the steps below [hi]. *)
Definition next_row (st' : t) (hi t : nat) : tensor :=
  if decide (S t < hi)%nat then nth (S t) (advantage st') []
  else zeros (num_envs st').

(** The rows of step [t] obey the three equations. *)
Definition rows_ok (st st' : t) (hi t : nat) : Prop :=
  nth t (delta st') [] = delta_row st t
  /\ nth t (advantage st') []
     = advantage_row st t (delta_row st t) (next_row st' hi t)
  /\ nth t (returns st') []
     = returns_row st t (nth t (advantage st') []).

(** The backward recursion over the steps [k + n - 1] down to [k]. *)
Definition gae_from (st : t) (k n : nat) : tensor * t :=
  foldr (fun i acc => gae_step acc i)
        (zeros (num_envs st), st) (seq k n).

End Store.

Arguments t : clear implicits.
Arguments transition : clear implicits.
Arguments minibatch : clear implicits.

End Storage.

(** ** Python arithmetic and list helpers *)

(** [a // b] on integers. *)
Definition py_floordiv (a b : Z) : outcome Z :=
  if decide (b = 0) then Raise ZeroDivisionError else Ok (a / b).

(** [a % b] on integers. *)
Definition py_mod (a b : Z) : outcome Z :=
  if decide (b = 0) then Raise ZeroDivisionError else Ok (a mod b).

(** [torch.stack]: the list of tensors as the rows of one tensor; an empty
    list is refused. *)
Definition stack {A : Type} (l : list A) : outcome (list A) :=
  match l with
  | [] => Raise StackEmpty
  | _ :: _ => Ok l
  end.

(** [.sum(0)] of stacked rows: the sum down the first axis, one entry per
    column of the first row. *)
Definition sum0 (rows : list tensor) : tensor :=
  map (fun e => foldr Qcplus 0%Qc (map (fun r => nth e r 0%Qc) rows))
      (seq 0 (length (hd [] rows))).

(** ** The collaborators of the loop

    The environment, the policy model, the optimizer, the store and the
    numeric backend are outside [training.py].  The loop is embedded over
    their operations; a call that returns is a function on the state of its
    object, and a collaborator that raises ends the run before the loop
    decides anything more. *)

Inductive which_env : Type := TrainEnv | EvalEnv.

Record Collab : Type := {
  Obs : Type; Action : Type; LogProb : Type; Value : Type;
  Done : Type; Info : Type; Frame : Type; Shape : Type; Device : Type;
  Batch : Type; BatchObs : Type; Policy : Type; BatchValue : Type;
  Loss : Type;
  Env : Type; Params : Type; Grads : Type; OptState : Type;
  Sto : Type; Rng : Type;

  (* the vectorised environment *)
  num_envs : Z;                                   (* env.num_envs *)
  observation_shape : Env -> Shape;               (* env.observation_space.shape *)
  env_reset : Env -> Env * Obs;
  env_step : Env -> Action -> Env * (Obs * tensor * Done * Info);
  env_render : Env -> Env * Frame;

  (* the policy model; [model_act] is inference: it reads the weights and
     the mode flag and draws from the random generator *)
  model_to : Params -> Device -> Params;
  model_act : Params -> bool -> Obs -> Rng -> (Action * LogProb * Value) * Rng;
  model_forward : Params -> bool -> BatchObs -> Policy * BatchValue;
  model_criterion : Params -> Batch -> Policy -> BatchValue -> Loss;
  model_grad_eps : Params -> R;
  batch_obs : Batch -> BatchObs;

  (* automatic differentiation and the optimizer *)
  backward : Loss -> Grads -> Grads;
  grad_norm : Grads -> R;
  clip_grad_norm_ : Grads -> R -> Grads;
  adam : Params -> Qc -> Qc -> OptState;
  optimizer_step : OptState -> Params -> Grads -> OptState * Params;
  zero_grad : Grads -> Grads;

  (* the trajectory store *)
  storage_new : Shape -> Z -> Z -> Device -> Sto;
  sto_store : Sto -> Obs -> Action -> tensor -> Done -> Info -> LogProb -> Value -> Sto;
  sto_store_last : Sto -> Obs -> Value -> Sto;
  sto_compute_return_advantage : Sto -> Sto;
  sto_get_generator : Sto -> Z -> Rng -> list Batch * Rng;
  sto_get_reward : Sto -> Qc
}.

Module Training.
Section Loop.

Context (C : Collab).

(** The calls made on the collaborators, in the order they are made. *)
Inductive event : Type :=
| EModelTo
| EAdam
| EStorageNew
| EEnvReset (e : which_env)
| EModelEval
| EModelTrain
| EAct (o : Obs C) (a : Action C) (v : Value C)
| EEnvStep (e : which_env) (a : Action C) (next_obs : Obs C) (reward : tensor)
| ERender (e : which_env)
| ESaveVideo (frames : list (Frame C))
| EStore (o : Obs C) (a : Action C) (v : Value C)
| EStoreLast (o : Obs C) (v : Value C)
| EGetReward
| EComputeReturnAdvantage
| EGetGenerator (batch_size : Z) (g : Rng C)
| EForward
| ECriterion
| EBackward
| EClipGradNorm (g : Grads C) (max_norm : R)
| EOptimizerStep (g : Grads C)
| EZeroGrad.

(** Everything the loop reads and writes. *)
Record World : Type := mkWorld {
  env : Env C;
  eval_env : Env C;
  params : Params C;          (* the weights of the policy model *)
  training : bool;            (* the mode flag of the model *)
  grads : Grads C;            (* the gradients held by the weights *)
  opt : OptState C;
  storage : Sto C;
  rng : Rng C;
  trace : list event
}.

Definition emit (e : event) (w : World) : World :=
  mkWorld (env w) (eval_env w) (params w) (training w) (grads w) (opt w)
          (storage w) (rng w) (trace w ++ [e]).

Definition set_env (which : which_env) (s : Env C) (w : World) : World :=
  match which with
  | TrainEnv => mkWorld s (eval_env w) (params w) (training w) (grads w)
                        (opt w) (storage w) (rng w) (trace w)
  | EvalEnv => mkWorld (env w) s (params w) (training w) (grads w)
                       (opt w) (storage w) (rng w) (trace w)
  end.

Definition get_env (which : which_env) (w : World) : Env C :=
  match which with TrainEnv => env w | EvalEnv => eval_env w end.

Definition set_params (p : Params C) (w : World) : World :=
  mkWorld (env w) (eval_env w) p (training w) (grads w) (opt w)
          (storage w) (rng w) (trace w).

Definition set_training (b : bool) (w : World) : World :=
  mkWorld (env w) (eval_env w) (params w) b (grads w) (opt w)
          (storage w) (rng w) (trace w).

Definition set_grads (g : Grads C) (w : World) : World :=
  mkWorld (env w) (eval_env w) (params w) (training w) g (opt w)
          (storage w) (rng w) (trace w).

Definition set_opt (o : OptState C) (w : World) : World :=
  mkWorld (env w) (eval_env w) (params w) (training w) (grads w) o
          (storage w) (rng w) (trace w).

Definition set_storage (s : Sto C) (w : World) : World :=
  mkWorld (env w) (eval_env w) (params w) (training w) (grads w) (opt w)
          s (rng w) (trace w).

Definition set_rng (g : Rng C) (w : World) : World :=
  mkWorld (env w) (eval_env w) (params w) (training w) (grads w) (opt w)
          (storage w) g (trace w).

(** *** Collaborator calls on the world *)

(** [model.eval()] and [model.train()]: the mode flag only. *)
Definition do_model_eval (w : World) : World :=
  emit EModelEval (set_training false w).

Definition do_model_train (w : World) : World :=
  emit EModelTrain (set_training true w).

(** [model.act(obs)] *)
Definition do_act (o : Obs C) (w : World)
    : (Action C * LogProb C * Value C) * World :=
  let '((a, lp, v), g) := model_act C (params w) (training w) o (rng w) in
  ((a, lp, v), emit (EAct o a v) (set_rng g w)).

(** [env.step(action)] on the environment [which]. *)
Definition do_step (which : which_env) (a : Action C) (w : World)
    : (Obs C * tensor * Done C * Info C) * World :=
  let '(s, (o, r, d, i)) := env_step C (get_env which w) a in
  ((o, r, d, i), emit (EEnvStep which a o r) (set_env which s w)).

(** [env.reset()] *)
Definition do_reset (which : which_env) (w : World) : Obs C * World :=
  let '(s, o) := env_reset C (get_env which w) in
  (o, emit (EEnvReset which) (set_env which s w)).

(** [eval_env.render(mode="rgb_array")], scaled to bytes. *)
Definition do_render (which : which_env) (w : World) : Frame C * World :=
  let '(s, f) := env_render C (get_env which w) in
  (f, emit (ERender which) (set_env which s w)).

(** *** [evaluate_model] (training.py:200-225) *)

(** The body of [for _ in range(num_steps)], [n] times.  [o] is the
    variable [obs], which the loop rebinds to the observation returned by
    the step. *)
Fixpoint eval_steps (n : nat) (which : which_env) (video : bool) (o : Obs C)
    (total_reward : list tensor) (frames : list (Frame C)) (w : World)
    : Obs C * list tensor * list (Frame C) * World :=
  match n with
  | O => (o, total_reward, frames, w)
  | S n' =>
      let '((action, _, _), w) := do_act o w in
      let '((o', reward, _, _), w) := do_step which action w in
      let total_reward := total_reward ++ [reward] in
      let '(frames, w) :=
        if video then
          let '(f, w) := do_render which w in (frames ++ [f], w)
        else (frames, w) in
      eval_steps n' which video o' total_reward frames w
  end.

(** [video_filepath] only names the file that [save_video] writes; it is
    left out. *)
Definition evaluate_model (which : which_env) (o : Obs C) (num_steps : Z)
    (video : bool) (w : World) : outcome ((tensor * Obs C) * World) :=
  let frames := [] in
  let total_reward := [] in
  let w := do_model_eval w in
  let '(o, total_reward, frames, w) :=
    eval_steps (Z.to_nat num_steps) which video o total_reward frames w in
  let w := if video then emit (ESaveVideo frames) w else w in
  rows ← stack total_reward;
  Ok ((sum0 rows, o), w).

(** *** [train_model] (training.py:91-197)

    The run followed is the one with [verbose=False] and an [eval_env]
    given: the [print] calls are not modelled. *)

(** The local variables of [train_model] that the loop updates. *)
Record Vars : Type := mkVars {
  steps : list Z;
  train_rewards : list Qc;
  test_rewards : list tensor;
  obs : Obs C;
  eval_obs : Obs C;
  step : Z;
  n_updates : Z
}.

(** Lines 128-139: the body of [for _ in range(num_steps)], [n] times. *)
Fixpoint collect (n : nat) (o : Obs C) (w : World) : Obs C * World :=
  match n with
  | O => (o, w)
  | S n' =>
      let '((action, log_prob, value), w) := do_act o w in
      let '((next_obs, reward, done, info), w) := do_step TrainEnv action w in
      let w := emit (EStore o action value)
                 (set_storage
                    (sto_store C (storage w) o action reward done info log_prob value)
                    w) in
      collect n' next_obs w
  end.

(** Lines 173-187: the body of [for batch in generator]. *)
Definition minibatch_update (w : World) (batch : Batch C) : World :=
  let b_obs := batch_obs C batch in
  let '(policy, value) := model_forward C (params w) (training w) b_obs in
  let w := emit EForward w in
  let loss := model_criterion C (params w) batch policy value in
  let w := emit ECriterion w in
  let w := emit EBackward (set_grads (backward C loss (grads w)) w) in
  let eps := model_grad_eps C (params w) in
  let w := emit (EClipGradNorm (grads w) eps)
             (set_grads (clip_grad_norm_ C (grads w) eps) w) in
  let '(o, p) := optimizer_step C (opt w) (params w) (grads w) in
  let w := emit (EOptimizerStep (grads w)) (set_params p (set_opt o w)) in
  emit EZeroGrad (set_grads (zero_grad C (grads w)) w).

(** Lines 167-187: the body of [for epoch in range(num_epochs)]. *)
Definition epoch (batch_size : Z) (w : World) : World :=
  let '(generator, g) := sto_get_generator C (storage w) batch_size (rng w) in
  let w := emit (EGetGenerator batch_size (rng w)) (set_rng g w) in
  foldl minibatch_update w generator.

Fixpoint epochs (n : nat) (batch_size : Z) (w : World) : World :=
  match n with
  | O => w
  | S n' => epochs n' batch_size (epoch batch_size w)
  end.

(** Lines 142-154: the statistics of one iteration. *)
Definition update_stats (num_steps update_ite : Z) (get_test_error : bool)
    (v : Vars) (w : World) : outcome (Vars * World) :=
  r ← py_mod (n_updates v) update_ite;
  if decide (r = 0) then
    let steps := steps v ++ [step v] in
    let w := emit EGetReward w in
    let train_rewards := train_rewards v ++ [sto_get_reward C (storage w)] in
    if get_test_error then
      '((test_rew, eval_obs), w) ← evaluate_model EvalEnv (eval_obs v) num_steps false w;
      Ok (mkVars steps train_rewards (test_rewards v ++ [test_rew]) (obs v)
                 eval_obs (step v) (n_updates v), w)
    else
      Ok (mkVars steps train_rewards (test_rewards v) (obs v) (eval_obs v)
                 (step v) (n_updates v), w)
  else Ok (v, w).

(** Lines 126-190: the body of [while step < total_steps]. *)
Definition iteration (num_epochs batch_size num_steps update_ite : Z)
    (get_test_error : bool) (v : Vars) (w : World) : outcome (Vars * World) :=
  let w := do_model_eval w in
  let '(o, w) := collect (Z.to_nat num_steps) (obs v) w in
  let v := mkVars (steps v) (train_rewards v) (test_rewards v) o (eval_obs v)
                  (step v) (n_updates v) in
  '(v, w) ← update_stats num_steps update_ite get_test_error v w;
  let step := step v + num_envs C * num_steps in
  let '((_, _, value), w) := do_act (obs v) w in
  let w := emit (EStoreLast (obs v) value)
             (set_storage (sto_store_last C (storage w) (obs v) value) w) in
  let w := emit EComputeReturnAdvantage
             (set_storage (sto_compute_return_advantage C (storage w)) w) in
  let w := do_model_train w in
  let w := epochs (Z.to_nat num_epochs) batch_size w in
  let n_updates := n_updates v + 1 in
  Ok (mkVars (steps v) (train_rewards v) (test_rewards v) (obs v) (eval_obs v)
             step n_updates, w).

(** Line 124: [while step < total_steps].  [fuel] bounds the number of
    iterations followed; a run that needs more is [OutOfFuel]. *)
Fixpoint train_loop (fuel : nat)
    (num_epochs batch_size num_steps total_steps update_ite : Z)
    (get_test_error : bool) (v : Vars) (w : World) : outcome (Vars * World) :=
  if decide (step v < total_steps) then
    match fuel with
    | O => OutOfFuel
    | S fuel' =>
        '(v, w) ← iteration num_epochs batch_size num_steps update_ite
                            get_test_error v w;
        train_loop fuel' num_epochs batch_size num_steps total_steps update_ite
                   get_test_error v w
    end
  else Ok (v, w).

(** Line 123: [total_steps // (env.num_envs * num_steps * 100) + 1]. *)
Definition update_ite_of (total_steps num_steps : Z) : outcome Z :=
  q ← py_floordiv total_steps (num_envs C * num_steps * 100);
  Ok (q + 1).

(** Lines 105-123: what [train_model] does before the loop. *)
Definition train_setup (device : Device C) (adam_lr adam_eps : Qc)
    (num_steps total_steps : Z) (w : World) : outcome (Z * Vars * World) :=
  let w := emit EModelTo (set_params (model_to C (params w) device) w) in
  let w := emit EAdam (set_opt (adam C (params w) adam_lr adam_eps) w) in
  let w := emit EStorageNew
             (set_storage
                (storage_new C (observation_shape C (env w)) num_steps
                             (num_envs C) device) w) in
  let '(o, w) := do_reset TrainEnv w in
  let '(eval_o, w) := do_reset EvalEnv w in
  update_ite ← update_ite_of total_steps num_steps;
  Ok (update_ite, mkVars [] [] [] o eval_o 0 0, w).

(** The rewards returned: the stacked training rewards, with the stacked
    test rewards when [get_test_error]. *)
Definition rewards_t : Type := list Qc * option (list tensor).

Definition train_model (fuel : nat) (device : Device C)
    (num_epochs batch_size : Z) (adam_lr adam_eps : Qc)
    (num_steps total_steps : Z) (get_test_error : bool) (w : World)
    : outcome ((list Z * rewards_t) * World) :=
  '(update_ite, v, w) ← train_setup device adam_lr adam_eps num_steps total_steps w;
  '(v, w) ← train_loop fuel num_epochs batch_size num_steps total_steps
                       update_ite get_test_error v w;
  rewards ←
    (if get_test_error then
       tr ← stack (train_rewards v);
       te ← stack (test_rewards v);
       Ok (tr, Some te)
     else
       tr ← stack (train_rewards v);
       Ok (tr, None));
  Ok ((steps v, rewards), w).

(** *** Reading the call trace *)

Definition is_store (e : event) : bool :=
  match e with EStore _ _ _ => true | _ => false end.

Definition is_store_last (e : event) : bool :=
  match e with EStoreLast _ _ => true | _ => false end.

Definition is_train_step (e : event) : bool :=
  match e with EEnvStep TrainEnv _ _ _ => true | _ => false end.

Definition is_env_step (e : event) : bool :=
  match e with EEnvStep _ _ _ _ => true | _ => false end.

Definition is_get_generator (e : event) : bool :=
  match e with EGetGenerator _ _ => true | _ => false end.

Definition is_optimizer_step (e : event) : bool :=
  match e with EOptimizerStep _ => true | _ => false end.

(** The events of the update phase (lines 167-187). *)
Definition update_event (e : event) : bool :=
  match e with
  | EGetGenerator _ _ | EForward | ECriterion | EBackward
  | EClipGradNorm _ _ | EOptimizerStep _ | EZeroGrad => true
  | _ => false
  end.

(** The events of the statistics (lines 142-154): the reward of the window
    and an evaluation on the evaluation environment. *)
Definition stats_event (e : event) : bool :=
  match e with
  | EGetReward | EModelEval | EAct _ _ _ | EEnvStep EvalEnv _ _ _
  | ERender EvalEnv | ESaveVideo _ => true
  | _ => false
  end.

Definition count (p : event -> bool) (tr : list event) : nat :=
  length (List.filter p tr).

(** The events of [n] passes through the body of the collection loop that
    starts from the observation [o] and ends with the observation [o']:
    each pass asks the policy, steps the training environment with the
    action it got, and stores the transition. *)
Inductive collected : nat -> Obs C -> list event -> Obs C -> Prop :=
| collected_nil (o : Obs C) : collected O o [] o
| collected_cons (n : nat) (o o1 o' : Obs C) (a : Action C) (v : Value C)
    (r : tensor) (tr : list event) :
    collected n o1 tr o' ->
    collected (S n) o
      (EAct o a v :: EEnvStep TrainEnv a o1 r :: EStore o a v :: tr) o'.

(** The events of [n] passes through the body of the evaluation loop on the
    environment [which], from the observation [o] to the observation [o'],
    with the rewards [rows] that the steps returned, in order. *)
Inductive evaluated (which : which_env) (video : bool)
    : nat -> Obs C -> list event -> list tensor -> Obs C -> Prop :=
| evaluated_nil (o : Obs C) : evaluated which video O o [] [] o
| evaluated_cons (n : nat) (o o1 o' : Obs C) (a : Action C) (v : Value C)
    (r : tensor) (tr : list event) (rows : list tensor) :
    evaluated which video n o1 tr rows o' ->
    evaluated which video (S n) o
      (EAct o a v :: EEnvStep which a o1 r
         :: (if video then [ERender which] else []) ++ tr)
      (r :: rows) o'.

(** Two worlds that differ in the call trace at most. *)
Definition same_state (w1 w2 : World) : Prop :=
  env w1 = env w2 /\ eval_env w1 = eval_env w2 /\ params w1 = params w2
  /\ training w1 = training w2 /\ grads w1 = grads w2 /\ opt w1 = opt w2
  /\ storage w1 = storage w2 /\ rng w1 = rng w2.

(** The sum of the entries [e] of the rows. *)
Definition col_sum (rows : list tensor) (e : nat) : Qc :=
  foldr Qcplus 0%Qc (map (fun r => nth e r 0%Qc) rows).

(** The generator states that [n] epochs hand to [get_generator], from the
    state [g]: each epoch draws from the state the previous one left. *)
Fixpoint generator_states (n : nat) (batch_size : Z) (st : Sto C) (g : Rng C)
    : list (Rng C) :=
  match n with
  | O => []
  | S n' =>
      g :: generator_states n' batch_size st
             (snd (sto_get_generator C st batch_size g))
  end.

End Loop.

Arguments mkWorld {C}.
Arguments mkVars {C}.
Arguments EModelTo {C}.
Arguments EAdam {C}.
Arguments EStorageNew {C}.
Arguments EEnvReset {C}.
Arguments EModelEval {C}.
Arguments EModelTrain {C}.
Arguments EAct {C}.
Arguments EEnvStep {C}.
Arguments ERender {C}.
Arguments ESaveVideo {C}.
Arguments EStore {C}.
Arguments EStoreLast {C}.
Arguments EGetReward {C}.
Arguments EComputeReturnAdvantage {C}.
Arguments EGetGenerator {C}.
Arguments EForward {C}.
Arguments ECriterion {C}.
Arguments EBackward {C}.
Arguments EClipGradNorm {C}.
Arguments EOptimizerStep {C}.
Arguments EZeroGrad {C}.
Arguments env {C}.
Arguments eval_env {C}.
Arguments params {C}.
Arguments training {C}.
Arguments grads {C}.
Arguments opt {C}.
Arguments storage {C}.
Arguments rng {C}.
Arguments trace {C}.
Arguments steps {C}.
Arguments train_rewards {C}.
Arguments test_rewards {C}.
Arguments obs {C}.
Arguments eval_obs {C}.
Arguments step {C}.
Arguments n_updates {C}.
Arguments count {C}.
Arguments is_store {C}.
Arguments is_store_last {C}.
Arguments is_train_step {C}.
Arguments is_get_generator {C}.
Arguments is_optimizer_step {C}.
Arguments update_event {C}.
Arguments stats_event {C}.
Arguments collected {C}.
Arguments col_sum : clear implicits.
Arguments same_state {C}.
Arguments evaluated {C}.
Arguments is_env_step {C}.
Arguments emit {C}.

End Training.

(** ** A small window

    The instance of the design document: three steps, one environment
    instance, rewards 1, values 0, the second step ends an episode, the
    bootstrap value is 0, gamma = 0.99 and lam = 0.95. *)

Module Example.

Definition gamma : Qc := Q2Qc (99 # 100).
Definition lam : Qc := Q2Qc (95 # 100).

Definition step_with (d : bool) : Storage.transition unit unit unit :=
  Storage.mkTransition [tt] [tt] [1%Qc] [d] tt [0%Qc] [0%Qc].

Definition window : list (Storage.transition unit unit unit) :=
  [step_with false; step_with true; step_with false].

Definition store0 : Storage.t unit unit unit := Storage.init 3 1 gamma lam.

Definition bootstrap_obs : list unit := [tt].
Definition bootstrap_value : tensor := [0%Qc].

End Example.

(** ** A deterministic dummy collaborator set

    Two environment instances, reward 1 at every step, observations that
    count the steps taken; a policy with two real weights; gradients
    clipped by the formula of [torch.nn.utils.clip_grad_norm_]; a store
    that keeps the reward rows and draws its batches with the generator of
    [Storage]. *)

Module Demo.

(** A linear congruential generator as the random source. *)
Definition draw (g : Z) (n : nat) : nat * Z :=
  let g' := (6364136223846793005 * g + 1442695040888963407) mod 2 ^ 64 in
  (Z.to_nat ((g' / 2 ^ 32) mod Z.of_nat n), g').

(** The Euclidean norm of all gradients taken as one vector. *)
Definition norm2 (g : list R) : R :=
  sqrt (foldr Rplus 0%R (map (fun x => (x * x)%R) g)).

(** [clip_grad_norm_(parameters, max_norm)]: the gradients are scaled by
    [max_norm / (total_norm + 1e-6)], clamped to at most 1. *)
Definition clip (g : list R) (max_norm : R) : list R :=
  let total_norm := norm2 g in
  let clip_coef := (max_norm / (total_norm + / 1000000))%R in
  let clip_coef_clamped := Rmin clip_coef 1%R in
  map (fun x => (x * clip_coef_clamped)%R) g.

Definition sgd (lr : R) (p g : list R) : list R :=
  zip_with (fun x d => (x - lr * d)%R) p g.

Definition collab : Collab :=
  {| Obs := Z; Action := Z; LogProb := Qc; Value := Qc;
     Done := list bool; Info := unit; Frame := Z; Shape := unit;
     Device := unit;
     Batch := list nat; BatchObs := list nat; Policy := unit;
     BatchValue := unit; Loss := list R;
     Env := Z; Params := list R; Grads := list R; OptState := nat;
     Sto := list tensor; Rng := Z;
     num_envs := 2;
     observation_shape := fun _ => tt;
     env_reset := fun _ => (0, 0);
     env_step := fun s a => (s + 1, (s + 1, [1%Qc; 1%Qc], [false; false], tt));
     env_render := fun s => (s, s);
     model_to := fun p _ => p;
     model_act := fun _ _ o g => ((o mod 3, 0%Qc, Q2Qc (1 # 2)), snd (draw g 3));
     model_forward := fun _ _ _ => (tt, tt);
     model_criterion := fun p _ _ _ => map (fun x => (2 * x)%R) p;
     model_grad_eps := fun _ => (/ 2)%R;
     batch_obs := fun b => b;
     backward := fun loss g => zip_with Rplus loss g;
     grad_norm := norm2;
     clip_grad_norm_ := clip;
     adam := fun _ _ _ => O;
     optimizer_step := fun o p g => (S o, sgd (/ 10)%R p g);
     zero_grad := fun g => map (fun _ => 0%R) g;
     storage_new := fun _ _ _ _ => [];
     sto_store := fun st _ _ r _ _ _ _ => st ++ [r];
     sto_store_last := fun st _ _ => st;
     sto_compute_return_advantage := fun st => st;
     sto_get_generator := fun st b g =>
       let n := (length st * 2)%nat in
       let '(perm, g') := Storage.randperm draw n g in
       (Storage.chunks n (Z.to_nat b) perm, g');
     sto_get_reward := fun st =>
       (foldr Qcplus 0 (concat st) / Q2Qc (2 # 1))%Qc |}.

(** The world before [train_model] is called. *)
Definition world0 : Training.World collab :=
  Training.mkWorld (7 : Env collab) (9 : Env collab)
    ([1%R; 2%R] : Params collab) true ([0%R; 0%R] : Grads collab)
    (O : OptState collab) ([] : Sto collab) (42 : Rng collab) [].

(** The local variables at the first test of the loop condition. *)
Definition vars0 : Training.Vars collab :=
  Training.mkVars [] [] [] (0 : Obs collab) (0 : Obs collab) 0 0.

End Demo.

(** ** More readings of the call trace *)

Section TraceKinds.

Context {C : Collab}.

Import Training.

Definition is_env_reset (e : event C) : bool :=
  match e with EEnvReset _ => true | _ => false end.

Definition is_render (e : event C) : bool :=
  match e with ERender _ => true | _ => false end.

Definition is_save_video (e : event C) : bool :=
  match e with ESaveVideo _ => true | _ => false end.

Definition is_eval_step (e : event C) : bool :=
  match e with EEnvStep EvalEnv _ _ _ => true | _ => false end.

Definition is_act (e : event C) : bool :=
  match e with EAct _ _ _ => true | _ => false end.

Definition is_compute (e : event C) : bool :=
  match e with EComputeReturnAdvantage => true | _ => false end.

(** The calls that write the store or the weights: the stores, the
    computation of returns, the optimizer. *)
Definition is_training_call (e : event C) : bool :=
  match e with
  | EStore _ _ _ | EStoreLast _ _ | EComputeReturnAdvantage
  | EGetGenerator _ _ | EBackward | EClipGradNorm _ _ | EOptimizerStep _
  | EZeroGrad => true
  | _ => false
  end.

(** A query of the policy that was answered with the weights [p] in the
    mode [mode]; other calls are not constrained. *)
Definition answered_by (p : Params C) (mode : bool) (e : event C) : Prop :=
  match e with
  | EAct o a v => exists g lp, fst (model_act C p mode o g) = (a, lp, v)
  | _ => True
  end.

(** The minibatches that [n] epochs draw from the store [st], from the
    generator state [g]. *)
Fixpoint batches_drawn (n : nat) (batch_size : Z) (st : Sto C) (g : Rng C)
    : nat :=
  match n with
  | O => O
  | S n' =>
      (length (fst (sto_get_generator C st batch_size g))
       + batches_drawn n' batch_size st
           (snd (sto_get_generator C st batch_size g)))%nat
  end.

(** The step counters of the first [m] statistics, one every [update_ite]
    iterations of [d] steps. *)
Definition recorded_steps (m : nat) (update_ite d : Z) : list Z :=
  map (fun i => Z.of_nat i * (update_ite * d)) (seq 0 m).

(** The statistics after [n_updates] iterations of [d] steps: one record
    for every iteration whose number is a multiple of [update_ite], the
    three lists in step, and the last iteration entered below
    [total_steps]. *)
Definition stats_inv (get_test_error : bool) (total_steps update_ite d : Z)
    (v : Vars C) : Prop :=
  0 <= n_updates v
  /\ step v = n_updates v * d
  /\ (n_updates v = 0 \/ (n_updates v - 1) * d < total_steps)
  /\ steps v
     = recorded_steps (Z.to_nat ((n_updates v + update_ite - 1) / update_ite))
                      update_ite d
  /\ length (train_rewards v) = length (steps v)
  /\ length (test_rewards v)
     = (if get_test_error then length (steps v) else 0%nat).

End TraceKinds.

(** ** [training_pipeline] (training.py:8-88)

    The caller of [train_model] and [evaluate_model].  It builds the two
    environments and the model, trains, saves the statistics and the
    weights, and evaluates once more on a third environment with one
    instance, 1024 steps and a video.  [make_env], [init_model],
    [save_rewards] and [save_model] are outside [training.py]; the builders
    are taken as operations and the saves are recorded as the files they
    are asked to write.  The environment that [make_env] builds reports
    [num_envs C] as its [env.num_envs].  The [print] calls and the clock
    are not modelled. *)

Module Pipeline.

(** [os.path.join] on a POSIX system: a component that starts with the
    separator restarts the path; otherwise it is appended, after a separator
    unless the path so far is empty or ends with one. *)
Definition sep : Ascii.ascii := Ascii.ascii_of_nat 47.

Definition starts_with_sep (s : string) : bool :=
  match s with
  | String c _ => Ascii.eqb c sep
  | _ => false
  end.

Fixpoint ends_with_sep (s : string) : bool :=
  match s with
  | EmptyString => false
  | String c EmptyString => Ascii.eqb c sep
  | String _ s' => ends_with_sep s'
  end.

Definition join2 (path b : string) : string :=
  if starts_with_sep b then b
  else if String.eqb path "" || ends_with_sep path then path +:+ b
  else path +:+ "/" +:+ b.

Definition path_join (a : string) (p : list string) : string :=
  foldl join2 a p.

(** The fields of [hyperparams] that the pipeline reads; [hp_num_envs] is
    its [num_envs], and [model_id] is held as the text that the f-string
    prints for it. *)
Record Hyperparams : Type := mkHyperparams {
  env_name : string;
  hp_num_envs : Z;
  num_levels : Z;
  test_run : bool;
  model_id : string;
  num_epochs : Z;
  batch_size : Z;
  adam_lr : Qc;
  adam_eps : Qc;
  num_steps : Z;
  total_steps : Z;
  get_test : bool
}.

Section Run.

Context (C : Collab).

(** What the pipeline builds its objects with. *)
Record Builders : Type := mkBuilders {
  cuda_is_available : bool;                       (* torch.cuda.is_available() *)
  torch_device : string -> Device C;              (* torch.device(...) *)
  (* make_env(n_envs, env_name, start_level, num_levels, normalize_reward) *)
  make_env : Z -> string -> Z -> Z -> bool -> Env C;
  (* init_model(hyperparams, device, env): the weights and [model.name] *)
  init_model : Hyperparams -> Device C -> Env C -> Params C * string
}.

(** A file that the pipeline asks a collaborator to write: by
    [save_rewards], by [save_model], and by [save_video], to which
    [evaluate_model] hands its [video_filepath] (line 222). *)
Inductive artifact : Type :=
| SavedRewards (filepath : string) (steps : list Z) (rewards : Training.rewards_t)
| SavedModel (filepath : string) (name : string) (weights : Params C)
| SavedVideo (filepath : string).

(** Lines 29-32: the name of the model, marked as a test or with its id. *)
Definition model_name (hp : Hyperparams) (name : string) : string :=
  if test_run hp then "test_" +:+ name
  else name +:+ "_id" +:+ model_id hp.

(** The stem [f"{model.name}_{env_name}"] of the three file names. *)
Definition stem (hp : Hyperparams) (name : string) : string :=
  name +:+ "_" +:+ env_name hp.

(** Lines 60, 64 and 76. *)
Definition rewards_filepath (hp : Hyperparams) (path_to_base name : string)
    : string :=
  path_join path_to_base ["results"; "rewards"; stem hp name +:+ ".csv"].

Definition model_filepath (hp : Hyperparams) (path_to_base name : string)
    : string :=
  path_join path_to_base ["models"; stem hp name +:+ ".pt"].

Definition video_filepath (hp : Hyperparams) (path_to_base name : string)
    : string :=
  path_join path_to_base ["results"; "videos"; stem hp name +:+ ".mp4"].

(** Lines 11-41.  The world in which [train_model] is called: the
    environments and the weights are the objects just built; the rest is
    the state of the process as [w] has it. *)
Definition built_world (B : Builders) (hp : Hyperparams) (w : Training.World C)
    : Training.World C * string * Device C :=
  let device := torch_device B (if cuda_is_available B then "cuda" else "cpu") in
  let env := make_env B (hp_num_envs hp) (env_name hp) 0 (num_levels hp) false in
  let '(p, name) := init_model B hp device env in
  let name := model_name hp name in
  let eval_env :=
    make_env B (hp_num_envs hp) (env_name hp) (num_levels hp) 0 false in
  (Training.mkWorld env eval_env p (Training.training w) (Training.grads w)
     (Training.opt w) (Training.storage w) (Training.rng w) (Training.trace w),
   name, device).

(** The files written so far and the outcome.  An exception leaves the
    files written before it.  After [train_model] has returned, [eval_env]
    is not used again: the video environment takes its place in the world
    for the last evaluation.  The pipeline calls [train_model] with
    [verbose=True], whose [print] calls read [storage.get_reward()] a
    second time; these reads are not in the trace. *)
Definition training_pipeline (B : Builders) (fuel : nat) (hp : Hyperparams)
    (path_to_base : string) (w : Training.World C)
    : list artifact * outcome (Training.World C) :=
  let '(w, name, device) := built_world B hp w in
  match Training.train_model C fuel device (num_epochs hp) (batch_size hp)
          (adam_lr hp) (adam_eps hp) (num_steps hp) (total_steps hp)
          (get_test hp) w with
  | Raise e => ([], Raise e)
  | OutOfFuel => ([], OutOfFuel)
  | Ok ((steps, rewards), w) =>
      let filepath := rewards_filepath hp path_to_base name in
      let saved := [SavedRewards filepath steps rewards] in
      let filepath := model_filepath hp path_to_base name in
      let saved := saved ++ [SavedModel filepath name (Training.params w)] in
      let video_env := make_env B 1 (env_name hp) (num_levels hp) 0 false in
      let w := Training.set_env C EvalEnv video_env w in
      let '(obs, w) := Training.do_reset C EvalEnv w in
      let filepath := video_filepath hp path_to_base name in
      match Training.evaluate_model C EvalEnv obs 1024 true w with
      | Ok (_, w) => (saved ++ [SavedVideo filepath], Ok w)
      | Raise e => (saved, Raise e)
      | OutOfFuel => (saved, OutOfFuel)
      end
  end.

End Run.

Arguments SavedRewards {C}.
Arguments SavedModel {C}.
Arguments SavedVideo {C}.

End Pipeline.

(** ** A dummy pipeline

    Builders for the dummy collaborators: an environment state is a
    number, here the start level, and the model has two weights and the
    name [ppo]. *)

Module PipelineDemo.

Definition builders : Pipeline.Builders Demo.collab :=
  {| Pipeline.cuda_is_available := false;
     Pipeline.torch_device := fun _ => (tt : Device Demo.collab);
     Pipeline.make_env := fun _ _ start_level _ _ =>
                            (start_level : Env Demo.collab);
     Pipeline.init_model := fun _ _ _ =>
                              (([1%R; 2%R] : Params Demo.collab), "ppo") |}.

(** A test run on [coinrun]: two environment instances, rollouts of two
    steps, a budget of five steps. *)
Definition hp : Pipeline.Hyperparams :=
  {| Pipeline.env_name := "coinrun"; Pipeline.hp_num_envs := 2;
     Pipeline.num_levels := 50; Pipeline.test_run := true;
     Pipeline.model_id := "7"; Pipeline.num_epochs := 1;
     Pipeline.batch_size := 2; Pipeline.adam_lr := 0%Qc;
     Pipeline.adam_eps := 0%Qc; Pipeline.num_steps := 2;
     Pipeline.total_steps := 5; Pipeline.get_test := true |}.

End PipelineDemo.

(** * Properties *)

(** ** Lists and tables *)

Lemma nth_map_seq {A : Type} (f : nat -> A) (d : A) (n e : nat) :
  (e < n)%nat -> nth e (map f (seq 0 n)) d = f e.
Proof.
  intros He. rewrite nth_lookup, list_lookup_fmap.
  assert (Hs : seq 0 n !! e = Some e) by (apply lookup_seq; lia).
  rewrite Hs. reflexivity.
Qed.

Lemma nth_insert_eq {A : Type} (l : list A) (i : nat) (x d : A) :
  (i < length l)%nat -> nth i (<[i := x]> l) d = x.
Proof.
  intros Hi. rewrite nth_lookup, list_lookup_insert_eq by exact Hi. reflexivity.
Qed.

Lemma nth_insert_ne {A : Type} (l : list A) (i j : nat) (x d : A) :
  i <> j -> nth j (<[i := x]> l) d = nth j l d.
Proof.
  intros Hij. rewrite !nth_lookup, list_lookup_insert_ne by exact Hij. reflexivity.
Qed.

Lemma nth_replicate_same {A : Type} (n e : nat) (d : A) :
  nth e (replicate n d) d = d.
Proof.
  revert e. induction n as [|n IH]; intros [|e]; simpl; auto.
Qed.

Lemma foldl_rev_foldr {A B : Type} (f : A -> B -> A) (a : A) (l : list B) :
  foldl f a (rev l) = foldr (fun x acc => f acc x) a l.
Proof.
  induction l as [|x l IH]; simpl; [reflexivity|].
  rewrite foldl_app. simpl. rewrite IH. reflexivity.
Qed.

(** ** The backward recursion of [compute_return_advantage] *)

Section GAE.

Context {Obs Action Info : Type} `{!Inhabited Obs, !Inhabited Action}.

Abbreviation store_t := (Storage.t Obs Action Info).

Lemma same_inputs_refl (st : store_t) : Storage.same_inputs st st.
Proof. repeat split. Qed.

Lemma delta_row_same (st st' : store_t) (i : nat) :
  Storage.same_inputs st st' -> Storage.delta_row st' i = Storage.delta_row st i.
Proof.
  intros (_ & HE & Hg & _ & _ & _ & Hr & Hd & _ & _ & Hv & _).
  unfold Storage.delta_row. rewrite HE, Hg, Hr, Hd, Hv. reflexivity.
Qed.

Lemma advantage_row_same (st st' : store_t) (i : nat) (dl nxt : tensor) :
  Storage.same_inputs st st' ->
  Storage.advantage_row st' i dl nxt = Storage.advantage_row st i dl nxt.
Proof.
  intros (_ & HE & Hg & Hl & _ & _ & _ & Hd & _).
  unfold Storage.advantage_row. rewrite HE, Hg, Hl, Hd. reflexivity.
Qed.

Lemma returns_row_same (st st' : store_t) (i : nat) (adv : tensor) :
  Storage.same_inputs st st' ->
  Storage.returns_row st' i adv = Storage.returns_row st i adv.
Proof.
  intros (_ & HE & _ & _ & _ & _ & _ & _ & _ & _ & Hv & _).
  unfold Storage.returns_row. rewrite HE, Hv. reflexivity.
Qed.

Lemma gae_from_spec (st : store_t) (T : nat) :
  length (Storage.returns st) = T ->
  length (Storage.delta st) = T ->
  length (Storage.advantage st) = T ->
  forall n k, (k + n = T)%nat ->
    let r := Storage.gae_from st k n in
    Storage.same_inputs st (snd r)
    /\ length (Storage.returns (snd r)) = T
    /\ length (Storage.delta (snd r)) = T
    /\ length (Storage.advantage (snd r)) = T
    /\ fst r = match n with
               | O => Storage.zeros (Storage.num_envs st)
               | S _ => nth k (Storage.advantage (snd r)) []
               end
    /\ (forall t, (k <= t < T)%nat -> Storage.rows_ok st (snd r) T t).
Proof.
  intros Hr Hd Ha. induction n as [|n IH]; intros k Hk; simpl.
  - unfold Storage.gae_from; simpl. split; [apply same_inputs_refl|].
    split; [exact Hr|]. split; [exact Hd|]. split; [exact Ha|].
    split; [reflexivity|]. intros t Ht; lia.
  - unfold Storage.gae_from in *. simpl.
    specialize (IH (S k) ltac:(lia)). simpl in IH.
    destruct (foldr _ _ (seq (S k) n)) as [adv st1] eqn:Hfold. simpl in IH.
    destruct IH as (Hsame & Hr1 & Hd1 & Ha1 & Hadv & Hrows).
    unfold Storage.gae_step. simpl.
    rewrite (delta_row_same st st1), (advantage_row_same st st1),
      (returns_row_same st st1) by exact Hsame.
    set (dl := Storage.delta_row st k).
    set (adv' := Storage.advantage_row st k dl adv).
    assert (HE : Storage.num_envs st1 = Storage.num_envs st) by apply Hsame.
    split.
    { destruct Hsame as (? & ? & ? & ? & ? & ? & ? & ? & ? & ? & ? & ?).
      repeat split; simpl; assumption. }
    rewrite !length_insert.
    split; [exact Hr1|]. split; [exact Hd1|]. split; [exact Ha1|].
    split; [symmetry; apply nth_insert_eq; lia|].
    intros t Ht. unfold Storage.rows_ok, Storage.next_row. simpl.
    destruct (decide (t = k)) as [->|Hne].
    + rewrite !nth_insert_eq by lia.
      rewrite nth_insert_ne by lia.
      split; [reflexivity|]. split; [|reflexivity].
      subst adv'. f_equal.
      destruct (decide (S k < T)%nat) as [Hlt|Hge].
      * destruct n; [lia | exact Hadv].
      * destruct n; [rewrite HE; exact Hadv | lia].
    + rewrite !(nth_insert_ne _ k t) by lia.
      destruct (Hrows t ltac:(lia)) as (H1 & H2 & H3).
      split; [exact H1|]. split; [|exact H3].
      rewrite H2. f_equal. unfold Storage.next_row.
      destruct (decide (S t < T)%nat); [|reflexivity].
      rewrite nth_insert_ne by lia. reflexivity.
Qed.

(** The rows written by [compute_return_advantage] on a store whose tables
    have their sizes. *)
Lemma compute_return_advantage_rows (st : store_t) :
  Storage.wf st = true ->
  let st' := Storage.compute_return_advantage st in
  Storage.same_inputs st st'
  /\ Storage.wf st' = true
  /\ forall t, (t < Storage.num_steps st)%nat ->
       Storage.rows_ok st st' (Storage.num_steps st) t.
Proof.
  intros Hwf. apply bool_decide_eq_true in Hwf.
  destruct Hwf as (Ho & Hac & Hre & Hdo & Hlp & Hv & Hr & Hd & Ha).
  unfold Storage.compute_return_advantage. rewrite foldl_rev_foldr.
  pose proof (gae_from_spec st (Storage.num_steps st) Hr Hd Ha
                (Storage.num_steps st) 0%nat eq_refl) as H.
  unfold Storage.gae_from in H. simpl in H.
  destruct H as (Hsame & Hr1 & Hd1 & Ha1 & _ & Hrows).
  split; [exact Hsame|]. split.
  - apply bool_decide_eq_true.
    destruct Hsame as (HT & _ & _ & _ & Ho' & Hac' & Hre' & Hdo' & _ & Hlp' & Hv' & _).
    rewrite HT, Ho', Hac', Hre', Hdo', Hlp', Hv'. repeat split; assumption.
  - intros t Ht. apply Hrows. lia.
Qed.

End GAE.

(** ** Filling the window: [store] and [store_last] *)

Section Fill.

Context {Obs Action Info : Type} `{!Inhabited Obs, !Inhabited Action}.

Abbreviation store_t := (Storage.t Obs Action Info).
Abbreviation transition_t := (Storage.transition Obs Action Info).

Lemma store_tr_ok (st : store_t) (x : transition_t) :
  (Storage.cursor st < Storage.num_steps st)%nat ->
  exists st1, Storage.store_tr st x = Ok st1.
Proof.
  intros Hc. unfold Storage.store_tr, Storage.store.
  destruct (decide _); [eexists; reflexivity | contradiction].
Qed.

Lemma store_tr_full (st : store_t) (x : transition_t) :
  (Storage.num_steps st <= Storage.cursor st)%nat ->
  Storage.store_tr st x = Raise CapacityViolation.
Proof.
  intros Hc. unfold Storage.store_tr, Storage.store.
  destruct (decide _); [lia | reflexivity].
Qed.

(** What one successful [store] leaves and moves. *)
Lemma store_tr_inv (st st1 : store_t) (x : transition_t) :
  Storage.store_tr st x = Ok st1 ->
  (Storage.cursor st < Storage.num_steps st)%nat
  /\ Storage.cursor st1 = S (Storage.cursor st)
  /\ Storage.num_steps st1 = Storage.num_steps st
  /\ Storage.num_envs st1 = Storage.num_envs st
  /\ Storage.gamma st1 = Storage.gamma st
  /\ Storage.lam st1 = Storage.lam st
  /\ Storage.reward st1 = <[Storage.cursor st := Storage.tr_reward x]> (Storage.reward st)
  /\ Storage.done st1 = <[Storage.cursor st := Storage.tr_done x]> (Storage.done st)
  /\ Storage.value st1 = <[Storage.cursor st := Storage.tr_value x]> (Storage.value st)
  /\ (Storage.wf st = true -> Storage.wf st1 = true).
Proof.
  unfold Storage.store_tr, Storage.store.
  destruct (decide _) as [Hc|Hc]; [|discriminate].
  intros [= <-]. simpl. repeat split; try assumption; try reflexivity.
  intros Hwf. apply bool_decide_eq_true in Hwf. apply bool_decide_eq_true.
  simpl. rewrite !length_insert. exact Hwf.
Qed.

Lemma store_all_inv (xs : list transition_t) :
  forall st st' : store_t,
  Storage.store_all st xs = Ok st' ->
  (Storage.cursor st' = Storage.cursor st + length xs)%nat
  /\ ((Storage.cursor st' <= Storage.num_steps st)%nat \/ xs = [])
  /\ Storage.num_steps st' = Storage.num_steps st
  /\ Storage.num_envs st' = Storage.num_envs st
  /\ Storage.gamma st' = Storage.gamma st
  /\ Storage.lam st' = Storage.lam st
  /\ (Storage.wf st = true -> Storage.wf st' = true).
Proof.
  induction xs as [|x xs IH]; intros st st'; simpl.
  - intros [= <-]. repeat split; try lia. right; reflexivity. tauto.
  - destruct (Storage.store_tr st x) as [st1| |] eqn:H1; simpl; try discriminate.
    intros H2. apply store_tr_inv in H1.
    destruct H1 as (Hc & Hc1 & HT & HE & Hg & Hl & _ & _ & _ & Hwf).
    destruct (IH _ _ H2) as (Hc2 & Hle & HT2 & HE2 & Hg2 & Hl2 & Hwf2).
    repeat split; try congruence; try lia.
    + left. destruct Hle as [Hle| ->]; [lia|]. simpl in Hc2. lia.
    + tauto.
Qed.

(** Within capacity every [store] succeeds. *)
Lemma store_all_ok (xs : list transition_t) :
  forall st : store_t,
  (Storage.cursor st + length xs <= Storage.num_steps st)%nat ->
  exists st', Storage.store_all st xs = Ok st'.
Proof.
  induction xs as [|x xs IH]; intros st Hc; simpl.
  - eexists; reflexivity.
  - simpl in Hc. destruct (store_tr_ok st x ltac:(lia)) as [st1 H1].
    rewrite H1. simpl. apply store_tr_inv in H1.
    destruct H1 as (_ & Hc1 & HT & _). apply IH. rewrite Hc1, HT. lia.
Qed.

(** Past capacity the sequence of stores is cut by the exception. *)
Lemma store_all_overflow (xs : list transition_t) :
  forall st : store_t,
  (Storage.cursor st <= Storage.num_steps st)%nat ->
  (Storage.num_steps st < Storage.cursor st + length xs)%nat ->
  Storage.store_all st xs = Raise CapacityViolation.
Proof.
  induction xs as [|x xs IH]; intros st Hle Hc; simpl in *.
  - lia.
  - destruct (decide (Storage.cursor st < Storage.num_steps st)%nat) as [Hlt|Hge].
    + destruct (store_tr_ok st x Hlt) as [st1 H1]. rewrite H1. simpl.
      apply store_tr_inv in H1. destruct H1 as (_ & Hc1 & HT & _).
      apply IH; rewrite Hc1, HT; lia.
    + rewrite store_tr_full by lia. reflexivity.
Qed.

(** The rows of a table that [store] writes at the write position. *)
Lemma store_all_table {A : Type} (f : store_t -> list A) (h : transition_t -> A) :
  (forall st x st1, Storage.store_tr st x = Ok st1 ->
     f st1 = <[Storage.cursor st := h x]> (f st)) ->
  forall xs st st',
    (Storage.num_steps st <= length (f st))%nat ->
    Storage.store_all st xs = Ok st' ->
    length (f st') = length (f st)
    /\ forall i,
        f st' !! i =
        if decide (Storage.cursor st <= i < Storage.cursor st + length xs)%nat
        then h <$> xs !! (i - Storage.cursor st)%nat
        else f st !! i.
Proof.
  intros Hf. induction xs as [|x xs IH]; intros st st' Hlen; simpl.
  - intros [= <-]. split; [reflexivity|]. intros i.
    destruct (decide _); [lia | reflexivity].
  - destruct (Storage.store_tr st x) as [st1| |] eqn:H1; simpl; try discriminate.
    intros H2. pose proof (Hf _ _ _ H1) as Hf1.
    apply store_tr_inv in H1. destruct H1 as (Hc & Hc1 & HT & _).
    assert (Hlen1 : (Storage.num_steps st1 <= length (f st1))%nat).
    { rewrite Hf1, length_insert. lia. }
    destruct (IH _ _ Hlen1 H2) as (Hl & Hlk).
    split; [rewrite Hl, Hf1, length_insert; reflexivity|].
    intros i. rewrite Hlk, Hc1, Hf1.
    destruct (decide (S (Storage.cursor st) <= i < S (Storage.cursor st) + length xs)%nat).
    + destruct (decide _); [|lia].
      replace (i - Storage.cursor st)%nat with (S (i - S (Storage.cursor st))) by lia.
      reflexivity.
    + destruct (decide (i = Storage.cursor st)) as [->|Hne].
      * destruct (decide _); [|lia].
        rewrite Nat.sub_diag, list_lookup_insert_eq by lia. reflexivity.
      * destruct (decide _); [lia|].
        rewrite list_lookup_insert_ne by lia. reflexivity.
Qed.

End Fill.

Section Window.

Context {Obs Action Info : Type} `{!Inhabited Obs, !Inhabited Action}.

Abbreviation store_t := (Storage.t Obs Action Info).
Abbreviation transition_t := (Storage.transition Obs Action Info).

(** A store with the sizes of its constructor and the write position at the
    first row takes a whole window: [num_steps] stores and [store_last]
    succeed, and the tables hold what was passed. *)
Lemma rollout_spec (st0 : store_t) (xs : list transition_t) (o : list Obs) (v : tensor) :
  Storage.wf st0 = true ->
  Storage.cursor st0 = 0%nat ->
  length xs = Storage.num_steps st0 ->
  exists st,
    Storage.rollout st0 xs o v = Ok st
    /\ Storage.wf st = true
    /\ Storage.num_steps st = Storage.num_steps st0
    /\ Storage.num_envs st = Storage.num_envs st0
    /\ Storage.gamma st = Storage.gamma st0
    /\ Storage.lam st = Storage.lam st0
    /\ (forall t x, xs !! t = Some x ->
          nth t (Storage.reward st) [] = Storage.tr_reward x
          /\ nth t (Storage.done st) [] = Storage.tr_done x
          /\ nth t (Storage.value st) [] = Storage.tr_value x)
    /\ nth (Storage.num_steps st0) (Storage.value st) [] = v.
Proof.
  intros Hwf Hc Hlen.
  destruct (store_all_ok xs st0 ltac:(lia)) as [st1 H1].
  pose proof (store_all_inv _ _ _ H1) as (Hc1 & _ & HT & HE & Hg & Hl & Hwf1).
  specialize (Hwf1 Hwf).
  pose proof Hwf as Hwf0. apply bool_decide_eq_true in Hwf0.
  destruct Hwf0 as (_ & _ & Hre & Hdo & _ & Hva & _).
  assert (Hfr : forall (st : store_t) x st', Storage.store_tr st x = Ok st' ->
            Storage.reward st' = <[Storage.cursor st := Storage.tr_reward x]> (Storage.reward st))
    by (intros ? ? ? H; apply store_tr_inv in H; tauto).
  assert (Hfd : forall (st : store_t) x st', Storage.store_tr st x = Ok st' ->
            Storage.done st' = <[Storage.cursor st := Storage.tr_done x]> (Storage.done st))
    by (intros ? ? ? H; apply store_tr_inv in H; tauto).
  assert (Hfv : forall (st : store_t) x st', Storage.store_tr st x = Ok st' ->
            Storage.value st' = <[Storage.cursor st := Storage.tr_value x]> (Storage.value st))
    by (intros ? ? ? H; apply store_tr_inv in H; tauto).
  destruct (store_all_table _ _ Hfr xs st0 st1 ltac:(lia) H1) as (Hlr & Hr).
  destruct (store_all_table _ _ Hfd xs st0 st1 ltac:(lia) H1) as (Hld & Hd).
  destruct (store_all_table _ _ Hfv xs st0 st1 ltac:(lia) H1) as (Hlv & Hv).
  exists (Storage.store_last st1 o v).
  unfold Storage.rollout. rewrite H1. simpl.
  split; [reflexivity|]. split.
  { apply bool_decide_eq_true in Hwf1. apply bool_decide_eq_true. simpl.
    rewrite !length_insert. exact Hwf1. }
  do 4 (split; [assumption|]). rewrite HT. split.
  - intros t x Hx. pose proof (lookup_lt_Some _ _ _ Hx) as Ht.
    rewrite !nth_lookup, list_lookup_insert_ne by lia.
    rewrite Hr, Hd, Hv, Hc.
    destruct (decide _); [|lia].
    rewrite Nat.sub_0_r, Hx. simpl. tauto.
  - rewrite nth_insert_eq by lia. reflexivity.
Qed.

(** The rows of a filled window after [compute_return_advantage]: they
    obey the three equations, over the rows that were stored. *)
Lemma rollout_rows (st0 : store_t) (xs : list transition_t) (o : list Obs) (v : tensor) :
  Storage.wf st0 = true ->
  Storage.cursor st0 = 0%nat ->
  length xs = Storage.num_steps st0 ->
  exists st,
    Storage.rollout st0 xs o v = Ok st
    /\ Storage.num_steps st = Storage.num_steps st0
    /\ Storage.num_envs st = Storage.num_envs st0
    /\ Storage.gamma st = Storage.gamma st0
    /\ Storage.lam st = Storage.lam st0
    /\ forall t x,
         xs !! t = Some x ->
         Storage.rows_ok st (Storage.compute_return_advantage st)
           (Storage.num_steps st) t
         /\ nth t (Storage.reward st) [] = Storage.tr_reward x
         /\ nth t (Storage.done st) [] = Storage.tr_done x
         /\ nth t (Storage.value st) [] = Storage.tr_value x
         /\ nth (S t) (Storage.value st) []
            = match xs !! S t with
              | Some x' => Storage.tr_value x'
              | None => v
              end.
Proof.
  intros Hwf Hc Hlen.
  destruct (rollout_spec st0 xs o v Hwf Hc Hlen)
    as (st & Hroll & Hwfst & HT & HE & Hg & Hl & Hrows & Hboot).
  exists st. do 5 (split; [assumption|]).
  intros t x Hx.
  pose proof (lookup_lt_Some _ _ _ Hx) as Ht.
  destruct (compute_return_advantage_rows st Hwfst) as (_ & _ & Hok).
  split; [apply Hok; lia|].
  destruct (Hrows t x Hx) as (Hr & Hd & Hv).
  do 3 (split; [assumption|]).
  destruct (xs !! S t) as [x'|] eqn:Hx'.
  - apply (Hrows (S t) x' Hx').
  - apply lookup_ge_None in Hx'.
    replace (S t) with (Storage.num_steps st0) by lia. exact Hboot.
Qed.

End Window.

(** The instance of the design document, evaluated: the advantage at
    step 1, the done step, is 1; step 0 adds the discounted advantage of
    step 1 and nothing from beyond it. *)
Lemma example_window_advantages :
  exists st,
    Storage.rollout Example.store0 Example.window
      Example.bootstrap_obs Example.bootstrap_value = Ok st
    /\ Storage.advantage (Storage.compute_return_advantage st)
       = [[(1 + Example.gamma * Example.lam)%Qc]; [1%Qc]; [1%Qc]].
Proof. eexists. split; reflexivity. Qed.

(** ** Claims on [compute_return_advantage] *)

Section ReturnAdvantage.

Context {Obs Action Info : Type} `{!Inhabited Obs, !Inhabited Action}.

Abbreviation store_t := (Storage.t Obs Action Info).
Abbreviation transition_t := (Storage.transition Obs Action Info).

(** C2.  For every filled rollout window ([num_steps] stores followed by
    [store_last], which succeed), [compute_return_advantage] leaves in every
    (time, env-instance) cell the residual
    [delta_t = reward_t + gamma * value_{t+1} * (1 - done_t) - value_t],
    the advantage [A_t = delta_t + gamma * lam * (1 - done_t) * A_{t+1}] and
    the return [R_t = A_t + value_t], where after the last step the value
    is the bootstrap value and the advantage is 0. *)
Theorem compute_return_advantage_recursion
    (st0 : store_t) (xs : list transition_t) (o : list Obs) (v : tensor) :
  Storage.wf st0 = true ->
  Storage.cursor st0 = 0%nat ->
  length xs = Storage.num_steps st0 ->
  exists st,
    Storage.rollout st0 xs o v = Ok st /\
    let st' := Storage.compute_return_advantage st in
    forall t e x,
      xs !! t = Some x -> (e < Storage.num_envs st0)%nat ->
      let v_next := match xs !! S t with
                    | Some x' => Storage.tr_value x'
                    | None => v
                    end in
      let A_next := if decide (S t < Storage.num_steps st0)%nat
                    then Storage.cell 0%Qc (Storage.advantage st') (S t) e
                    else 0%Qc in
      let nd := keep (nth e (Storage.tr_done x) false) in
      (Storage.cell 0 (Storage.delta st') t e
         = nth e (Storage.tr_reward x) 0
           + Storage.gamma st0 * nth e v_next 0 * nd
           - nth e (Storage.tr_value x) 0
       /\ Storage.cell 0 (Storage.advantage st') t e
         = Storage.cell 0 (Storage.delta st') t e
           + Storage.gamma st0 * Storage.lam st0 * nd * A_next
       /\ Storage.cell 0 (Storage.returns st') t e
         = Storage.cell 0 (Storage.advantage st') t e
           + nth e (Storage.tr_value x) 0)%Qc.
Proof.
  intros Hwf Hc Hlen.
  destruct (rollout_rows st0 xs o v Hwf Hc Hlen)
    as (st & Hroll & HT & HE & Hg & Hl & Hrows).
  exists st. split; [exact Hroll|].
  intros st' t e x Hx He.
  destruct (Hrows t x Hx) as ((Hdl & Hadv & Hret) & Hr & Hd & Hv & Hvn).
  fold st' in Hdl, Hadv, Hret.
  cbv zeta. unfold Storage.cell.
  rewrite Hret, Hadv, Hdl.
  unfold Storage.returns_row, Storage.advantage_row, Storage.delta_row, Storage.cell.
  rewrite HE, Hg, Hl, Hr, Hd, Hv, Hvn.
  rewrite !nth_map_seq by exact He.
  split; [reflexivity|]. split; [|reflexivity].
  f_equal. f_equal. unfold Storage.next_row. rewrite HT.
  destruct (decide _); [reflexivity|].
  unfold Storage.zeros. apply nth_replicate_same.
Qed.

(** C1.  For every rollout window, after [compute_return_advantage], at
    every (time, env-instance) cell whose done flag is true the advantage is
    the residual, and the residual is [reward_t - value_t]: neither depends
    on [value_{t+1}] or [A_{t+1}], so two windows that store the same
    transition at step [t] have the same advantage in that cell whatever
    they store elsewhere and as bootstrap value.  In the instance with
    three steps, one environment instance, rewards 1, values 0, done flags
    false, true, false, bootstrap value 0, gamma 0.99 and lam 0.95, the
    advantage at step 1 is exactly 1. *)
Theorem done_cell_advantage_is_residual :
  (forall (st0 : store_t) (xs : list transition_t) (o : list Obs) (v : tensor),
   Storage.wf st0 = true ->
   Storage.cursor st0 = 0%nat ->
   length xs = Storage.num_steps st0 ->
   exists st,
    Storage.rollout st0 xs o v = Ok st /\
    let st' := Storage.compute_return_advantage st in
    forall t e x,
      xs !! t = Some x -> (e < Storage.num_envs st0)%nat ->
      nth e (Storage.tr_done x) false = true ->
      Storage.cell 0%Qc (Storage.advantage st') t e
        = Storage.cell 0%Qc (Storage.delta st') t e
      /\ Storage.cell 0%Qc (Storage.delta st') t e
        = (nth e (Storage.tr_reward x) 0 - nth e (Storage.tr_value x) 0)%Qc
      /\ forall xs2 o2 v2 st2,
           length xs2 = Storage.num_steps st0 ->
           xs2 !! t = Some x ->
           Storage.rollout st0 xs2 o2 v2 = Ok st2 ->
           Storage.cell 0%Qc
             (Storage.advantage (Storage.compute_return_advantage st2)) t e
           = Storage.cell 0%Qc (Storage.advantage st') t e)
  /\ (exists st,
        Storage.rollout Example.store0 Example.window
          Example.bootstrap_obs Example.bootstrap_value = Ok st
        /\ Storage.cell 0%Qc
             (Storage.advantage (Storage.compute_return_advantage st)) 1 0
           = 1%Qc).
Proof.
  split; [|eexists; split; reflexivity].
  intros st0 xs o v Hwf Hc Hlen.
  assert (Hcut : forall ys oy vy sty t e x,
            length ys = Storage.num_steps st0 ->
            Storage.rollout st0 ys oy vy = Ok sty ->
            ys !! t = Some x -> (e < Storage.num_envs st0)%nat ->
            nth e (Storage.tr_done x) false = true ->
            Storage.cell 0%Qc
              (Storage.delta (Storage.compute_return_advantage sty)) t e
            = (nth e (Storage.tr_reward x) 0 - nth e (Storage.tr_value x) 0)%Qc
            /\ Storage.cell 0%Qc
                 (Storage.advantage (Storage.compute_return_advantage sty)) t e
               = (nth e (Storage.tr_reward x) 0 - nth e (Storage.tr_value x) 0)%Qc).
  { intros ys oy vy sty t e x Hly Hry Hx He Hdone.
    destruct (rollout_rows st0 ys oy vy Hwf Hc Hly)
      as (st & Hroll & HT & HE & Hg & Hl & Hrows).
    rewrite Hry in Hroll. injection Hroll as <-.
    destruct (Hrows t x Hx) as ((Hdl & Hadv & _) & Hr & Hd & Hv & _).
    unfold Storage.cell. rewrite Hadv, Hdl.
    unfold Storage.advantage_row, Storage.delta_row, Storage.cell.
    rewrite HE, Hr, Hd, Hv, !nth_map_seq by exact He.
    rewrite Hdone. simpl. split; ring. }
  destruct (rollout_rows st0 xs o v Hwf Hc Hlen) as (st & Hroll & _).
  exists st. split; [exact Hroll|].
  intros st' t e x Hx He Hdone.
  destruct (Hcut xs o v st t e x Hlen Hroll Hx He Hdone) as [Hd Ha].
  fold st' in Hd, Ha.
  split; [rewrite Ha, Hd; reflexivity|]. split; [exact Hd|].
  intros xs2 o2 v2 st2 Hlen2 Hx2 Hroll2.
  destruct (Hcut xs2 o2 v2 st2 t e x Hlen2 Hroll2 Hx2 He Hdone) as [_ Ha2].
  rewrite Ha, Ha2. reflexivity.
Qed.

End ReturnAdvantage.

(** The window of the design document goes through C2: its rows obey the
    three equations. *)
Lemma compute_return_advantage_recursion_witness :
  exists st,
    Storage.rollout Example.store0 Example.window
      Example.bootstrap_obs Example.bootstrap_value = Ok st
    /\ (Storage.cell 0 (Storage.returns (Storage.compute_return_advantage st)) 0 0
        = Storage.cell 0 (Storage.advantage (Storage.compute_return_advantage st)) 0 0
          + 0)%Qc.
Proof.
  destruct (compute_return_advantage_recursion Example.store0 Example.window
              Example.bootstrap_obs Example.bootstrap_value
              eq_refl eq_refl eq_refl) as (st & Hroll & H).
  exists st. split; [exact Hroll|].
  destruct (H 0%nat 0%nat (Example.step_with false) eq_refl ltac:(simpl; lia))
    as (_ & _ & Hret).
  exact Hret.
Defined.

(** The window of the design document goes through C1: its done cell holds
    [reward - value = 1 - 0]. *)
Lemma done_cell_advantage_is_residual_witness :
  exists st,
    Storage.rollout Example.store0 Example.window
      Example.bootstrap_obs Example.bootstrap_value = Ok st
    /\ Storage.cell 0%Qc
         (Storage.advantage (Storage.compute_return_advantage st)) 1 0
       = (1 - 0)%Qc.
Proof.
  destruct (@done_cell_advantage_is_residual unit unit unit) as [Hgen _].
  destruct (Hgen Example.store0 Example.window
              Example.bootstrap_obs Example.bootstrap_value
              eq_refl eq_refl eq_refl) as (st & Hroll & H).
  exists st. split; [exact Hroll|].
  destruct (H 1%nat 0%nat (Example.step_with true) eq_refl ltac:(simpl; lia) eq_refl)
    as (Ha & Hd & _).
  rewrite Ha. exact Hd.
Defined.

(** ** The capacity of the store *)

Section Capacity.

Context {Obs Action Info : Type} `{!Inhabited Obs, !Inhabited Action}.

(** C8.  From a reset write position the store takes [num_steps] calls of
    [store] and no more: a longer sequence of calls ends in the capacity
    violation at its call number [num_steps + 1]; it neither wraps around
    nor succeeds. *)
Theorem store_past_capacity_raises
    (st0 : Storage.t Obs Action Info)
    (xs : list (Storage.transition Obs Action Info)) :
  Storage.cursor st0 = 0%nat ->
  ((length xs <= Storage.num_steps st0)%nat ->
     exists st, Storage.store_all st0 xs = Ok st
                /\ Storage.cursor st = length xs)
  /\ ((Storage.num_steps st0 < length xs)%nat ->
      Storage.store_all st0 xs = Raise CapacityViolation
      /\ exists st,
           Storage.store_all st0 (take (Storage.num_steps st0) xs) = Ok st
           /\ forall x, Storage.store_tr st x = Raise CapacityViolation).
Proof.
  intros Hc. split.
  - intros Hlen. destruct (store_all_ok xs st0 ltac:(lia)) as [st H].
    exists st. split; [exact H|].
    apply store_all_inv in H. lia.
  - intros Hlen. split; [apply store_all_overflow; lia|].
    assert (Htake : length (take (Storage.num_steps st0) xs) = Storage.num_steps st0)
      by (rewrite length_take; lia).
    destruct (store_all_ok (take (Storage.num_steps st0) xs) st0 ltac:(lia))
      as [st H].
    exists st. split; [exact H|]. intros x.
    apply store_all_inv in H. destruct H as (Hc' & _ & HT & _).
    apply store_tr_full. lia.
Qed.

Lemma cursor_init (T E : nat) (g l : Qc) :
  Storage.cursor (Storage.init (Obs:=Obs) (Action:=Action) (Info:=Info) T E g l) = 0%nat.
Proof. reflexivity. Qed.

Lemma cursor_reset (st : Storage.t Obs Action Info) :
  Storage.cursor (Storage.reset st) = 0%nat
  /\ Storage.num_steps (Storage.reset st) = Storage.num_steps st.
Proof. split; reflexivity. Qed.

Lemma wf_init (T E : nat) (g l : Qc) :
  Storage.wf (Storage.init (Obs:=Obs) (Action:=Action) (Info:=Info) T E g l) = true.
Proof.
  apply bool_decide_eq_true. simpl. rewrite !length_replicate. repeat split.
Qed.

End Capacity.

(** Four calls of [store] on the three-step store of the example: the
    fourth raises. *)
Lemma store_past_capacity_raises_witness :
  Storage.store_all Example.store0
    (Example.window ++ [Example.step_with false]) = Raise CapacityViolation.
Proof.
  apply (store_past_capacity_raises Example.store0
           (Example.window ++ [Example.step_with false]) eq_refl).
  simpl. lia.
Defined.

(** ** The minibatch generator *)

Section Generator.

Lemma chunks_nil (fuel b : nat) : Storage.chunks fuel b [] = [].
Proof. destruct fuel; reflexivity. Qed.

Lemma chunks_concat (b : nat) :
  (1 <= b)%nat ->
  forall fuel l, (length l <= fuel)%nat -> concat (Storage.chunks fuel b l) = l.
Proof.
  intros Hb. induction fuel as [|fuel IH]; intros [|x l] Hl; simpl in *;
    try reflexivity; try lia.
  destruct b as [|b]; [lia|]. simpl.
  rewrite IH by (rewrite length_drop; lia).
  rewrite take_drop. reflexivity.
Qed.

Lemma chunks_sizes (b : nat) :
  (1 <= b)%nat ->
  forall fuel l,
    Forall (fun c => (1 <= length c <= b)%nat) (Storage.chunks fuel b l).
Proof.
  intros Hb. induction fuel as [|fuel IH]; intros [|x l]; simpl;
    try constructor.
  - rewrite length_take. simpl. lia.
  - apply IH.
Qed.

(** Every batch but the last is full. *)
Lemma chunks_full (b : nat) :
  forall fuel l i c,
    Storage.chunks fuel b l !! i = Some c ->
    (S i < length (Storage.chunks fuel b l))%nat ->
    length c = b.
Proof.
  induction fuel as [|fuel IH]; intros [|x l] i c; simpl; try discriminate.
  destruct i as [|i]; simpl.
  - intros [= <-] Hlen. rewrite length_take.
    destruct (decide (b <= length (x :: l))%nat) as [Hle|Hgt]; [lia|].
    rewrite drop_ge, chunks_nil in Hlen by lia. simpl in Hlen. lia.
  - intros Hc Hlen. apply (IH _ _ _ Hc). lia.
Qed.

Lemma insert_at_perm {A : Type} (p : nat) (x : A) (l : list A) :
  Storage.insert_at p x l ≡ₚ x :: l.
Proof.
  unfold Storage.insert_at.
  rewrite <- Permutation_middle, take_drop. reflexivity.
Qed.

Context {Rng : Type} (draw : Rng -> nat -> nat * Rng).

Lemma shuffle_perm (ks : list nat) :
  forall (l : list nat) (g : Rng),
    fst (foldl (Storage.shuffle_step draw) (l, g) ks) ≡ₚ l ++ ks.
Proof.
  induction ks as [|i ks IH]; intros l g; simpl.
  - rewrite app_nil_r. reflexivity.
  - destruct (draw g (S (length l))) as [p g'].
    rewrite IH, insert_at_perm.
    rewrite (Permutation_middle l ks i). reflexivity.
Qed.

(** [randperm] is a permutation of the indices, for every random source. *)
Lemma randperm_perm (n : nat) (g : Rng) :
  fst (Storage.randperm draw n g) ≡ₚ seq 0 n.
Proof. unfold Storage.randperm. rewrite shuffle_perm. reflexivity. Qed.

End Generator.

(** ** The call trace of the loop *)

Section TraceFacts.

Context (C : Collab).

Import Training.

Abbreviation ev := (event C).
Abbreviation world := (World C).

Lemma count_app (p : ev -> bool) (l1 l2 : list ev) :
  count p (l1 ++ l2) = (count p l1 + count p l2)%nat.
Proof. unfold count. rewrite List.filter_app, length_app. reflexivity. Qed.

Lemma count_cons (p : ev -> bool) (e : ev) (l : list ev) :
  count p (e :: l) = ((if p e then 1 else 0) + count p l)%nat.
Proof. unfold count. simpl. destruct (p e); reflexivity. Qed.

Lemma count_nil (p : ev -> bool) : count p [] = 0%nat.
Proof. reflexivity. Qed.

(** A trace made of events of the kind [q] has no event of a kind [p]
    disjoint from [q]. *)
Lemma count_disjoint (p q : ev -> bool) (l : list ev) :
  (forall e, q e = true -> p e = false) ->
  Forall (fun e => q e = true) l ->
  count p l = 0%nat.
Proof.
  intros Hpq Hl. induction Hl as [|e l He _ IH]; [reflexivity|].
  rewrite count_cons, (Hpq e He), IH. reflexivity.
Qed.

Lemma collected_counts (n : nat) (o o' : Obs C) (tr : list ev) :
  collected n o tr o' ->
  count is_store tr = n
  /\ count is_train_step tr = n
  /\ count is_store_last tr = 0%nat
  /\ count is_get_generator tr = 0%nat.
Proof.
  induction 1 as [|n o o1 o' a v r tr _ (IH1 & IH2 & IH3 & IH4)].
  - repeat split.
  - rewrite !count_cons. simpl. rewrite IH1, IH2, IH3, IH4. repeat split.
Qed.

(** The collection loop: its events, and what it leaves as it is. *)
Lemma collect_spec (n : nat) :
  forall (o : Obs C) (w : world),
    exists tr,
      trace (snd (collect C n o w)) = trace w ++ tr
      /\ collected n o tr (fst (collect C n o w))
      /\ eval_env (snd (collect C n o w)) = eval_env w
      /\ params (snd (collect C n o w)) = params w
      /\ training (snd (collect C n o w)) = training w
      /\ grads (snd (collect C n o w)) = grads w
      /\ opt (snd (collect C n o w)) = opt w.
Proof.
  induction n as [|n IH]; intros o w; simpl.
  - exists []. rewrite app_nil_r. repeat split. constructor.
  - unfold do_act, do_step.
    destruct (model_act C (params w) (training w) o (rng w))
      as [[[a lp] v] g] eqn:Hact. simpl.
    destruct (env_step C (env w) a) as [s [[[o1 r] d] i]] eqn:Hstep. simpl.
    match goal with |- context [collect C n o1 ?w1] =>
      destruct (IH o1 w1) as (tr & Htr & Hcol & He & Hp & Ht & Hg & Ho) end.
    exists (EAct o a v :: EEnvStep TrainEnv a o1 r :: EStore o a v :: tr).
    rewrite Htr, He, Hp, Ht, Hg, Ho. simpl.
    rewrite <- !app_assoc. simpl.
    repeat split. constructor. exact Hcol.
Qed.

End TraceFacts.

(** ** [evaluate_model] *)

Section Evaluate.

Context (C : Collab).

Import Training.

Lemma evaluated_stats (video : bool) (n : nat) (o o' : Obs C)
    (tr : list (event C)) (rows : list tensor) :
  evaluated EvalEnv video n o tr rows o' ->
  Forall (fun e => stats_event e = true) tr /\ length rows = n.
Proof.
  induction 1 as [|n o o1 o' a v r tr rows _ [IH1 IH2]].
  - split; [constructor | reflexivity].
  - split; [|simpl; congruence].
    constructor; [reflexivity|]. constructor; [reflexivity|].
    apply Forall_app. split; [|exact IH1].
    destruct video; repeat constructor.
Qed.

(** The evaluation loop: its events and rewards, and what it leaves as it
    is. *)
Lemma eval_steps_spec (which : which_env) (video : bool) (n : nat) :
  forall (o : Obs C) (tot : list tensor) (frames : list (Frame C)) (w : World C),
    exists o' rows fs w' tr,
      eval_steps C n which video o tot frames w
        = (o', tot ++ rows, frames ++ fs, w')
      /\ trace w' = trace w ++ tr
      /\ evaluated which video n o tr rows o'
      /\ params w' = params w /\ training w' = training w
      /\ grads w' = grads w /\ opt w' = opt w /\ storage w' = storage w
      /\ (which = EvalEnv -> env w' = env w)
      /\ (which = TrainEnv -> eval_env w' = eval_env w).
Proof.
  destruct which, video.
  all: induction n as [|n IH]; intros o tot frames w; simpl.
  all: try (exists o, [], [], w, []; rewrite !app_nil_r; repeat split;
            constructor).
  all: unfold do_act, do_step, do_render.
  all: destruct (model_act C (params w) (training w) o (rng w))
         as [[[a lp] v] g] eqn:Hact; simpl.
  all: destruct (env_step C _ a) as [s [[[o1 r] d] i]] eqn:Hstep; simpl.
  all: try (destruct (env_render C _) as [s' f] eqn:Hrender; simpl).
  all: match goal with |- context [eval_steps C _ _ _ ?o2 ?t ?f ?w1] =>
         destruct (IH o2 t f w1)
           as (o' & rows & fs & w' & tr & Heq & Htr & Hev & Hp & Ht & Hg
               & Ho & Hs & He1 & He2)
       end.
  1, 3: exists o', (r :: rows), (f :: fs), w'.
  3, 4: exists o', (r :: rows), fs, w'.
  all: eexists; rewrite Heq, Htr, Hp, Ht, Hg, Ho, Hs; simpl;
    rewrite <- !app_assoc; simpl;
    (split; [reflexivity|]); (split; [reflexivity|]);
    (split; [eapply evaluated_cons in Hev; exact Hev|]);
    repeat split; try congruence;
    try (rewrite He1 by reflexivity; reflexivity);
    try (rewrite He2 by reflexivity; reflexivity).
Qed.

Lemma evaluated_length (which : which_env) (video : bool) (n : nat)
    (o o' : Obs C) (tr : list (event C)) (rows : list tensor) :
  evaluated which video n o tr rows o' -> length rows = n.
Proof. induction 1; simpl; congruence. Qed.

(** The evaluation loop reads the state of the world, not its trace, and
    appends to the lists it is given. *)
Lemma eval_steps_congr (which : which_env) (video : bool) (n : nat) :
  forall (o : Obs C) (tot1 tot2 : list tensor) (fr1 fr2 : list (Frame C))
         (w1 w2 : World C),
    same_state w1 w2 ->
    exists o' rows fs w1' w2',
      eval_steps C n which video o tot1 fr1 w1
        = (o', tot1 ++ rows, fr1 ++ fs, w1')
      /\ eval_steps C n which video o tot2 fr2 w2
        = (o', tot2 ++ rows, fr2 ++ fs, w2')
      /\ same_state w1' w2'.
Proof.
  destruct which, video.
  all: induction n as [|n IH]; intros o tot1 tot2 fr1 fr2 w1 w2 Hs; simpl.
  all: try (exists o, [], [], w1, w2; rewrite !app_nil_r; repeat split;
            apply Hs).
  all: destruct Hs as (He & Hee & Hp & Ht & Hg & Ho & Hst & Hr).
  all: unfold do_act, do_step, do_render.
  all: rewrite <- Hp, <- Ht, <- Hr.
  all: destruct (model_act C (params w1) (training w1) o (rng w1))
         as [[[a lp] v] g] eqn:Hact; simpl.
  all: rewrite <- ?He, <- ?Hee.
  all: destruct (env_step C _ a) as [s [[[o1 r] d] i]] eqn:Hstep; simpl.
  all: try (destruct (env_render C _) as [s' f] eqn:Hrender; simpl).
  all: match goal with
       | |- exists _ _ _ _ _,
              eval_steps C _ _ _ ?o2 ?ta ?f1 ?wa = _
              /\ eval_steps C _ _ _ _ ?tb ?f2 ?wb = _ /\ _ =>
           destruct (IH o2 ta tb f1 f2 wa wb)
             as (o' & rows & fs & w1' & w2' & H1 & H2 & Hs');
           [ repeat split; simpl; congruence | ]
       end.
  1, 3: exists o', (r :: rows), (f :: fs), w1', w2'.
  3, 4: exists o', (r :: rows), fs, w1', w2'.
  all: rewrite H1, H2, <- !app_assoc; simpl; repeat split; apply Hs'.
Qed.

(** [n1 + n2] passes are [n1] passes and then [n2] passes. *)
Lemma eval_steps_add (which : which_env) (video : bool) (n1 n2 : nat) :
  forall (o : Obs C) (tot : list tensor) (frames : list (Frame C)) (w : World C),
    eval_steps C (n1 + n2) which video o tot frames w
    = let '(o1, tot1, frames1, w1) := eval_steps C n1 which video o tot frames w in
      eval_steps C n2 which video o1 tot1 frames1 w1.
Proof.
  induction n1 as [|n1 IH]; intros o tot frames w; simpl; [reflexivity|].
  destruct (do_act C o w) as [[[a lp] v] w0].
  destruct (do_step C which a w0) as [[[[o1 r] d] i] w1].
  destruct video.
  - destruct (do_render C which w1) as [f w2]. apply IH.
  - apply IH.
Qed.

Lemma length_sum0 (rows : list tensor) :
  length (sum0 rows) = length (hd [] rows).
Proof. unfold sum0. rewrite length_map, length_seq. reflexivity. Qed.

(** The total of an environment instance is the sum of its rewards. *)
Lemma nth_sum0 (rows : list tensor) (e : nat) :
  (e < length (hd [] rows))%nat ->
  nth e (sum0 rows) 0%Qc = col_sum rows e.
Proof. intros He. unfold sum0. rewrite nth_map_seq by exact He. reflexivity. Qed.

Lemma col_sum_app (rows1 rows2 : list tensor) (e : nat) :
  col_sum (rows1 ++ rows2) e = (col_sum rows1 e + col_sum rows2 e)%Qc.
Proof.
  unfold col_sum. induction rows1 as [|r rows1 IH]; simpl.
  - ring.
  - rewrite IH. ring.
Qed.

End Evaluate.

Section EvaluateModel.

Context (C : Collab).

Import Training.

Lemma stack_ok {A : Type} (l : list A) :
  (1 <= length l)%nat -> stack l = Ok l.
Proof. destruct l; simpl; [lia | reflexivity]. Qed.

Lemma same_state_emit (e : event C) (w1 w2 : World C) :
  same_state w1 w2 -> same_state (emit e w1) w2 /\ same_state w1 (emit e w2).
Proof. intros Hs. split; exact Hs. Qed.

(** With at least one step, [evaluate_model] returns; the pair it returns
    is the column sums of the rewards of its steps and the observation of
    the last step; it writes the mode flag of the model and nothing else of
    the model or the optimizer. *)
Lemma eval_model_ok (which : which_env) (o : Obs C) (num_steps : Z)
    (video : bool) (w : World C) :
  1 <= num_steps ->
  exists rows o' w' w1 tr fs,
    evaluate_model C which o num_steps video w = Ok ((sum0 rows, o'), w')
    /\ eval_steps C (Z.to_nat num_steps) which video o [] [] (do_model_eval C w)
       = (o', rows, fs, w1)
    /\ w' = (if video then emit (ESaveVideo fs) w1 else w1)
    /\ trace w' = trace w ++ EModelEval :: tr
                    ++ (if video then [ESaveVideo fs] else [])
    /\ evaluated which video (Z.to_nat num_steps) o tr rows o'
    /\ params w' = params w /\ grads w' = grads w /\ opt w' = opt w
    /\ storage w' = storage w /\ training w' = false
    /\ (which = EvalEnv -> env w' = env w)
    /\ (which = TrainEnv -> eval_env w' = eval_env w).
Proof.
  intros Hn. unfold evaluate_model.
  destruct (eval_steps_spec C which video (Z.to_nat num_steps) o [] []
              (do_model_eval C w))
    as (o' & rows & fs & w1 & tr & Heq & Htr & Hev & Hp & Ht & Hg & Ho & Hs & He1 & He2).
  simpl in Heq. rewrite Heq.
  pose proof (evaluated_length C _ _ _ _ _ _ _ Hev) as Hlen.
  rewrite stack_ok by lia. simpl.
  exists rows, o', (if video then emit (ESaveVideo fs) w1 else w1), w1, tr, fs.
  split; [reflexivity|]. split; [reflexivity|]. split; [reflexivity|].
  destruct video; simpl; rewrite Htr, ?Hp, ?Ht, ?Hg, ?Ho, ?Hs; simpl;
    rewrite <- ?app_assoc; simpl; repeat split; try assumption;
    try (intros ->; rewrite ?(He1 eq_refl), ?(He2 eq_refl); reflexivity).
  rewrite app_nil_r. reflexivity.
Qed.

End EvaluateModel.

Section EvaluateResume.

Context (C : Collab).

Import Training.

(** A second call on the returned observation continues the first one:
    together they are one call of the added length. *)
Lemma evaluate_model_resume (which : which_env) (o : Obs C) (n1 n2 : Z)
    (video : bool) (w : World C) :
  1 <= n1 -> 1 <= n2 ->
  exists t1 o1 w1 t2 o2 w2 t12 w12,
    evaluate_model C which o n1 video w = Ok ((t1, o1), w1)
    /\ evaluate_model C which o1 n2 video w1 = Ok ((t2, o2), w2)
    /\ evaluate_model C which o (n1 + n2) video w = Ok ((t12, o2), w12)
    /\ same_state w2 w12
    /\ forall e, (e < length t1)%nat -> (e < length t2)%nat ->
         nth e t12 0%Qc = (nth e t1 0 + nth e t2 0)%Qc.
Proof.
  intros H1 H2.
  destruct (eval_model_ok C which o n1 video w H1)
    as (rows1 & o1 & w1 & w1a & tr1 & fs1 & He1 & Hs1 & Hw1 & _ & Hev1 & _ & _ & _
        & _ & Htr1 & _).
  destruct (eval_model_ok C which o1 n2 video w1 H2)
    as (rows2 & o2 & w2 & w2a & tr2 & fs2 & He2 & Hs2 & Hw2 & _ & Hev2 & _).
  destruct (eval_model_ok C which o (n1 + n2) video w ltac:(lia))
    as (rows12 & o12 & w12 & w12a & tr12 & fs12 & He12 & Hs12 & Hw12 & _).
  exists (sum0 rows1), o1, w1, (sum0 rows2), o2, w2, (sum0 rows12), w12.
  rewrite Z2Nat.inj_add, eval_steps_add, Hs1 in Hs12 by lia.
  assert (Hsame : same_state w1a (do_model_eval C w1)).
  { subst w1. destruct video; simpl in Htr1 |- *; repeat split; simpl;
      congruence. }
  destruct (eval_steps_congr C which video (Z.to_nat n2) o1 rows1 [] fs1 []
              w1a (do_model_eval C w1) Hsame)
    as (o' & rows & fs & wa & wb & Ha & Hb & Hab).
  rewrite Ha in Hs12. rewrite Hb in Hs2. simpl in Hs2.
  injection Hs12 as <- <- <- <-. injection Hs2 as -> -> -> ->.
  split; [exact He1|]. split; [exact He2|]. split; [exact He12|].
  split.
  - subst w2 w12. destruct Hab as (? & ? & ? & ? & ? & ? & ? & ?).
    destruct video; repeat split; simpl; congruence.
  - intros e Ht1 Ht2. rewrite length_sum0 in Ht1, Ht2.
    pose proof (evaluated_length C _ _ _ _ _ _ _ Hev1) as Hl1.
    rewrite !nth_sum0, col_sum_app; try assumption; [reflexivity|].
    destruct rows1; simpl in *; [lia | exact Ht1].
Qed.

End EvaluateResume.

(** ** The update phase *)

Section UpdatePhase.

Context (C : Collab).

Import Training.

(** One minibatch: the six calls in their order, the gradients each call
    sees, and what the minibatch leaves as it is. *)
Lemma minibatch_update_spec (w : World C) (batch : Batch C) :
  let pv := model_forward C (params w) (training w) (batch_obs C batch) in
  let loss := model_criterion C (params w) batch (fst pv) (snd pv) in
  let g_back := backward C loss (grads w) in
  let eps := model_grad_eps C (params w) in
  let g_clip := clip_grad_norm_ C g_back eps in
  let w' := minibatch_update C w batch in
  trace w' = trace w ++ [EForward; ECriterion; EBackward;
                         EClipGradNorm g_back eps; EOptimizerStep g_clip;
                         EZeroGrad]
  /\ (opt w', params w') = optimizer_step C (opt w) (params w) g_clip
  /\ grads w' = zero_grad C g_clip
  /\ env w' = env w /\ eval_env w' = eval_env w /\ training w' = training w
  /\ storage w' = storage w /\ rng w' = rng w.
Proof.
  unfold minibatch_update.
  destruct (model_forward C (params w) (training w) (batch_obs C batch))
    as [policy value]. simpl.
  destruct (optimizer_step C _ _ _) as [o p] eqn:Hstep. simpl.
  rewrite <- !app_assoc. simpl. repeat split.
Qed.

Lemma minibatches_spec (batches : list (Batch C)) :
  forall w : World C,
    exists tr,
      trace (foldl (minibatch_update C) w batches) = trace w ++ tr
      /\ Forall (fun e => update_event e = true) tr
      /\ count is_get_generator tr = 0%nat
      /\ count is_optimizer_step tr = length batches
      /\ env (foldl (minibatch_update C) w batches) = env w
      /\ eval_env (foldl (minibatch_update C) w batches) = eval_env w
      /\ training (foldl (minibatch_update C) w batches) = training w
      /\ storage (foldl (minibatch_update C) w batches) = storage w
      /\ rng (foldl (minibatch_update C) w batches) = rng w.
Proof.
  induction batches as [|b batches IH]; intros w; simpl.
  - exists []. rewrite app_nil_r. repeat split. constructor.
  - destruct (minibatch_update_spec w b)
      as (Htr & _ & _ & He & Hee & Ht & Hs & Hr).
    destruct (IH (minibatch_update C w b))
      as (tr & Htr' & Hall & Hgen & Hopt & He' & Hee' & Ht' & Hs' & Hr').
    match type of Htr with _ = _ ++ ?L => exists (L ++ tr) end.
    rewrite Htr', Htr, <- app_assoc.
    split; [reflexivity|].
    rewrite He', Hee', Ht', Hs', Hr', He, Hee, Ht, Hs, Hr.
    rewrite !count_app, Hgen, Hopt.
    repeat split. apply Forall_app. split; [|exact Hall].
    repeat constructor.
Qed.

(** The update loop: one generator per epoch, each drawn from the
    generator state the epoch before left. *)
Lemma epochs_spec (batch_size : Z) (n : nat) :
  forall w : World C,
    exists tr,
      trace (epochs C n batch_size w) = trace w ++ tr
      /\ Forall (fun e => update_event e = true) tr
      /\ List.filter is_get_generator tr
         = map (EGetGenerator batch_size)
               (generator_states C n batch_size (storage w) (rng w))
      /\ env (epochs C n batch_size w) = env w
      /\ eval_env (epochs C n batch_size w) = eval_env w
      /\ training (epochs C n batch_size w) = training w
      /\ storage (epochs C n batch_size w) = storage w.
Proof.
  induction n as [|n IH]; intros w; simpl.
  - exists []. rewrite app_nil_r. repeat split. constructor.
  - unfold epoch.
    destruct (sto_get_generator C (storage w) batch_size (rng w))
      as [generator g] eqn:Hgen.
    destruct (minibatches_spec generator
                (emit (EGetGenerator batch_size (rng w)) (set_rng C g w)))
      as (tr1 & Htr1 & Hall1 & Hg1 & _ & He1 & Hee1 & Ht1 & Hs1 & Hr1).
    destruct (IH (foldl (minibatch_update C)
                    (emit (EGetGenerator batch_size (rng w)) (set_rng C g w))
                    generator))
      as (tr & Htr & Hall & Hg & He & Hee & Ht & Hs).
    exists (EGetGenerator batch_size (rng w) :: tr1 ++ tr).
    rewrite Htr, Htr1, He, Hee, Ht, Hs, He1, Hee1, Ht1, Hs1. simpl.
    rewrite <- !app_assoc. simpl.
    split; [reflexivity|]. split.
    { constructor; [reflexivity|]. apply Forall_app. split; assumption. }
    split; [|repeat split].
    rewrite List.filter_app, Hg, Hs1, Hr1. simpl.
    unfold count in Hg1. apply length_zero_iff_nil in Hg1. rewrite Hg1.
    reflexivity.
Qed.

End UpdatePhase.

(** ** One iteration of the loop *)

Section Iteration.

Context (C : Collab).

Import Training.

Lemma evaluate_model_inv (which : which_env) (o : Obs C) (num_steps : Z)
    (video : bool) (w : World C) (r : (tensor * Obs C) * World C) :
  evaluate_model C which o num_steps video w = Ok r -> 1 <= num_steps.
Proof.
  unfold evaluate_model.
  destruct (eval_steps_spec C which video (Z.to_nat num_steps) o [] []
              (do_model_eval C w))
    as (o' & rows & fs & w1 & tr & Heq & _ & Hev & _).
  simpl in Heq. rewrite Heq.
  apply evaluated_length in Hev.
  destruct rows as [|row rows]; simpl; [discriminate|].
  intros _. simpl in Hev. lia.
Qed.

(** What the statistics of an iteration do when they return. *)
Lemma update_stats_inv (num_steps update_ite : Z) (get_test_error : bool)
    (v v' : Vars C) (w w' : World C) :
  update_stats C num_steps update_ite get_test_error v w = Ok (v', w') ->
  update_ite <> 0
  /\ obs v' = obs v /\ step v' = step v /\ n_updates v' = n_updates v
  /\ (exists tr, trace w' = trace w ++ tr
                 /\ Forall (fun e => stats_event e = true) tr)
  /\ env w' = env w /\ params w' = params w /\ grads w' = grads w
  /\ opt w' = opt w /\ storage w' = storage w
  /\ (training w = false -> training w' = false)
  /\ (if decide (n_updates v mod update_ite = 0) then
        steps v' = steps v ++ [step v]
        /\ train_rewards v' = train_rewards v ++ [sto_get_reward C (storage w)]
        /\ (if get_test_error
            then 1 <= num_steps
                 /\ exists t, test_rewards v' = test_rewards v ++ [t]
            else test_rewards v' = test_rewards v)
      else v' = v).
Proof.
  unfold update_stats, py_mod.
  destruct (decide (update_ite = 0)) as [|Hui]; [discriminate|]. simpl.
  destruct (decide (n_updates v mod update_ite = 0)) as [Hmod|Hmod].
  - destruct get_test_error.
    + destruct (evaluate_model C EvalEnv (eval_obs v) num_steps false
                  (emit EGetReward w)) as [[[t o'] w1]| |] eqn:Hev;
        simpl; try discriminate.
      intros [= <- <-]. simpl.
      pose proof (evaluate_model_inv _ _ _ _ _ _ Hev) as Hns.
      destruct (eval_model_ok C EvalEnv (eval_obs v) num_steps false
                  (emit EGetReward w) Hns)
        as (rows & o2 & w2 & w2a & tr & fs & He & _ & _ & Htr & Hevd & Hp & Hg
            & Ho & Hs & Ht & Henv & _).
      rewrite Hev in He. injection He as -> -> ->.
      apply evaluated_stats in Hevd. destruct Hevd as [Hall _].
      split; [exact Hui|]. do 3 (split; [reflexivity|]).
      split.
      { exists (EGetReward :: EModelEval :: tr). simpl in Htr.
        rewrite Htr, app_nil_r, <- app_assoc. split; [reflexivity|].
        repeat constructor. exact Hall. }
      rewrite (Henv eq_refl), Hp, Hg, Ho, Hs. simpl.
      repeat split; eauto.
    + intros [= <- <-]. simpl.
      split; [exact Hui|]. do 3 (split; [reflexivity|]).
      split; [exists [EGetReward]; split; [reflexivity | repeat constructor]|].
      repeat split; auto.
  - intros [= <- <-].
    split; [exact Hui|]. do 3 (split; [reflexivity|]).
    split; [exists []; rewrite app_nil_r; split; [reflexivity | constructor]|].
    repeat split; auto.
Qed.

(** The statistics return when [%] has a non-zero right operand and the
    evaluation, when asked for, has a step to take. *)
Lemma update_stats_returns (num_steps update_ite : Z) (get_test_error : bool)
    (v : Vars C) (w : World C) :
  update_ite <> 0 ->
  (get_test_error = true -> 1 <= num_steps) ->
  exists r, update_stats C num_steps update_ite get_test_error v w = Ok r.
Proof.
  intros Hui Hns. unfold update_stats, py_mod.
  destruct (decide (update_ite = 0)); [contradiction|]. simpl.
  destruct (decide _); [|eexists; reflexivity].
  destruct get_test_error; [|eexists; reflexivity].
  destruct (eval_model_ok C EvalEnv (eval_obs v) num_steps false
              (emit EGetReward w) (Hns eq_refl))
    as (rows & o2 & w2 & _ & _ & _ & He & _).
  rewrite He. simpl. eexists; reflexivity.
Qed.

End Iteration.

Section IterationTrace.

Context (C : Collab).

Import Training.

(** What an iteration that returns has done: the calls in their order, the
    bootstrap pair, and the counters. *)
Lemma iteration_inv (num_epochs batch_size num_steps update_ite : Z)
    (get_test_error : bool) (v v' : Vars C) (w w' : World C) :
  iteration C num_epochs batch_size num_steps update_ite get_test_error v w
    = Ok (v', w') ->
  exists tr_c tr_s tr_u a_b lp_b v_b g_b sto_u g_u,
    trace w' = trace w ++ EModelEval :: tr_c ++ tr_s
                 ++ EAct (obs v') a_b v_b :: EStoreLast (obs v') v_b
                 :: EComputeReturnAdvantage :: EModelTrain :: tr_u
    /\ collected (Z.to_nat num_steps) (obs v) tr_c (obs v')
    /\ Forall (fun e => stats_event e = true) tr_s
    /\ Forall (fun e => update_event e = true) tr_u
    /\ fst (model_act C (params w) false (obs v') g_b) = (a_b, lp_b, v_b)
    /\ List.filter is_get_generator tr_u
       = map (EGetGenerator batch_size)
             (generator_states C (Z.to_nat num_epochs) batch_size sto_u g_u)
    /\ step v' = step v + num_envs C * num_steps
    /\ n_updates v' = n_updates v + 1
    /\ update_ite <> 0
    /\ (if decide (n_updates v mod update_ite = 0) then
          steps v' = steps v ++ [step v]
          /\ (exists r, train_rewards v' = train_rewards v ++ [r])
          /\ (if get_test_error
              then 1 <= num_steps
                   /\ exists t, test_rewards v' = test_rewards v ++ [t]
              else test_rewards v' = test_rewards v)
        else steps v' = steps v /\ train_rewards v' = train_rewards v
             /\ test_rewards v' = test_rewards v).
Proof.
  unfold iteration.
  destruct (collect_spec C (Z.to_nat num_steps) (obs v) (do_model_eval C w))
    as (tr_c & Htrc & Hcol & _ & Hpc & Htc & _).
  destruct (collect C (Z.to_nat num_steps) (obs v) (do_model_eval C w))
    as [o1 w1]. simpl in Htrc, Hcol, Hpc, Htc.
  destruct (update_stats C num_steps update_ite get_test_error _ w1)
    as [[v2 w2]| |] eqn:Hst; simpl; try discriminate.
  apply update_stats_inv in Hst. simpl in Hst.
  destruct Hst as (Hui & Hobs & Hstep & Hnu & (tr_s & Htrs & Hall) & _ & Hp2 & _
                   & _ & _ & Ht2 & Hstats).
  unfold do_act.
  destruct (model_act C (params w2) (training w2) (obs v2) (rng w2))
    as [[[a_b lp_b] v_b] g] eqn:Hact. simpl.
  match goal with |- Ok (_, epochs C _ _ ?wu) = _ -> _ =>
    destruct (epochs_spec C batch_size (Z.to_nat num_epochs) wu)
      as (tr_u & Htru & Hallu & Hgen & _)
  end.
  intros [= <- <-]. simpl.
  exists tr_c, tr_s, tr_u, a_b, lp_b, v_b, (rng w2).
  eexists. eexists.
  rewrite Htru. simpl. rewrite Htrs, Htrc. simpl.
  rewrite <- ?app_assoc. simpl. rewrite <- ?app_assoc. simpl.
  rewrite Hobs.
  split; [reflexivity|]. split; [exact Hcol|].
  split; [exact Hall|]. split; [exact Hallu|].
  split.
  { rewrite <- Hpc, <- Hp2, <- Hobs. rewrite (Ht2 Htc) in Hact.
    rewrite Hact. reflexivity. }
  split; [exact Hgen|].
  rewrite Hstep, Hnu. simpl.
  do 3 (split; [first [reflexivity | assumption]|]).
  destruct (decide _).
  - destruct Hstats as (Hs1 & Hs2 & Hs3). simpl in *.
    split; [exact Hs1|]. split; [eexists; exact Hs2 | exact Hs3].
  - subst v2. simpl. repeat split.
Qed.

Lemma iteration_returns (num_epochs batch_size num_steps update_ite : Z)
    (get_test_error : bool) (v : Vars C) (w : World C) :
  update_ite <> 0 ->
  (get_test_error = true -> 1 <= num_steps) ->
  exists r,
    iteration C num_epochs batch_size num_steps update_ite get_test_error v w
      = Ok r.
Proof.
  intros Hui Hns. unfold iteration.
  destruct (collect C (Z.to_nat num_steps) (obs v) (do_model_eval C w))
    as [o1 w1].
  match goal with |- context [update_stats C _ _ _ ?v1 w1] =>
    destruct (update_stats_returns C num_steps update_ite get_test_error
                v1 w1 Hui Hns) as [[v2 w2] Hst]
  end.
  rewrite Hst. simpl.
  destruct (do_act C (obs v2) w2) as [[[a lp] vb] w3].
  eexists; reflexivity.
Qed.

End IterationTrace.

Section IterationCounts.

Context (C : Collab).

Import Training.

Lemma stats_event_disjoint (e : event C) :
  stats_event e = true ->
  is_store e = false /\ is_store_last e = false /\ is_train_step e = false
  /\ is_get_generator e = false /\ is_optimizer_step e = false.
Proof. destruct e as [| | | | | | | [] | | | | | | | | | | | | |]; simpl; intros H;
  repeat split; congruence. Qed.

Lemma update_event_disjoint (e : event C) :
  update_event e = true ->
  is_store e = false /\ is_store_last e = false /\ is_train_step e = false
  /\ is_env_step e = false.
Proof. destruct e as [| | | | | | | [] | | | | | | | | | | | | |]; simpl; intros H;
  repeat split; congruence. Qed.

(** The calls of one iteration, counted. *)
Lemma iteration_counts (num_epochs batch_size num_steps update_ite : Z)
    (get_test_error : bool) (v v' : Vars C) (w w' : World C) :
  iteration C num_epochs batch_size num_steps update_ite get_test_error v w
    = Ok (v', w') ->
  count is_store (trace w') = (count is_store (trace w) + Z.to_nat num_steps)%nat
  /\ count is_train_step (trace w')
     = (count is_train_step (trace w) + Z.to_nat num_steps)%nat
  /\ count is_store_last (trace w') = (count is_store_last (trace w) + 1)%nat
  /\ count is_get_generator (trace w')
     = (count is_get_generator (trace w) + Z.to_nat num_epochs)%nat.
Proof.
  intros H. apply iteration_inv in H.
  destruct H as (tr_c & tr_s & tr_u & a_b & lp_b & v_b & g_b & sto_u & g_u
                 & Htr & Hcol & Hs & Hu & _ & Hgen & _).
  apply collected_counts in Hcol. destruct Hcol as (Hc1 & Hc2 & Hc3 & Hc4).
  assert (Hgu : count is_get_generator tr_u = Z.to_nat num_epochs).
  { unfold count. rewrite Hgen, length_map.
    clear. generalize (Z.to_nat num_epochs) as n. intros n.
    revert g_u. induction n as [|n IH]; intros g; simpl; [reflexivity|].
    rewrite IH. reflexivity. }
  rewrite Htr.
  change (EModelEval :: tr_c ++ ?x) with ([@EModelEval C] ++ tr_c ++ x).
  change (EAct ?o ?a ?b :: EStoreLast ?o' ?b' :: EComputeReturnAdvantage
            :: EModelTrain :: tr_u)
    with ([EAct o a b; EStoreLast o' b'; @EComputeReturnAdvantage C;
           @EModelTrain C] ++ tr_u).
  rewrite !count_app, Hc1, Hc2, Hc3, Hc4, Hgu.
  rewrite !(count_disjoint C _ stats_event tr_s), !(count_disjoint C _ update_event tr_u);
    try assumption;
    try (intros e He; apply stats_event_disjoint in He; tauto);
    try (intros e He; apply update_event_disjoint in He; tauto).
  unfold count; simpl. repeat split; lia.
Qed.

End IterationCounts.

(** ** The loop *)

Section TrainLoop.

Context (C : Collab).

Import Training.

Variables (num_epochs batch_size num_steps total_steps update_ite : Z).
Variable (get_test_error : bool).

Let d : Z := num_envs C * num_steps.

(** With a positive increment the loop returns, after the iterations that
    started below [total_steps] and no other. *)
Lemma train_loop_run :
  1 <= num_envs C * num_steps ->
  (get_test_error = true -> 1 <= num_steps) ->
  forall (fuel : nat) (v : Vars C) (w : World C),
    (step v < total_steps -> update_ite <> 0) ->
    (Z.to_nat (total_steps - step v) <= fuel)%nat ->
    exists (v' : Vars C) (w' : World C) (k : nat),
      train_loop C fuel num_epochs batch_size num_steps total_steps update_ite
                 get_test_error v w = Ok (v', w')
      /\ step v' = step v + Z.of_nat k * d
      /\ n_updates v' = n_updates v + Z.of_nat k
      /\ total_steps <= step v'
      /\ (k = 0%nat \/ step v' - d < total_steps)
      /\ (step v < total_steps -> (1 <= k)%nat)
      /\ (length (steps v) <= length (steps v'))%nat
      /\ (length (train_rewards v) <= length (train_rewards v'))%nat
      /\ (length (test_rewards v) <= length (test_rewards v'))%nat
      /\ (step v < total_steps -> n_updates v mod update_ite = 0 ->
          (length (steps v) < length (steps v'))%nat
          /\ (length (train_rewards v) < length (train_rewards v'))%nat
          /\ (get_test_error = true ->
              (length (test_rewards v) < length (test_rewards v'))%nat))
      /\ count is_store (trace w')
         = (count is_store (trace w) + k * Z.to_nat num_steps)%nat
      /\ count is_train_step (trace w')
         = (count is_train_step (trace w) + k * Z.to_nat num_steps)%nat
      /\ count is_store_last (trace w') = (count is_store_last (trace w) + k)%nat.
Proof.
  intros Hd Hns. induction fuel as [|fuel IH]; intros v w Hui Hfuel; simpl.
  - destruct (decide (step v < total_steps)) as [Hlt|Hge]; [lia|].
    exists v, w, 0%nat. repeat split; lia.
  - destruct (decide (step v < total_steps)) as [Hlt|Hge].
    2:{ exists v, w, 0%nat. repeat split; lia. }
    specialize (Hui Hlt).
    destruct (iteration_returns C num_epochs batch_size num_steps update_ite
                get_test_error v w Hui Hns) as [[v1 w1] Hit].
    rewrite Hit. simpl.
    pose proof (iteration_counts C _ _ _ _ _ _ _ _ _ Hit) as (Hc1 & Hc2 & Hc3 & _).
    apply iteration_inv in Hit.
    destruct Hit as (_ & _ & _ & _ & _ & _ & _ & _ & _ & _ & _ & _ & _ & _ & _
                     & Hstep & Hnu & _ & Hstats).
    destruct (IH v1 w1 (fun _ => Hui) ltac:(fold d in Hstep; lia))
      as (v' & w' & k & Hrun & Hs' & Hn' & Hexit & Hlast & _ & Hl1 & Hl2 & Hl3
          & _ & Hk1 & Hk2 & Hk3).
    exists v', w', (S k). fold d in Hstep.
    assert (Hmono : (length (steps v) <= length (steps v1))%nat
                    /\ (length (train_rewards v) <= length (train_rewards v1))%nat
                    /\ (length (test_rewards v) <= length (test_rewards v1))%nat
                    /\ (n_updates v mod update_ite = 0 ->
                        (length (steps v) < length (steps v1))%nat
                        /\ (length (train_rewards v) < length (train_rewards v1))%nat
                        /\ (get_test_error = true ->
                            (length (test_rewards v) < length (test_rewards v1))%nat))).
    { destruct (decide (n_updates v mod update_ite = 0)) as [Hm|Hm].
      - destruct Hstats as (H1 & (r & H2) & H3). rewrite H1, H2, !length_app.
        simpl. destruct get_test_error.
        + destruct H3 as (_ & t & H3). rewrite H3, length_app. simpl.
          repeat split; lia.
        + rewrite H3. repeat split; lia || discriminate.
      - destruct Hstats as (H1 & H2 & H3). rewrite H1, H2, H3.
        repeat split; lia || contradiction. }
    destruct Hmono as (Hm1 & Hm2 & Hm3 & Hm4).
    split; [exact Hrun|].
    split; [lia|]. split; [lia|]. split; [exact Hexit|].
    split; [right; destruct Hlast as [->|Hlast]; [simpl in Hs'|]; lia|].
    split; [lia|]. split; [lia|]. split; [lia|]. split; [lia|].
    split.
    { intros _ Hm. destruct (Hm4 Hm) as (Ha & Hb & Hc).
      repeat split; try lia. intros Hg. specialize (Hc Hg). lia. }
    rewrite Hk1, Hk2, Hk3, Hc1, Hc2, Hc3. repeat split; lia.
Qed.

End TrainLoop.

(** ** Gradient clipping on real gradients *)

Section Clip.

Local Open Scope R_scope.

Lemma sum_squares_nonneg (g : list R) :
  0 <= foldr Rplus 0 (map (fun x => x * x) g).
Proof.
  induction g as [|x g IH]; simpl; [lra|].
  pose proof (Rle_0_sqr x) as Hx. unfold Rsqr in Hx. lra.
Qed.

Lemma sum_squares_scale (c : R) (g : list R) :
  foldr Rplus 0 (map (fun x => x * x) (map (fun x => x * c) g))
  = (c * c) * foldr Rplus 0 (map (fun x => x * x) g).
Proof.
  induction g as [|x g IH]; simpl; [lra|]. rewrite IH. ring.
Qed.

Lemma norm2_nonneg (g : list R) : 0 <= Demo.norm2 g.
Proof. apply sqrt_pos. Qed.

Lemma norm2_scale (c : R) (g : list R) :
  0 <= c -> Demo.norm2 (map (fun x => x * c) g) = c * Demo.norm2 g.
Proof.
  intros Hc. unfold Demo.norm2. rewrite sum_squares_scale.
  rewrite sqrt_mult_alt by nra. rewrite sqrt_square by exact Hc.
  reflexivity.
Qed.

(** After the clip the global norm is at most the threshold. *)
Lemma clip_norm_bound (g : list R) (max_norm : R) :
  0 <= max_norm -> Demo.norm2 (Demo.clip g max_norm) <= max_norm.
Proof.
  intros Hm. unfold Demo.clip.
  pose proof (norm2_nonneg g) as Hn.
  set (tn := Demo.norm2 g) in *.
  assert (Hpos : 0 < tn + / 1000000) by lra.
  assert (Hc0 : 0 <= max_norm / (tn + / 1000000)).
  { apply Rmult_le_pos; [exact Hm|]. apply Rlt_le, Rinv_0_lt_compat, Hpos. }
  assert (Hmin0 : 0 <= Rmin (max_norm / (tn + / 1000000)) 1).
  { apply Rmin_glb; lra. }
  rewrite norm2_scale by exact Hmin0. fold tn.
  apply Rle_trans with ((max_norm / (tn + / 1000000)) * tn).
  - apply Rmult_le_compat_r; [exact Hn | apply Rmin_l].
  - unfold Rdiv. rewrite Rmult_assoc.
    rewrite <- (Rmult_1_r max_norm) at 2.
    apply Rmult_le_compat_l; [exact Hm|].
    apply Rmult_le_reg_l with (tn + / 1000000); [exact Hpos|].
    rewrite <- Rmult_assoc, Rinv_r by lra. lra.
Qed.

Lemma zero_grad_norm (g : list R) :
  Demo.norm2 (map (fun _ => 0) g) = 0.
Proof.
  unfold Demo.norm2.
  replace (foldr Rplus 0 (map (fun x => x * x) (map (fun _ => 0) g))) with 0.
  - apply sqrt_0.
  - induction g as [|x g IH]; simpl; [reflexivity|]. rewrite <- IH. ring.
Qed.

End Clip.

(** ** Claims on the minibatch generator *)

Section GeneratorClaim.

Import Training.


End GeneratorClaim.


(** ** Claims on [train_model] and [evaluate_model] *)

Section LoopClaims.

Import Training.


(** C7.  For every minibatch of the update loop the calls are, in order,
    the forward pass, the loss, [loss.backward()], the clip, one optimizer
    step and the reset of the gradients.  The clip is given all gradients
    of the model and the threshold [model.grad_eps]; with a clip that
    brings the global norm down to its threshold, the optimizer step sees
    gradients of global norm at most [model.grad_eps], and the next
    minibatch starts from gradients reset to zero. *)
Theorem clip_then_single_step
    (C : Collab) (w : World C) (batch : Batch C) :
  (forall g eps, (0 <= eps)%R ->
     (grad_norm C (clip_grad_norm_ C g eps) <= eps)%R) ->
  (forall g, grad_norm C (zero_grad C g) = 0%R) ->
  (0 <= model_grad_eps C (params w))%R ->
  let pv := model_forward C (params w) (training w) (batch_obs C batch) in
  let loss := model_criterion C (params w) batch (fst pv) (snd pv) in
  let g_back := backward C loss (grads w) in
  let eps := model_grad_eps C (params w) in
  let g_clip := clip_grad_norm_ C g_back eps in
  let calls := [EForward; ECriterion; EBackward; EClipGradNorm g_back eps;
                EOptimizerStep g_clip; EZeroGrad] in
  let w' := minibatch_update C w batch in
  trace w' = trace w ++ calls
  /\ count is_optimizer_step calls = 1%nat
  /\ (grad_norm C g_clip <= model_grad_eps C (params w))%R
  /\ (opt w', params w') = optimizer_step C (opt w) (params w) g_clip
  /\ grads w' = zero_grad C g_clip
  /\ grad_norm C (grads w') = 0%R
  /\ forall batches,
       foldl (minibatch_update C) w (batch :: batches)
       = foldl (minibatch_update C) w' batches.
Proof.
  intros Hclip Hzero Heps pv loss g_back eps g_clip calls w'.
  destruct (minibatch_update_spec C w batch) as (Htr & Hstep & Hg & _).
  fold w' in Htr, Hstep, Hg.
  split; [exact Htr|]. split; [reflexivity|].
  split; [apply Hclip; exact Heps|].
  split; [exact Hstep|]. split; [exact Hg|].
  split; [rewrite Hg; apply Hzero | reflexivity].
Qed.

(** C6, as the code has it.  For every call with at least one step,
    [evaluate_model] returns the pair of the rewards of its [num_steps]
    steps summed per environment instance and the observation returned by
    the last step; a second call on the returned observation continues the
    first, the two being one evaluation of the added length; the weights of
    the policy model, their gradients and the optimizer state are as
    before the call. *)
Theorem evaluate_model_returns_total_and_last_obs
    (C : Collab) (which : which_env) (o : Obs C) (num_steps : Z)
    (video : bool) (w : World C) :
  1 <= num_steps ->
  exists rows tr fs o' w',
    evaluate_model C which o num_steps video w = Ok ((sum0 rows, o'), w')
    /\ trace w' = trace w ++ EModelEval :: tr
                    ++ (if video then [ESaveVideo fs] else [])
    /\ evaluated which video (Z.to_nat num_steps) o tr rows o'
    /\ length rows = Z.to_nat num_steps
    /\ (forall e, (e < length (sum0 rows))%nat ->
          nth e (sum0 rows) 0%Qc = col_sum rows e)
    /\ params w' = params w /\ grads w' = grads w /\ opt w' = opt w
    /\ training w' = false
    /\ forall n2, 1 <= n2 ->
         exists t2 o2 w2 t12 w12,
           evaluate_model C which o' n2 video w' = Ok ((t2, o2), w2)
           /\ evaluate_model C which o (num_steps + n2) video w
              = Ok ((t12, o2), w12)
           /\ same_state w2 w12
           /\ forall e, (e < length (sum0 rows))%nat -> (e < length t2)%nat ->
                nth e t12 0%Qc = (nth e (sum0 rows) 0 + nth e t2 0)%Qc.
Proof.
  intros Hn.
  destruct (eval_model_ok C which o num_steps video w Hn)
    as (rows & o' & w' & w1 & tr & fs & He & _ & _ & Htr & Hev & Hp & Hg & Ho & _
        & Hmode & _).
  exists rows, tr, fs, o', w'.
  split; [exact He|]. split; [exact Htr|]. split; [exact Hev|].
  split; [exact (evaluated_length C _ _ _ _ _ _ _ Hev)|].
  split.
  { intros e Hlt. rewrite length_sum0 in Hlt. apply nth_sum0. exact Hlt. }
  do 4 (split; [assumption|]).
  intros n2 Hn2.
  destruct (evaluate_model_resume C which o num_steps n2 video w Hn Hn2)
    as (t1 & o1 & w1' & t2 & o2 & w2 & t12 & w12 & H1 & H2 & H12 & Hs & Hadd).
  rewrite He in H1. injection H1 as <- <- <-.
  exists t2, o2, w2, t12, w12. repeat split; try assumption; apply Hs.
Qed.

End LoopClaims.

Section Setup.

Context (C : Collab).

Import Training.

Lemma train_setup_spec (device : Device C) (adam_lr adam_eps : Qc)
    (num_steps total_steps : Z) (w : World C) :
  num_envs C * num_steps <> 0 ->
  exists o eo w0,
    train_setup C device adam_lr adam_eps num_steps total_steps w
    = Ok (total_steps / (num_envs C * num_steps * 100) + 1,
          mkVars [] [] [] o eo 0 0, w0).
Proof.
  intros Hd. unfold train_setup, do_reset. simpl.
  destruct (env_reset C _) as [s o]. simpl.
  destruct (env_reset C _) as [s' eo]. simpl.
  unfold update_ite_of, py_floordiv.
  destruct (decide _) as [Hz|_]; [lia|]. simpl.
  eexists _, _, _. reflexivity.
Qed.

Lemma update_ite_positive (num_steps total_steps : Z) :
  1 <= num_envs C -> 1 <= num_steps -> 0 <= total_steps ->
  update_ite_of C total_steps num_steps
    = Ok (total_steps / (num_envs C * num_steps * 100) + 1)
  /\ 1 <= total_steps / (num_envs C * num_steps * 100) + 1.
Proof.
  intros HE HT Htot. unfold update_ite_of, py_floordiv.
  destruct (decide _) as [Hz|_]; [nia|]. simpl. split; [reflexivity|].
  assert (0 <= total_steps / (num_envs C * num_steps * 100))
    by (apply Z.div_pos; nia).
  lia.
Qed.

End Setup.

Section BudgetClaims.

Import Training.

(** C5.  For every [env.num_envs >= 1], [num_steps >= 1] and
    [total_steps], the training loop of [train_model] terminates; it leaves
    when the step counter has reached or passed [total_steps] and not
    before: the counter starts at 0, every iteration adds
    [env.num_envs * num_steps] to it, and every iteration was entered with
    the counter below [total_steps]. *)
Theorem train_loop_terminates
    (C : Collab) (device : Device C) (num_epochs batch_size : Z)
    (adam_lr adam_eps : Qc) (num_steps total_steps : Z)
    (get_test_error : bool) (w : World C) :
  1 <= num_envs C -> 1 <= num_steps ->
  exists ui v0 w0,
    train_setup C device adam_lr adam_eps num_steps total_steps w
      = Ok (ui, v0, w0)
    /\ step v0 = 0
    /\ (forall fuel, (Z.to_nat total_steps <= fuel)%nat ->
          exists v' w' (k : nat),
            train_loop C fuel num_epochs batch_size num_steps total_steps ui
                       get_test_error v0 w0 = Ok (v', w')
            /\ step v' = Z.of_nat k * (num_envs C * num_steps)
            /\ n_updates v' = Z.of_nat k
            /\ total_steps <= step v'
            /\ forall j, 0 <= j < Z.of_nat k ->
                 j * (num_envs C * num_steps) < total_steps)
    /\ (forall v1 w1 v2 w2,
          iteration C num_epochs batch_size num_steps ui get_test_error v1 w1
            = Ok (v2, w2) ->
          step v2 = step v1 + num_envs C * num_steps).
Proof.
  intros HE HT.
  assert (Hd : 1 <= num_envs C * num_steps) by nia.
  destruct (train_setup_spec C device adam_lr adam_eps num_steps total_steps w
              ltac:(lia)) as (o & eo & w0 & Hset).
  eexists _, _, w0. split; [exact Hset|]. split; [reflexivity|]. split.
  - intros fuel Hfuel.
    destruct (train_loop_run C num_epochs batch_size num_steps total_steps
                (total_steps / (num_envs C * num_steps * 100) + 1)
                get_test_error Hd (fun _ => HT) fuel
                (mkVars [] [] [] o eo 0 0) w0)
      as (v' & w' & k & Hrun & Hstep & Hnu & Hexit & Hlast & _).
    { simpl. intros Hpos.
      destruct (update_ite_positive C num_steps total_steps HE HT ltac:(lia)).
      lia. }
    { simpl. rewrite Z.sub_0_r. exact Hfuel. }
    simpl in Hstep, Hnu.
    exists v', w', k. split; [exact Hrun|].
    split; [lia|]. split; [lia|]. split; [exact Hexit|].
    intros j Hj. destruct Hlast as [->|Hlast]; [lia|]. nia.
  - intros v1 w1 v2 w2 Hit. apply iteration_inv in Hit.
    destruct Hit as (_ & _ & _ & _ & _ & _ & _ & _ & _ & _ & _ & _ & _ & _ & _
                     & Hstep & _).
    exact Hstep.
Qed.

(** C9.  For every [env.num_envs >= 1], [num_steps >= 1] and
    [total_steps >= 1], the step counter at the exit of the loop is the
    smallest multiple of [env.num_envs * num_steps] that is at least
    [total_steps]; it is the number of environment transitions collected
    ([env.num_envs] per call of [env.step]), and it exceeds [total_steps]
    by at most [env.num_envs * num_steps - 1], which it does when
    [total_steps] is 1. *)
Theorem final_step_least_multiple
    (C : Collab) (device : Device C) (num_epochs batch_size : Z)
    (adam_lr adam_eps : Qc) (num_steps total_steps : Z)
    (get_test_error : bool) (w : World C) :
  1 <= num_envs C -> 1 <= num_steps -> 1 <= total_steps ->
  exists ui v0 w0,
    train_setup C device adam_lr adam_eps num_steps total_steps w
      = Ok (ui, v0, w0)
    /\ forall fuel, (Z.to_nat total_steps <= fuel)%nat ->
         exists v' w' (k : nat),
           train_loop C fuel num_epochs batch_size num_steps total_steps ui
                      get_test_error v0 w0 = Ok (v', w')
           /\ step v' = Z.of_nat k * (num_envs C * num_steps)
           /\ total_steps <= step v'
           /\ (forall m : Z, total_steps <= m * (num_envs C * num_steps) ->
                 step v' <= m * (num_envs C * num_steps))
           /\ step v' - total_steps <= num_envs C * num_steps - 1
           /\ (total_steps = 1 ->
               step v' - total_steps = num_envs C * num_steps - 1)
           /\ num_envs C * (Z.of_nat (count is_train_step (trace w'))
                            - Z.of_nat (count is_train_step (trace w0)))
              = step v'.
Proof.
  intros HE HT Htot.
  assert (Hd : 1 <= num_envs C * num_steps) by nia.
  destruct (train_setup_spec C device adam_lr adam_eps num_steps total_steps w
              ltac:(lia)) as (o & eo & w0 & Hset).
  eexists _, _, w0. split; [exact Hset|].
  intros fuel Hfuel.
  destruct (train_loop_run C num_epochs batch_size num_steps total_steps
              (total_steps / (num_envs C * num_steps * 100) + 1)
              get_test_error Hd (fun _ => HT) fuel
              (mkVars [] [] [] o eo 0 0) w0)
    as (v' & w' & k & Hrun & Hstep & Hnu & Hexit & Hlast & Hk & _ & _ & _ & _
        & _ & Hcnt & _).
  { simpl. intros _.
    destruct (update_ite_positive C num_steps total_steps HE HT ltac:(lia)).
    lia. }
  { simpl. rewrite Z.sub_0_r. exact Hfuel. }
  simpl in Hstep, Hnu, Hk. specialize (Hk ltac:(lia)).
  destruct Hlast as [->|Hlast]; [lia|].
  exists v', w', k. split; [exact Hrun|].
  split; [lia|]. split; [exact Hexit|].
  split.
  { intros m Hm. rewrite Hstep, Z.add_0_l.
    apply Z.mul_le_mono_nonneg_r; [lia|].
    assert (Z.of_nat k - 1 < m); [|lia].
    apply (Z.mul_lt_mono_pos_r (num_envs C * num_steps)); [lia|]. lia. }
  split; [lia|].
  split.
  { intros ->. assert (Z.of_nat k = 1); [|lia]. nia. }
  rewrite Hcnt, Hstep. rewrite Nat2Z.inj_add, Nat2Z.inj_mul, Z2Nat.id by lia.
  ring.
Qed.

End BudgetClaims.

Section StatsClaim.

Import Training.

(** C10, as the code has it.  For every [total_steps >= 0] (and
    [env.num_envs], [num_steps >= 1]),
    [update_ite = total_steps // (env.num_envs * num_steps * 100) + 1] is at
    least 1, and [0 % update_ite] is 0, so the first iteration, entered
    with [n_updates = 0], records its statistics; hence whenever
    [total_steps >= 1] the lists [steps] and [train_rewards] (and
    [test_rewards] when it is stacked) are not empty when the loop is left,
    [torch.stack] is not given an empty list, and [train_model] returns. *)
Theorem first_iteration_records_stats
    (C : Collab) (device : Device C) (num_epochs batch_size : Z)
    (adam_lr adam_eps : Qc) (num_steps total_steps : Z)
    (get_test_error : bool) (w : World C) :
  1 <= num_envs C -> 1 <= num_steps -> 0 <= total_steps ->
  exists ui,
    update_ite_of C total_steps num_steps = Ok ui
    /\ 1 <= ui
    /\ py_mod 0 ui = Ok 0
    /\ (forall v1 w1 v2 w2,
          n_updates v1 = 0 ->
          iteration C num_epochs batch_size num_steps ui get_test_error v1 w1
            = Ok (v2, w2) ->
          steps v2 = steps v1 ++ [step v1]
          /\ exists r, train_rewards v2 = train_rewards v1 ++ [r])
    /\ (1 <= total_steps ->
        forall fuel, (Z.to_nat total_steps <= fuel)%nat ->
          exists sts tr te w',
            train_model C fuel device num_epochs batch_size adam_lr adam_eps
                        num_steps total_steps get_test_error w
              = Ok ((sts, (tr, te)), w')
            /\ sts <> [] /\ tr <> []
            /\ (if get_test_error then exists l, te = Some l /\ l <> []
                else te = None)).
Proof.
  intros HE HT Htot.
  destruct (update_ite_positive C num_steps total_steps HE HT Htot) as [Hui Hpos].
  eexists. split; [exact Hui|]. split; [exact Hpos|].
  split.
  { unfold py_mod. destruct (decide _); [lia | reflexivity]. }
  split.
  { intros v1 w1 v2 w2 Hn Hit. apply iteration_inv in Hit.
    destruct Hit as (_ & _ & _ & _ & _ & _ & _ & _ & _ & _ & _ & _ & _ & _ & _
                     & _ & _ & _ & Hstats).
    rewrite Hn, Z.mod_0_l in Hstats by lia.
    destruct (decide (0 = 0)); [|contradiction]. tauto. }
  intros Htot1 fuel Hfuel.
  assert (Hd : 1 <= num_envs C * num_steps) by nia.
  destruct (train_setup_spec C device adam_lr adam_eps num_steps total_steps w
              ltac:(lia)) as (o & eo & w0 & Hset).
  destruct (train_loop_run C num_epochs batch_size num_steps total_steps
              (total_steps / (num_envs C * num_steps * 100) + 1)
              get_test_error Hd (fun _ => HT) fuel
              (mkVars [] [] [] o eo 0 0) w0)
    as (v' & w' & k & Hrun & _ & _ & _ & _ & _ & _ & _ & _ & Hlen & _).
  { simpl. lia. }
  { simpl. rewrite Z.sub_0_r. exact Hfuel. }
  simpl in Hlen. destruct Hlen as (Hl1 & Hl2 & Hl3); [lia | apply Z.mod_0_l; lia|].
  unfold train_model. rewrite Hset. simpl. rewrite Hrun. simpl.
  destruct (steps v') as [|s sts] eqn:Hs; [simpl in Hl1; lia|].
  destruct (train_rewards v') as [|r rs] eqn:Hr; [simpl in Hl2; lia|].
  destruct get_test_error.
  - specialize (Hl3 eq_refl).
    destruct (test_rewards v') as [|t ts] eqn:Ht; [simpl in Hl3; lia|].
    simpl. eexists _, _, _, _. split; [reflexivity|].
    split; [discriminate|]. split; [discriminate|].
    eexists. split; [reflexivity | discriminate].
  - simpl. eexists _, _, _, _. split; [reflexivity|].
    split; [discriminate|]. split; [discriminate | reflexivity].
Qed.

End StatsClaim.

(** ** The claims on the dummy collaborators *)

Section Witnesses.

Import Training.

(** C10 as stated: with [total_steps = -100], two environment instances
    and one step, [update_ite] is 0. *)
Lemma update_ite_not_always_positive :
  exists ui, update_ite_of Demo.collab (-100) 1 = Ok ui /\ ~ 1 <= ui.
Proof. exists 0. split; [reflexivity | lia]. Qed.

(** C6 as stated: a call with no step to take raises instead of returning
    a pair. *)
Lemma evaluate_model_no_step_raises :
  evaluate_model Demo.collab EvalEnv (0 : Obs Demo.collab) 0 false Demo.world0
  = Raise StackEmpty.
Proof. reflexivity. Qed.

(** The scenario of the design document: two environment instances, reward
    1 at every step, [num_steps = 4], [total_steps = 8].  One rollout is
    collected, its statistics are recorded at step 0, and the reward of the
    window is [num_steps]. *)
Lemma demo_run_statistics :
  match train_model Demo.collab 1 tt 1 4 0%Qc 0%Qc 4 8 false Demo.world0 with
  | Ok ((sts, (tr, _)), w') => Some (sts, map this tr, count is_store (trace w'))
  | _ => None
  end = Some ([0], [4 # 1]%Q, 4%nat).
Proof. vm_compute. reflexivity. Qed.


(** One minibatch on the dummy collaborators, whose clip is the formula of
    [clip_grad_norm_] on real gradients. *)
Lemma clip_then_single_step_witness :
  grad_norm Demo.collab
    (grads (minibatch_update Demo.collab Demo.world0 [0%nat])) = 0%R.
Proof.
  apply (clip_then_single_step Demo.collab Demo.world0 [0%nat]
           clip_norm_bound zero_grad_norm).
  simpl. lra.
Defined.

(** Two evaluation steps on the dummy collaborators. *)
Lemma evaluate_model_returns_total_and_last_obs_witness :
  exists t o' w',
    evaluate_model Demo.collab EvalEnv (0 : Obs Demo.collab) 2 false Demo.world0
    = Ok ((t, o'), w')
    /\ params w' = params Demo.world0.
Proof.
  destruct (evaluate_model_returns_total_and_last_obs Demo.collab EvalEnv
              (0 : Obs Demo.collab) 2 false Demo.world0 ltac:(lia))
    as (rows & tr & fs & o' & w' & He & _ & _ & _ & _ & Hp & _).
  exists (sum0 rows), o', w'. split; [exact He | exact Hp].
Defined.

(** A budget of 5 steps with 2 environment instances and 2 steps per
    rollout: the loop returns with the counter past the budget. *)
Lemma train_loop_terminates_witness :
  exists ui v0 w0,
    train_setup Demo.collab tt 0%Qc 0%Qc 2 5 Demo.world0 = Ok (ui, v0, w0)
    /\ exists v' w',
         train_loop Demo.collab 5 1 2 2 5 ui false v0 w0 = Ok (v', w')
         /\ 5 <= step v'.
Proof.
  destruct (train_loop_terminates Demo.collab tt 1 2 0%Qc 0%Qc 2 5 false
              Demo.world0 ltac:(simpl; lia) ltac:(lia))
    as (ui & v0 & w0 & Hset & _ & Hrun & _).
  exists ui, v0, w0. split; [exact Hset|].
  destruct (Hrun 5%nat ltac:(lia)) as (v' & w' & k & Hl & _ & _ & Hexit & _).
  exists v', w'. split; [exact Hl | exact Hexit].
Defined.

(** The same run: the counter ends at 8, within 3 of the budget. *)
Lemma final_step_least_multiple_witness :
  exists ui v0 w0,
    train_setup Demo.collab tt 0%Qc 0%Qc 2 5 Demo.world0 = Ok (ui, v0, w0)
    /\ exists v' w',
         train_loop Demo.collab 5 1 2 2 5 ui false v0 w0 = Ok (v', w')
         /\ step v' - 5 <= 2 * 2 - 1.
Proof.
  destruct (final_step_least_multiple Demo.collab tt 1 2 0%Qc 0%Qc 2 5 false
              Demo.world0 ltac:(simpl; lia) ltac:(lia) ltac:(lia))
    as (ui & v0 & w0 & Hset & Hrun).
  exists ui, v0, w0. split; [exact Hset|].
  destruct (Hrun 5%nat ltac:(lia))
    as (v' & w' & k & Hl & _ & _ & _ & Hex & _).
  exists v', w'. split; [exact Hl | exact Hex].
Defined.

(** The same run with test rewards: [train_model] returns non-empty
    statistics. *)
Lemma first_iteration_records_stats_witness :
  exists sts tr te w',
    train_model Demo.collab 5 tt 1 2 0%Qc 0%Qc 2 5 true Demo.world0
    = Ok ((sts, (tr, te)), w')
    /\ sts <> [] /\ tr <> [].
Proof.
  destruct (first_iteration_records_stats Demo.collab tt 1 2 0%Qc 0%Qc 2 5 true
              Demo.world0 ltac:(simpl; lia) ltac:(lia) ltac:(lia))
    as (ui & _ & _ & _ & _ & Hrun).
  destruct (Hrun ltac:(lia) 5%nat ltac:(lia))
    as (sts & tr & te & w' & Hm & Hs & Ht & _).
  exists sts, tr, te, w'. split; [exact Hm|]. split; assumption.
Defined.

End Witnesses.

(** * Further properties of [evaluate_model] and [train_model] *)

(** ** [evaluate_model]: steps, frames and what it leaves alone *)

Section EvaluateMore.

Context (C : Collab).

Import Training.

(** The frames of the evaluation loop: one per pass with [video], none
    without. *)
Lemma eval_steps_frames (which : which_env) (video : bool) (n : nat) :
  forall (o : Obs C) (tot : list tensor) (frames : list (Frame C)) (w : World C),
    length (eval_steps C n which video o tot frames w).1.2
    = (length frames + (if video then n else 0))%nat.
Proof.
  induction n as [|n IH]; intros o tot frames w; simpl.
  - destruct video; lia.
  - destruct (do_act C o w) as [[[a lp] v] w0].
    destruct (do_step C which a w0) as [[[[o1 r] d] i] w1].
    destruct video.
    + destruct (do_render C which w1) as [f w2].
      rewrite IH, length_app. simpl. lia.
    + rewrite IH. lia.
Qed.

(** The calls of the evaluation loop, counted. *)
Lemma evaluated_counts (which : which_env) (video : bool) (n : nat)
    (o o' : Obs C) (tr : list (event C)) (rows : list tensor) :
  evaluated which video n o tr rows o' ->
  count is_act tr = n
  /\ count is_env_step tr = n
  /\ count is_render tr = (if video then n else 0)%nat
  /\ count is_save_video tr = 0%nat
  /\ count is_training_call tr = 0%nat
  /\ count is_env_reset tr = 0%nat
  /\ count is_eval_step tr
     = (match which with EvalEnv => n | TrainEnv => 0 end)%nat
  /\ count is_train_step tr
     = (match which with TrainEnv => n | EvalEnv => 0 end)%nat.
Proof.
  induction 1 as [|n o o1 o' a v r tr rows _ IH].
  - destruct video, which; repeat split.
  - destruct IH as (I1 & I2 & I3 & I4 & I5 & I6 & I7 & I8).
    rewrite !count_cons, !count_app, I1, I2, I3, I4, I5, I6, I7, I8.
    destruct video, which; simpl; repeat split; lia.
Qed.

End EvaluateMore.

Section EvaluateExtras.

Import Training.


(** X2.  A call of [evaluate_model] that returns has asked the policy and
    stepped the environment [num_steps] times each.  With [video] it has
    rendered once per step and has called [save_video] once, as its last
    call, with [num_steps] frames; without [video] it has neither rendered
    nor saved. *)
Theorem evaluate_model_video_frames
    (C : Collab) (which : which_env) (o : Obs C) (num_steps : Z)
    (video : bool) (w w' : World C) (r : tensor * Obs C) :
  evaluate_model C which o num_steps video w = Ok (r, w') ->
  exists tr frames,
    trace w' = trace w ++ EModelEval :: tr
                 ++ (if video then [ESaveVideo frames] else [])
    /\ Z.of_nat (count is_act tr) = num_steps
    /\ Z.of_nat (count is_env_step tr) = num_steps
    /\ Z.of_nat (count is_render tr) = (if video then num_steps else 0)
    /\ count is_save_video tr = 0%nat
    /\ (video = true -> Z.of_nat (length frames) = num_steps).
Proof.
  intros He.
  pose proof (evaluate_model_inv C _ _ _ _ _ _ He) as Hn.
  destruct (eval_model_ok C which o num_steps video w Hn)
    as (rows & o' & w2 & w1 & tr & fs & He' & Hsteps & _ & Htr & Hev & _).
  rewrite He in He'. injection He' as -> ->.
  pose proof (eval_steps_frames C which video (Z.to_nat num_steps) o [] []
                (do_model_eval C w)) as Hfs.
  rewrite Hsteps in Hfs. simpl in Hfs.
  destruct (evaluated_counts C _ _ _ _ _ _ _ Hev)
    as (H1 & H2 & H3 & H4 & _).
  exists tr, fs. split; [exact Htr|].
  rewrite H1, H2, H3, H4.
  repeat split; try lia.
  - destruct video; lia.
  - intros ->. lia.
Qed.

(** X3.  A call of [evaluate_model] that returns has left the trajectory
    store and the environment it was not given as they were, and has made
    no call that writes the store or the weights, no [reset], and no step
    of the other environment. *)
Theorem evaluate_model_leaves_training_alone
    (C : Collab) (which : which_env) (o : Obs C) (num_steps : Z)
    (video : bool) (w w' : World C) (r : tensor * Obs C) :
  evaluate_model C which o num_steps video w = Ok (r, w') ->
  storage w' = storage w
  /\ match which with
     | EvalEnv => env w' = env w
     | TrainEnv => eval_env w' = eval_env w
     end
  /\ count is_training_call (trace w') = count is_training_call (trace w)
  /\ count is_env_reset (trace w') = count is_env_reset (trace w)
  /\ match which with
     | EvalEnv => count is_train_step (trace w') = count is_train_step (trace w)
     | TrainEnv => count is_eval_step (trace w') = count is_eval_step (trace w)
     end.
Proof.
  intros He.
  pose proof (evaluate_model_inv C _ _ _ _ _ _ He) as Hn.
  destruct (eval_model_ok C which o num_steps video w Hn)
    as (rows & o' & w2 & w1 & tr & fs & He' & _ & _ & Htr & Hev & _ & _ & _
        & Hs & _ & He1 & He2).
  rewrite He in He'. injection He' as -> ->.
  destruct (evaluated_counts C _ _ _ _ _ _ _ Hev)
    as (_ & _ & _ & _ & H5 & H6 & H7 & H8).
  split; [exact Hs|].
  rewrite Htr.
  change (EModelEval :: tr ++ ?x) with ([@EModelEval C] ++ tr ++ x).
  rewrite !count_app, H5, H6.
  assert (Hv : forall p : event C -> bool,
             (forall fs', p (ESaveVideo fs') = false) ->
             count p (if video then [ESaveVideo fs] else []) = 0%nat).
  { intros p Hp. destruct video; [|reflexivity].
    rewrite count_cons, Hp. reflexivity. }
  rewrite !Hv by reflexivity.
  destruct which.
  - split; [apply He2; reflexivity|]. rewrite H7.
    unfold count; simpl. repeat split; lia.
  - split; [apply He1; reflexivity|]. rewrite H8.
    unfold count; simpl. repeat split; lia.
Qed.

End EvaluateExtras.

(** ** The policy queries of an iteration *)

Section Answered.

Context (C : Collab).

Import Training.

Lemma answered_by_update (p : Params C) (mode : bool) (tr : list (event C)) :
  Forall (fun e => update_event e = true) tr ->
  Forall (answered_by p mode) tr.
Proof.
  intros H. eapply Forall_impl; [exact H|].
  intros e He. destruct e; simpl in *; try exact I.
  discriminate.
Qed.

(** The collection loop asks the policy with the weights and the mode it
    starts with. *)
Lemma collect_answered (n : nat) :
  forall (o : Obs C) (w : World C),
    Forall (answered_by (params w) (training w))
      (drop (length (trace w)) (trace (snd (collect C n o w)))).
Proof.
  induction n as [|n IH]; intros o w; simpl.
  - rewrite drop_all. constructor.
  - unfold do_act, do_step.
    destruct (model_act C (params w) (training w) o (rng w))
      as [[[a lp] v] g] eqn:Hact. simpl.
    destruct (env_step C (env w) a) as [s [[[o1 r] d] i]] eqn:Hstep. simpl.
    match goal with |- context [collect C n o1 ?w3] =>
      specialize (IH o1 w3);
      destruct (collect_spec C n o1 w3) as (tr & Htr & _)
    end.
    rewrite Htr in IH |- *. simpl in IH |- *.
    rewrite drop_app_length in IH.
    rewrite <- !app_assoc, drop_app_length. simpl.
    constructor; [|constructor; [exact I|constructor; [exact I|exact IH]]].
    simpl. exists (rng w), lp. rewrite Hact. reflexivity.
Qed.

(** So does the evaluation loop. *)
Lemma eval_steps_answered (which : which_env) (video : bool) (n : nat) :
  forall (o : Obs C) (tot : list tensor) (frames : list (Frame C)) (w : World C),
    Forall (answered_by (params w) (training w))
      (drop (length (trace w))
            (trace (eval_steps C n which video o tot frames w).2)).
Proof.
  destruct which, video.
  all: induction n as [|n IH]; intros o tot frames w; simpl.
  all: try (rewrite drop_all; constructor).
  all: unfold do_act, do_step, do_render.
  all: destruct (model_act C (params w) (training w) o (rng w))
         as [[[a lp] v] g] eqn:Hact; simpl.
  all: destruct (env_step C _ a) as [s [[[o1 r] d] i]] eqn:Hstep; simpl.
  all: try (destruct (env_render C _) as [s' f] eqn:Hrender; simpl).
  all: match goal with
       | |- context [eval_steps C _ ?wh ?vd ?o2 ?t ?fr ?w1] =>
           specialize (IH o2 t fr w1);
           destruct (eval_steps_spec C wh vd n o2 t fr w1)
             as (o' & rows & fs & w' & tr & Heq & Htr & _)
       end.
  all: rewrite Heq in IH |- *; simpl in IH |- *; rewrite Htr in IH |- *;
    simpl in IH |- *; rewrite drop_app_length in IH;
    rewrite <- !app_assoc, drop_app_length; simpl.
  all: constructor;
    [ simpl; exists (rng w), lp; rewrite Hact; reflexivity
    | repeat (constructor; [exact I|]); exact IH ].
Qed.

End Answered.

(** ** More on one iteration *)

Section IterationMore.

Context (C : Collab).

Import Training.

Lemma collected_counts_more (n : nat) (o o' : Obs C) (tr : list (event C)) :
  collected n o tr o' ->
  count is_env_reset tr = 0%nat /\ count is_compute tr = 0%nat
  /\ count is_eval_step tr = 0%nat /\ count is_optimizer_step tr = 0%nat.
Proof.
  induction 1 as [|n o o1 o' a v r tr _ (I1 & I2 & I3 & I4)].
  - repeat split.
  - rewrite !count_cons, I1, I2, I3, I4. repeat split.
Qed.

Lemma update_event_counts (tr : list (event C)) :
  Forall (fun e => update_event e = true) tr ->
  count is_env_reset tr = 0%nat /\ count is_compute tr = 0%nat
  /\ count is_eval_step tr = 0%nat.
Proof.
  intros H. repeat split; apply (count_disjoint C _ update_event); try exact H;
    intros e He; destruct e as [| | | | | | | [] | | | | | | | | | | | | |];
    simpl in *; congruence.
Qed.

(** The statistics of an iteration: the steps of the evaluation
    environment, the policy queries, and what is left as it was. *)
Lemma update_stats_more (num_steps update_ite : Z) (get_test_error : bool)
    (v v' : Vars C) (w w' : World C) :
  update_stats C num_steps update_ite get_test_error v w = Ok (v', w') ->
  training w = false ->
  exists tr,
    trace w' = trace w ++ tr
    /\ Forall (answered_by (params w) false) tr
    /\ count is_env_reset tr = 0%nat
    /\ count is_compute tr = 0%nat
    /\ count is_optimizer_step tr = 0%nat
    /\ count is_eval_step tr
       = (if decide (n_updates v mod update_ite = 0)
          then if get_test_error then Z.to_nat num_steps else 0%nat
          else 0%nat)
    /\ (get_test_error = false -> eval_env w' = eval_env w).
Proof.
  unfold update_stats, py_mod. intros H Hmode.
  destruct (decide (update_ite = 0)) as [|Hui]; [discriminate|]. simpl in H.
  destruct (decide (n_updates v mod update_ite = 0)) as [Hmod|Hmod].
  - destruct get_test_error.
    + destruct (evaluate_model C EvalEnv (eval_obs v) num_steps false
                  (emit EGetReward w)) as [[[t o'] w1]| |] eqn:Hev;
        simpl in H; try discriminate.
      injection H as <- <-.
      pose proof (evaluate_model_inv C _ _ _ _ _ _ Hev) as Hns.
      destruct (eval_model_ok C EvalEnv (eval_obs v) num_steps false
                  (emit EGetReward w) Hns)
        as (rows & o2 & w2 & w2a & tr & fs & He & Hsteps & Hw2 & Htr & Hevd & _).
      rewrite Hev in He. injection He as -> -> ->.
      pose proof (eval_steps_answered C EvalEnv false (Z.to_nat num_steps)
                    (eval_obs v) [] [] (do_model_eval C (emit EGetReward w)))
        as Hans.
      rewrite Hsteps in Hans. simpl in Hans, Hw2. subst w2a.
      simpl in Htr. rewrite app_nil_r in Htr. rewrite Htr in Hans.
      change ((trace w ++ [EGetReward]) ++ EModelEval :: tr)
        with ((trace w ++ [EGetReward]) ++ [@EModelEval C] ++ tr) in Hans.
      rewrite (app_assoc _ [EModelEval] tr) in Hans.
      rewrite drop_app_length in Hans.
      destruct (evaluated_counts C _ _ _ _ _ _ _ Hevd)
        as (_ & _ & _ & _ & _ & H6 & H7 & _).
      assert (Hc : count is_compute tr = 0%nat /\ count is_optimizer_step tr = 0%nat).
      { apply evaluated_stats in Hevd. destruct Hevd as [Hall _].
        split; apply (count_disjoint C _ stats_event); try exact Hall;
          intros e He; destruct e as [| | | | | | | [] | | | | | | | | | | | | |];
          simpl in *; congruence. }
      destruct Hc as [Hc1 Hc2].
      exists (EGetReward :: EModelEval :: tr).
      rewrite Htr, <- app_assoc. split; [reflexivity|].
      split; [constructor; [exact I|constructor; [exact I|exact Hans]]|].
      rewrite !count_cons, H6, H7, Hc1, Hc2. simpl.
      repeat split; discriminate.
    + injection H as <- <-. exists [EGetReward]. simpl.
      split; [reflexivity|]. split; [repeat constructor|].
      repeat split.
  - injection H as <- <-. exists []. rewrite app_nil_r.
    split; [reflexivity|]. split; [constructor|].
    destruct get_test_error; repeat split; auto.
Qed.

End IterationMore.

Section IterationFacts.

Context (C : Collab).

Import Training.

(** The update loop: one optimizer step per minibatch drawn; the store, the
    environments and the mode flag are left as they were. *)
Lemma epochs_more (batch_size : Z) (n : nat) :
  forall w : World C,
    exists tr,
      trace (epochs C n batch_size w) = trace w ++ tr
      /\ Forall (fun e => update_event e = true) tr
      /\ count is_optimizer_step tr
         = batches_drawn n batch_size (storage w) (rng w)
      /\ count is_get_generator tr = n
      /\ env (epochs C n batch_size w) = env w
      /\ eval_env (epochs C n batch_size w) = eval_env w
      /\ training (epochs C n batch_size w) = training w
      /\ storage (epochs C n batch_size w) = storage w.
Proof.
  induction n as [|n IH]; intros w; simpl.
  - exists []. rewrite app_nil_r. repeat split. constructor.
  - unfold epoch.
    destruct (sto_get_generator C (storage w) batch_size (rng w))
      as [generator g] eqn:Hgen. simpl.
    destruct (minibatches_spec C generator
                (emit (EGetGenerator batch_size (rng w)) (set_rng C g w)))
      as (tr1 & Htr1 & Hall1 & Hg1 & Ho1 & He1 & Hee1 & Ht1 & Hs1 & Hr1).
    destruct (IH (foldl (minibatch_update C)
                    (emit (EGetGenerator batch_size (rng w)) (set_rng C g w))
                    generator))
      as (tr & Htr & Hall & Hopt & Hgc & He & Hee & Ht & Hs).
    exists ([EGetGenerator batch_size (rng w)] ++ tr1 ++ tr).
    rewrite Htr, Htr1, He, Hee, Ht, Hs, He1, Hee1, Ht1, Hs1. simpl.
    rewrite <- !app_assoc. simpl.
    split; [reflexivity|]. split.
    { constructor; [reflexivity|]. apply Forall_app. split; assumption. }
    rewrite !count_cons, !count_app, Hopt, Hgc, Hg1, Ho1, Hs1, Hr1. simpl.
    repeat split.
Qed.

(** What an iteration that returns has done, beyond its stores. *)
Lemma iteration_more (num_epochs batch_size num_steps update_ite : Z)
    (get_test_error : bool) (v v1 : Vars C) (w w1 : World C) :
  iteration C num_epochs batch_size num_steps update_ite get_test_error v w
    = Ok (v1, w1) ->
  exists tr,
    trace w1 = trace w ++ tr
    /\ Forall (answered_by (params w) false) tr
    /\ count is_env_reset tr = 0%nat
    /\ count is_compute tr = 1%nat
    /\ count is_eval_step tr
       = (if decide (n_updates v mod update_ite = 0)
          then if get_test_error then Z.to_nat num_steps else 0%nat
          else 0%nat)
    /\ training w1 = true
    /\ (get_test_error = false -> eval_env w1 = eval_env w)
    /\ (num_epochs <= 0 ->
        params w1 = params w /\ opt w1 = opt w
        /\ count is_optimizer_step tr = 0%nat).
Proof.
  unfold iteration.
  pose proof (collect_answered C (Z.to_nat num_steps) (obs v) (do_model_eval C w))
    as Hansc.
  destruct (collect_spec C (Z.to_nat num_steps) (obs v) (do_model_eval C w))
    as (tr_c & Htrc & Hcol & Heec & Hpc & Htc & _ & Hoc).
  destruct (collect C (Z.to_nat num_steps) (obs v) (do_model_eval C w))
    as [o1 w1c]. simpl in Htrc, Hcol, Hpc, Htc, Heec, Hoc, Hansc.
  rewrite Htrc in Hansc.
  replace (length (trace w ++ [EModelEval]))
    with (length (trace w ++ [@EModelEval C])) in Hansc by reflexivity.
  rewrite <- app_assoc in Hansc.
  change (drop (length (trace w ++ [EModelEval])) (trace w ++ [EModelEval] ++ tr_c))
    with (drop (length (trace w ++ [EModelEval]))
               (trace w ++ ([@EModelEval C] ++ tr_c))) in Hansc.
  rewrite app_assoc, drop_app_length in Hansc.
  destruct (update_stats C num_steps update_ite get_test_error _ w1c)
    as [[v2 w2]| |] eqn:Hst; simpl; try discriminate.
  pose proof (update_stats_more C _ _ _ _ _ _ _ Hst Htc)
    as (tr_s & Htrs & Hanss & Hrs & Hcs & Hos & Hes & Hees).
  simpl in Hes.
  apply update_stats_inv in Hst. simpl in Hst.
  destruct Hst as (Hui & Hobs & _ & Hnu & _ & _ & Hp2 & _ & Ho2 & _ & Ht2 & _).
  unfold do_act.
  destruct (model_act C (params w2) (training w2) (obs v2) (rng w2))
    as [[[a_b lp_b] v_b] g] eqn:Hact. simpl.
  match goal with |- Ok (_, epochs C _ _ ?wu) = _ -> _ =>
    destruct (epochs_more batch_size (Z.to_nat num_epochs) wu)
      as (tr_u & Htru & Hallu & Hou & _ & _ & Heeu & Htu & _);
    assert (Hzero : num_epochs <= 0 ->
                    epochs C (Z.to_nat num_epochs) batch_size wu = wu)
      by (intros Hle; replace (Z.to_nat num_epochs) with 0%nat by lia;
          reflexivity)
  end.
  intros [= <- <-]. simpl.
  destruct (collected_counts_more C _ _ _ _ Hcol) as (Hc1 & Hc2 & Hc3 & Hc4).
  destruct (update_event_counts C _ Hallu) as (Hu1 & Hu2 & Hu3).
  exists ([EModelEval] ++ tr_c ++ tr_s
          ++ [EAct (obs v2) a_b v_b; EStoreLast (obs v2) v_b;
              EComputeReturnAdvantage; EModelTrain] ++ tr_u).
  rewrite Htru. simpl. rewrite Htrs, Htrc. simpl.
  rewrite <- ?app_assoc. simpl. rewrite <- ?app_assoc. simpl.
  split; [reflexivity|].
  split.
  { constructor; [exact I|].
    apply Forall_app. split; [exact Hansc|].
    rewrite Hpc in Hanss. simpl in Hanss.
    apply Forall_app. split; [exact Hanss|].
    constructor.
    { simpl. exists (rng w2), lp_b.
      rewrite Hp2, Hpc, (Ht2 Htc) in Hact. simpl in Hact.
      rewrite Hact. reflexivity. }
    repeat (constructor; [exact I|]).
    apply answered_by_update. exact Hallu. }
  rewrite !count_cons, !count_app, !count_cons.
  rewrite Hc1, Hc2, Hc3, Hrs, Hcs, Hes, Hu1, Hu2, Hu3. simpl.
  split; [reflexivity|]. split; [reflexivity|].
  split; [destruct (decide _); [destruct get_test_error|]; lia|].
  rewrite Htu, Heeu. simpl.
  split; [reflexivity|].
  split.
  { intros Hg. rewrite (Hees Hg), Heec. reflexivity. }
  intros Hle. rewrite (Hzero Hle). simpl.
  rewrite Hp2, Hpc, Ho2, Hoc. simpl.
  split; [reflexivity|]. split; [reflexivity|].
  assert (Htu0 : tr_u = []).
  { rewrite (Hzero Hle) in Htru. apply (f_equal length) in Htru.
    rewrite length_app in Htru.
    destruct tr_u; [reflexivity | simpl in Htru; lia]. }
  subst tr_u. rewrite Hc4, Hos. reflexivity.
Qed.

End IterationFacts.

(** ** The loop as a whole *)

Section LoopRule.

Context (C : Collab).

Import Training.

(** What holds before the loop and is kept by every iteration that is
    entered and returns holds when the loop returns, with the step counter
    at or past [total_steps]. *)
Lemma train_loop_invariant (I : Vars C -> World C -> Prop)
    (num_epochs batch_size num_steps total_steps update_ite : Z)
    (get_test_error : bool) :
  (forall v w v1 w1,
      I v w -> step v < total_steps ->
      iteration C num_epochs batch_size num_steps update_ite get_test_error v w
        = Ok (v1, w1) ->
      I v1 w1) ->
  forall (fuel : nat) (v v' : Vars C) (w w' : World C),
    I v w ->
    train_loop C fuel num_epochs batch_size num_steps total_steps update_ite
               get_test_error v w = Ok (v', w') ->
    I v' w' /\ total_steps <= step v'.
Proof.
  intros Hkeep. induction fuel as [|fuel IH]; intros v v' w w' HI; simpl.
  - destruct (decide _) as [Hlt|Hge]; [discriminate|].
    intros [= <- <-]. split; [exact HI | lia].
  - destruct (decide _) as [Hlt|Hge].
    + destruct (iteration C _ _ _ _ _ v w) as [[v1 w1]| |] eqn:Hit;
        simpl; try discriminate.
      apply IH. exact (Hkeep _ _ _ _ HI Hlt Hit).
    + intros [= <- <-]. split; [exact HI | lia].
Qed.

(** With an increment that is not positive, a loop entered below
    [total_steps] does not return. *)
Lemma train_loop_never_returns
    (num_epochs batch_size num_steps total_steps update_ite : Z)
    (get_test_error : bool) :
  num_envs C * num_steps <= 0 ->
  forall (fuel : nat) (v : Vars C) (w : World C) r,
    step v < total_steps ->
    train_loop C fuel num_epochs batch_size num_steps total_steps update_ite
               get_test_error v w <> Ok r.
Proof.
  intros Hd. induction fuel as [|fuel IH]; intros v w r Hlt; simpl.
  - destruct (decide _); [discriminate | contradiction].
  - destruct (decide _); [|contradiction].
    destruct (iteration C _ _ _ _ _ v w) as [[v1 w1]| |] eqn:Hit;
      simpl; try discriminate.
    apply IH. apply iteration_inv in Hit.
    destruct Hit as (_ & _ & _ & _ & _ & _ & _ & _ & _ & _ & _ & _ & _ & _ & _
                     & Hstep & _).
    lia.
Qed.

(** What [train_model] has done before its loop. *)
Lemma train_setup_inv (device : Device C) (adam_lr adam_eps : Qc)
    (num_steps total_steps ui : Z) (v0 : Vars C) (w w0 : World C) :
  train_setup C device adam_lr adam_eps num_steps total_steps w
    = Ok (ui, v0, w0) ->
  num_envs C * num_steps <> 0
  /\ ui = total_steps / (num_envs C * num_steps * 100) + 1
  /\ v0 = mkVars [] [] [] (snd (env_reset C (env w)))
                 (snd (env_reset C (eval_env w))) 0 0
  /\ trace w0 = trace w ++ [EModelTo; EAdam; EStorageNew;
                            EEnvReset TrainEnv; EEnvReset EvalEnv]
  /\ params w0 = model_to C (params w) device
  /\ opt w0 = adam C (model_to C (params w) device) adam_lr adam_eps
  /\ env w0 = fst (env_reset C (env w))
  /\ eval_env w0 = fst (env_reset C (eval_env w))
  /\ training w0 = training w /\ grads w0 = grads w /\ rng w0 = rng w.
Proof.
  unfold train_setup, do_reset. simpl.
  destruct (env_reset C (env w)) as [s o]. simpl.
  destruct (env_reset C (eval_env w)) as [s' eo]. simpl.
  unfold update_ite_of, py_floordiv.
  destruct (decide _) as [Hz|Hnz]; simpl; [discriminate|].
  intros [= <- <- <-]. simpl. rewrite <- !app_assoc. simpl.
  repeat split. lia.
Qed.

(** A call of [train_model] that returns: its setup, its loop, and the
    arguments it must have had. *)
Lemma train_model_ok_inv (fuel : nat) (device : Device C)
    (num_epochs batch_size : Z) (adam_lr adam_eps : Qc)
    (num_steps total_steps : Z) (get_test_error : bool) (w w' : World C)
    (sts : list Z) (tr : list Qc) (te : option (list tensor)) :
  train_model C fuel device num_epochs batch_size adam_lr adam_eps num_steps
              total_steps get_test_error w = Ok ((sts, (tr, te)), w') ->
  exists ui v0 w0 v',
    train_setup C device adam_lr adam_eps num_steps total_steps w
      = Ok (ui, v0, w0)
    /\ train_loop C fuel num_epochs batch_size num_steps total_steps ui
                  get_test_error v0 w0 = Ok (v', w')
    /\ sts = steps v' /\ tr = train_rewards v'
    /\ te = (if get_test_error then Some (test_rewards v') else None)
    /\ 1 <= num_envs C * num_steps /\ 1 <= total_steps /\ 1 <= ui.
Proof.
  unfold train_model. intros H.
  destruct (train_setup C device adam_lr adam_eps num_steps total_steps w)
    as [[[ui v0] w0]| |] eqn:Hset; simpl in H; try discriminate.
  destruct (train_loop C fuel _ _ _ _ ui _ v0 w0) as [[v' w1]| |] eqn:Hloop;
    simpl in H; try discriminate.
  assert (Hout : sts = steps v' /\ tr = train_rewards v'
                 /\ te = (if get_test_error then Some (test_rewards v') else None)
                 /\ w1 = w' /\ train_rewards v' <> []).
  { destruct get_test_error.
    - destruct (train_rewards v'); simpl in H; [discriminate|].
      destruct (test_rewards v'); simpl in H; [discriminate|].
      injection H as <- <- <- <-. repeat split. discriminate.
    - destruct (train_rewards v'); simpl in H; [discriminate|].
      injection H as <- <- <- <-. repeat split. discriminate. }
  destruct Hout as (-> & -> & -> & -> & Hne).
  pose proof (train_setup_inv _ _ _ _ _ _ _ _ _ Hset)
    as (Hd & Hui & Hv0 & _).
  assert (Htot : 1 <= total_steps).
  { destruct (Z_lt_le_dec 0 total_steps) as [|Hle]; [lia|]. exfalso.
    destruct fuel; simpl in Hloop;
      (destruct (decide (step v0 < total_steps)) as [Hlt|_];
       [subst v0; simpl in Hlt; lia|]);
      injection Hloop as <- <-; subst v0; apply Hne; reflexivity. }
  assert (Hpos : 1 <= num_envs C * num_steps).
  { destruct (Z_lt_le_dec 0 (num_envs C * num_steps)) as [|Hle]; [lia|].
    exfalso.
    apply (train_loop_never_returns num_epochs batch_size num_steps total_steps
             ui get_test_error Hle fuel v0 w0 (v', w')); [|exact Hloop].
    subst v0. simpl. lia. }
  exists ui, v0, w0, v'. repeat split; try assumption.
  subst ui.
  assert (0 <= total_steps / (num_envs C * num_steps * 100))
    by (apply Z.div_pos; lia).
  lia.
Qed.

End LoopRule.

Section Statistics.

Context (C : Collab).

Import Training.

(** The number of multiples of [ui] below [n + 1], from the number below
    [n]. *)
Lemma ceil_div_succ (n ui : Z) :
  1 <= ui -> 0 <= n ->
  (n + 1 + ui - 1) / ui
  = (n + ui - 1) / ui + (if decide (n mod ui = 0) then 1 else 0)
  /\ (n mod ui = 0 -> (n + ui - 1) / ui * ui = n)
  /\ 0 <= (n + ui - 1) / ui.
Proof.
  intros Hui Hn.
  pose proof (Z.div_mod n ui ltac:(lia)) as Hdm.
  pose proof (Z.mod_pos_bound n ui ltac:(lia)) as Hr.
  assert (Hq : 0 <= n / ui) by (apply Z.div_pos; lia).
  destruct (decide (n mod ui = 0)) as [Hz|Hnz].
  - assert (H1 : (n + ui - 1) / ui = n / ui).
    { symmetry. apply (Z.div_unique _ _ _ (ui - 1)); lia. }
    assert (H2 : (n + 1 + ui - 1) / ui = n / ui + 1).
    { symmetry. apply (Z.div_unique _ _ _ 0); lia. }
    rewrite H1, H2. repeat split; lia.
  - assert (H1 : (n + ui - 1) / ui = n / ui + 1).
    { symmetry. apply (Z.div_unique _ _ _ (n mod ui - 1)); lia. }
    assert (H2 : (n + 1 + ui - 1) / ui = n / ui + 1).
    { symmetry. apply (Z.div_unique _ _ _ (n mod ui)); lia. }
    rewrite H1, H2. repeat split; lia.
Qed.

Lemma recorded_steps_snoc (m : nat) (ui d : Z) :
  recorded_steps (S m) ui d = recorded_steps m ui d ++ [Z.of_nat m * (ui * d)].
Proof.
  unfold recorded_steps. rewrite seq_S, map_app. reflexivity.
Qed.

(** Every iteration keeps the statistics in step with the counters. *)
Lemma stats_inv_kept (num_epochs batch_size num_steps total_steps update_ite : Z)
    (get_test_error : bool) (v v1 : Vars C) (w w1 : World C) :
  1 <= update_ite ->
  stats_inv get_test_error total_steps update_ite (num_envs C * num_steps) v ->
  step v < total_steps ->
  iteration C num_epochs batch_size num_steps update_ite get_test_error v w
    = Ok (v1, w1) ->
  stats_inv get_test_error total_steps update_ite (num_envs C * num_steps) v1.
Proof.
  intros Hui (Hn & Hstep & _ & Hsteps & Hl1 & Hl2) Hlt Hit.
  apply iteration_inv in Hit.
  destruct Hit as (_ & _ & _ & _ & _ & _ & _ & _ & _ & _ & _ & _ & _ & _ & _
                   & Hs1 & Hn1 & _ & Hstats).
  destruct (ceil_div_succ (n_updates v) update_ite Hui Hn) as (Hc1 & Hc2 & Hc3).
  unfold stats_inv. rewrite Hn1, Hs1.
  replace (n_updates v + 1 + update_ite - 1)
    with (n_updates v + 1 + update_ite - 1) by reflexivity.
  split; [lia|]. split; [lia|].
  split; [right; replace (n_updates v + 1 - 1) with (n_updates v) by lia; lia|].
  rewrite Hc1.
  destruct (decide (n_updates v mod update_ite = 0)) as [Hm|Hm].
  - destruct Hstats as (H1 & (r & H2) & H3).
    rewrite Z2Nat.inj_add by lia.
    replace (Z.to_nat ((n_updates v + update_ite - 1) / update_ite) + Z.to_nat 1)%nat
      with (S (Z.to_nat ((n_updates v + update_ite - 1) / update_ite))) by lia.
    rewrite recorded_steps_snoc, <- Hsteps, H1, H2, !length_app.
    rewrite Z2Nat.id by lia.
    split.
    { f_equal. f_equal. rewrite Hstep. specialize (Hc2 Hm). nia. }
    split; [simpl; lia|].
    destruct get_test_error.
    + destruct H3 as (_ & t & H3). rewrite H3, length_app. simpl. lia.
    + rewrite H3. exact Hl2.
  - destruct Hstats as (H1 & H2 & H3).
    rewrite Z.add_0_r, H1, H2, H3. repeat split; assumption.
Qed.

(** With a positive increment, a positive budget and, for the test
    rewards, a step to evaluate, [train_model] returns. *)
Lemma train_model_returns (device : Device C) (num_epochs batch_size : Z)
    (adam_lr adam_eps : Qc) (num_steps total_steps : Z)
    (get_test_error : bool) (w : World C) :
  1 <= num_envs C * num_steps -> 1 <= total_steps ->
  (get_test_error = true -> 1 <= num_steps) ->
  exists sts tr te w',
    train_model C (Z.to_nat total_steps) device num_epochs batch_size adam_lr
                adam_eps num_steps total_steps get_test_error w
    = Ok ((sts, (tr, te)), w').
Proof.
  intros Hd Htot Hns.
  destruct (train_setup_spec C device adam_lr adam_eps num_steps total_steps w
              ltac:(lia)) as (o & eo & w0 & Hset).
  assert (Hq : 0 <= total_steps / (num_envs C * num_steps * 100))
    by (apply Z.div_pos; lia).
  destruct (train_loop_run C num_epochs batch_size num_steps total_steps
              (total_steps / (num_envs C * num_steps * 100) + 1)
              get_test_error Hd Hns (Z.to_nat total_steps)
              (mkVars [] [] [] o eo 0 0) w0)
    as (v' & w' & k & Hrun & _ & _ & _ & _ & _ & _ & _ & _ & Hlen & _).
  { simpl. lia. }
  { simpl. rewrite Z.sub_0_r. lia. }
  simpl in Hlen. destruct Hlen as (Hl1 & Hl2 & Hl3); [lia | apply Z.mod_0_l; lia|].
  unfold train_model. rewrite Hset. simpl. rewrite Hrun. simpl.
  destruct (train_rewards v') as [|r rs] eqn:Hr; [simpl in Hl2; lia|].
  destruct get_test_error.
  - specialize (Hl3 eq_refl).
    destruct (test_rewards v') as [|t ts] eqn:Ht; [simpl in Hl3; lia|].
    simpl. eexists _, _, _, _. reflexivity.
  - simpl. eexists _, _, _, _. reflexivity.
Qed.

End Statistics.

(** ** [train_model]: when it returns, and with what *)

Section TrainModelExtras.

Import Training.

(** X4.  When [env.num_envs * num_steps] is 0, for instance with
    [num_steps = 0], [train_model] raises [ZeroDivisionError] where it
    computes [update_ite], before the loop. *)
Theorem train_model_zero_increment_raises
    (C : Collab) (fuel : nat) (device : Device C) (num_epochs batch_size : Z)
    (adam_lr adam_eps : Qc) (num_steps total_steps : Z)
    (get_test_error : bool) (w : World C) :
  num_envs C * num_steps = 0 ->
  train_model C fuel device num_epochs batch_size adam_lr adam_eps num_steps
              total_steps get_test_error w = Raise ZeroDivisionError.
Proof.
  intros Hd. unfold train_model, train_setup, do_reset. simpl.
  destruct (env_reset C _) as [s o]. simpl.
  destruct (env_reset C _) as [s' eo]. simpl.
  unfold update_ite_of, py_floordiv.
  destruct (decide _) as [_|Hnz]; [reflexivity|]. lia.
Qed.

(** X5.  With [total_steps <= 0] (and a non-zero increment) the loop body
    never runs, [train_rewards] stays empty and [train_model] raises at
    [torch.stack]: it does not return empty statistics. *)
Theorem train_model_without_budget_raises
    (C : Collab) (fuel : nat) (device : Device C) (num_epochs batch_size : Z)
    (adam_lr adam_eps : Qc) (num_steps total_steps : Z)
    (get_test_error : bool) (w : World C) :
  num_envs C * num_steps <> 0 ->
  total_steps <= 0 ->
  train_model C fuel device num_epochs batch_size adam_lr adam_eps num_steps
              total_steps get_test_error w = Raise StackEmpty.
Proof.
  intros Hd Htot.
  destruct (train_setup_spec C device adam_lr adam_eps num_steps total_steps w
              Hd) as (o & eo & w0 & Hset).
  unfold train_model. rewrite Hset. simpl.
  assert (Hloop : train_loop C fuel num_epochs batch_size num_steps total_steps
                    (total_steps / (num_envs C * num_steps * 100) + 1)
                    get_test_error (mkVars [] [] [] o eo 0 0) w0
                  = Ok (mkVars [] [] [] o eo 0 0, w0)).
  { destruct fuel; simpl; (destruct (decide _) as [Hlt|_]; [lia | reflexivity]). }
  rewrite Hloop. simpl. destruct get_test_error; reflexivity.
Qed.


(** X7.  The statistics that [train_model] returns are in step: there is
    one record for every iteration whose number is a multiple of
    [update_ite], the [i]-th recorded step counter is
    [i * update_ite * env.num_envs * num_steps], and the training rewards
    (and the test rewards, when returned) have one entry per recorded
    step. *)
Theorem returned_statistics_are_aligned
    (C : Collab) (fuel : nat) (device : Device C) (num_epochs batch_size : Z)
    (adam_lr adam_eps : Qc) (num_steps total_steps : Z)
    (get_test_error : bool) (w w' : World C)
    (sts : list Z) (tr : list Qc) (te : option (list tensor)) :
  train_model C fuel device num_epochs batch_size adam_lr adam_eps num_steps
              total_steps get_test_error w = Ok ((sts, (tr, te)), w') ->
  let d := num_envs C * num_steps in
  let ui := total_steps / (d * 100) + 1 in
  exists k : Z,
    (k - 1) * d < total_steps <= k * d
    /\ sts = recorded_steps (Z.to_nat ((k + ui - 1) / ui)) ui d
    /\ length tr = length sts
    /\ match te with
       | Some l => get_test_error = true /\ length l = length sts
       | None => get_test_error = false
       end.
Proof.
  intros H d ui.
  destruct (train_model_ok_inv C _ _ _ _ _ _ _ _ _ _ _ _ _ _ H)
    as (ui' & v0 & w0 & v' & Hset & Hloop & -> & -> & -> & Hd & Htot & Hui).
  apply train_setup_inv in Hset. destruct Hset as (_ & -> & Hv0 & _).
  fold d in Hui, Hloop. fold ui in Hui, Hloop.
  destruct (train_loop_invariant C
              (fun v _ => stats_inv get_test_error total_steps ui d v)
              num_epochs batch_size num_steps total_steps ui get_test_error
              (fun v w v1 w1 HI Hlt Hit =>
                 stats_inv_kept C _ _ _ _ _ _ _ _ _ _ Hui HI Hlt Hit)
              fuel v0 v' w0 w')
    as ((Hn & Hstep & Hlast & Hsteps & Hl1 & Hl2) & Hexit); [|exact Hloop|].
  { subst v0. unfold stats_inv. simpl.
    replace ((0 + ui - 1) / ui) with 0 by (symmetry; apply Z.div_small; lia).
    destruct get_test_error; repeat split; lia. }
  exists (n_updates v').
  split; [destruct Hlast as [Hz|Hlast]; [rewrite Hz in Hstep; lia | lia]|].
  split; [exact Hsteps|]. split; [exact Hl1|].
  destruct get_test_error; [split; [reflexivity | exact Hl2] | reflexivity].
Qed.

(** X8.  [train_model] returns at least one and at most 100 statistics
    records, whatever the budget; the first is taken at step 0. *)
Theorem at_most_hundred_statistics
    (C : Collab) (fuel : nat) (device : Device C) (num_epochs batch_size : Z)
    (adam_lr adam_eps : Qc) (num_steps total_steps : Z)
    (get_test_error : bool) (w w' : World C)
    (sts : list Z) (tr : list Qc) (te : option (list tensor)) :
  train_model C fuel device num_epochs batch_size adam_lr adam_eps num_steps
              total_steps get_test_error w = Ok ((sts, (tr, te)), w') ->
  (1 <= length sts <= 100)%nat /\ hd_error sts = Some 0.
Proof.
  intros H.
  destruct (train_model_ok_inv C _ _ _ _ _ _ _ _ _ _ _ _ _ _ H)
    as (ui' & v0 & w0 & v' & Hset & Hloop & -> & -> & -> & Hd & Htot & Hui).
  apply train_setup_inv in Hset. destruct Hset as (_ & -> & Hv0 & _).
  set (d := num_envs C * num_steps) in *.
  set (ui := total_steps / (d * 100) + 1) in *.
  destruct (train_loop_invariant C
              (fun v _ => stats_inv get_test_error total_steps ui d v)
              num_epochs batch_size num_steps total_steps ui get_test_error
              (fun v w v1 w1 HI Hlt Hit =>
                 stats_inv_kept C _ _ _ _ _ _ _ _ _ _ Hui HI Hlt Hit)
              fuel v0 v' w0 w')
    as ((Hn & Hstep & Hlast & Hsteps & _) & Hexit); [|exact Hloop|].
  { subst v0. unfold stats_inv. simpl.
    replace ((0 + ui - 1) / ui) with 0 by (symmetry; apply Z.div_small; lia).
    destruct get_test_error; repeat split; lia. }
  set (k := n_updates v') in *.
  assert (Hk : 1 <= k) by nia.
  destruct Hlast as [Hz|Hlast]; [lia|].
  assert (Hbound : total_steps < ui * (d * 100)).
  { pose proof (Z.div_mod total_steps (d * 100) ltac:(lia)) as Hdm.
    pose proof (Z.mod_pos_bound total_steps (d * 100) ltac:(lia)) as Hr.
    subst ui. nia. }
  assert (Hk100 : k <= 100 * ui) by nia.
  assert (Hm1 : 1 <= (k + ui - 1) / ui)
    by (apply Z.div_le_lower_bound; lia).
  assert (Hm2 : (k + ui - 1) / ui < 101)
    by (apply Z.div_lt_upper_bound; lia).
  rewrite Hsteps. unfold recorded_steps. rewrite length_map, length_seq.
  split; [lia|].
  destruct (Z.to_nat ((k + ui - 1) / ui)) as [|m] eqn:Hm; [lia|].
  simpl; f_equal; lia.
Qed.

End TrainModelExtras.

(** ** [train_model]: the state it leaves and the calls it makes *)

Section TrainModelState.

Import Training.

(** X9.  When [train_model] returns, the model is in training mode: the
    last mode switch of every iteration is [model.train()], and the updates
    after it do not touch the flag. *)
Theorem train_model_leaves_train_mode
    (C : Collab) (fuel : nat) (device : Device C) (num_epochs batch_size : Z)
    (adam_lr adam_eps : Qc) (num_steps total_steps : Z)
    (get_test_error : bool) (w w' : World C)
    (r : list Z * rewards_t) :
  train_model C fuel device num_epochs batch_size adam_lr adam_eps num_steps
              total_steps get_test_error w = Ok (r, w') ->
  training w' = true.
Proof.
  destruct r as [sts [tr te]]. intros H.
  destruct (train_model_ok_inv C _ _ _ _ _ _ _ _ _ _ _ _ _ _ H)
    as (ui & v0 & w0 & v' & Hset & Hloop & _ & _ & _ & Hd & Htot & Hui).
  apply train_setup_inv in Hset. destruct Hset as (_ & _ & Hv0 & _).
  destruct (train_loop_invariant C
              (fun v w => 0 <= n_updates v
                          /\ step v = n_updates v * (num_envs C * num_steps)
                          /\ (0 < n_updates v -> training w = true))
              num_epochs batch_size num_steps total_steps ui get_test_error)
    with (fuel := fuel) (v := v0) (v' := v') (w := w0) (w' := w')
    as ((Hn & Hstep & Hmode) & Hexit); [| |exact Hloop|].
  - intros v w1 v1 w2 (Hn & Hstep & _) _ Hit.
    destruct (iteration_more C _ _ _ _ _ _ _ _ _ Hit)
      as (_ & _ & _ & _ & _ & _ & Hmode & _).
    apply iteration_inv in Hit.
    destruct Hit as (_ & _ & _ & _ & _ & _ & _ & _ & _ & _ & _ & _ & _ & _ & _
                     & Hs1 & Hn1 & _).
    rewrite Hn1, Hs1. repeat split; try lia. intros _. exact Hmode.
  - subst v0. simpl. repeat split; lia.
  - apply Hmode. nia.
Qed.

(** X10.  [train_model] resets each of the two environments once, before
    the loop, and never again: the rollouts follow one another without a
    reset in between. *)
Theorem environments_reset_once_before_loop
    (C : Collab) (fuel : nat) (device : Device C) (num_epochs batch_size : Z)
    (adam_lr adam_eps : Qc) (num_steps total_steps : Z)
    (get_test_error : bool) (w w' : World C)
    (r : list Z * rewards_t) :
  train_model C fuel device num_epochs batch_size adam_lr adam_eps num_steps
              total_steps get_test_error w = Ok (r, w') ->
  exists tr,
    trace w' = trace w ++ [EModelTo; EAdam; EStorageNew;
                           EEnvReset TrainEnv; EEnvReset EvalEnv] ++ tr
    /\ count is_env_reset tr = 0%nat.
Proof.
  destruct r as [sts [tr te]]. intros H.
  destruct (train_model_ok_inv C _ _ _ _ _ _ _ _ _ _ _ _ _ _ H)
    as (ui & v0 & w0 & v' & Hset & Hloop & _).
  apply train_setup_inv in Hset. destruct Hset as (_ & _ & _ & Htr0 & _).
  destruct (train_loop_invariant C
              (fun _ w1 => exists tr1, trace w1 = trace w0 ++ tr1
                                       /\ count is_env_reset tr1 = 0%nat)
              num_epochs batch_size num_steps total_steps ui get_test_error)
    with (fuel := fuel) (v := v0) (v' := v') (w := w0) (w' := w')
    as ((tr1 & Htr1 & Hc1) & _); [| |exact Hloop|].
  - intros v w1 v1 w2 (tr1 & Htr1 & Hc1) _ Hit.
    destruct (iteration_more C _ _ _ _ _ _ _ _ _ Hit)
      as (tr2 & Htr2 & _ & Hc2 & _).
    exists (tr1 ++ tr2). rewrite Htr2, Htr1, <- app_assoc, count_app, Hc1, Hc2.
    split; reflexivity.
  - exists []. rewrite app_nil_r. split; reflexivity.
  - exists tr1. rewrite Htr1, Htr0, <- app_assoc. split; [reflexivity | exact Hc1].
Qed.

(** X11.  Over a call of [train_model] that returns, the evaluation
    environment is stepped [num_steps] times for every statistics record
    when [get_test_error] is set; otherwise it is never stepped and is left
    in the state its [reset] gave. *)
Theorem evaluation_environment_steps
    (C : Collab) (fuel : nat) (device : Device C) (num_epochs batch_size : Z)
    (adam_lr adam_eps : Qc) (num_steps total_steps : Z)
    (get_test_error : bool) (w w' : World C)
    (sts : list Z) (rw : rewards_t) :
  train_model C fuel device num_epochs batch_size adam_lr adam_eps num_steps
              total_steps get_test_error w = Ok ((sts, rw), w') ->
  count is_eval_step (trace w')
  = (count is_eval_step (trace w)
     + (if get_test_error then length sts * Z.to_nat num_steps else 0))%nat
  /\ (get_test_error = false -> eval_env w' = fst (env_reset C (eval_env w))).
Proof.
  destruct rw as [tr te]. intros H.
  destruct (train_model_ok_inv C _ _ _ _ _ _ _ _ _ _ _ _ _ _ H)
    as (ui & v0 & w0 & v' & Hset & Hloop & -> & _).
  apply train_setup_inv in Hset.
  destruct Hset as (_ & _ & Hv0 & Htr0 & _ & _ & _ & Hee0 & _).
  destruct (train_loop_invariant C
              (fun v w1 =>
                 count is_eval_step (trace w1)
                 = (count is_eval_step (trace w)
                    + (if get_test_error
                       then length (steps v) * Z.to_nat num_steps else 0))%nat
                 /\ (get_test_error = false -> eval_env w1 = eval_env w0))
              num_epochs batch_size num_steps total_steps ui get_test_error)
    with (fuel := fuel) (v := v0) (v' := v') (w := w0) (w' := w')
    as ((Hc & Hee) & _); [| |exact Hloop|].
  - intros v w1 v1 w2 (Hc & Hee) _ Hit.
    destruct (iteration_more C _ _ _ _ _ _ _ _ _ Hit)
      as (tr2 & Htr2 & _ & _ & _ & Hes & _ & Hee2 & _).
    apply iteration_inv in Hit.
    destruct Hit as (_ & _ & _ & _ & _ & _ & _ & _ & _ & _ & _ & _ & _ & _ & _
                     & _ & _ & _ & Hstats).
    split.
    + rewrite Htr2, count_app, Hc, Hes.
      destruct (decide _).
      * destruct Hstats as (Hs1 & _). rewrite Hs1, length_app. simpl.
        destruct get_test_error; lia.
      * destruct Hstats as (Hs1 & _). rewrite Hs1.
        destruct get_test_error; lia.
    + intros Hg. rewrite (Hee2 Hg). exact (Hee Hg).
  - subst v0. rewrite Htr0, count_app. simpl.
    split; [unfold count; simpl; destruct get_test_error; lia | reflexivity].
  - split; [exact Hc|]. intros Hg. rewrite (Hee Hg). exact Hee0.
Qed.

(** X12.  With [num_epochs <= 0] the update loop has no pass:
    [train_model] makes no optimizer step and returns the weights as
    [model.to(device)] gave them, with the optimizer as it was built. *)
Theorem no_epoch_no_update
    (C : Collab) (fuel : nat) (device : Device C) (num_epochs batch_size : Z)
    (adam_lr adam_eps : Qc) (num_steps total_steps : Z)
    (get_test_error : bool) (w w' : World C)
    (r : list Z * rewards_t) :
  num_epochs <= 0 ->
  train_model C fuel device num_epochs batch_size adam_lr adam_eps num_steps
              total_steps get_test_error w = Ok (r, w') ->
  params w' = model_to C (params w) device
  /\ opt w' = adam C (model_to C (params w) device) adam_lr adam_eps
  /\ count is_optimizer_step (trace w') = count is_optimizer_step (trace w).
Proof.
  destruct r as [sts [tr te]]. intros Hne H.
  destruct (train_model_ok_inv C _ _ _ _ _ _ _ _ _ _ _ _ _ _ H)
    as (ui & v0 & w0 & v' & Hset & Hloop & _).
  apply train_setup_inv in Hset.
  destruct Hset as (_ & _ & _ & Htr0 & Hp0 & Ho0 & _).
  destruct (train_loop_invariant C
              (fun _ w1 => params w1 = params w0 /\ opt w1 = opt w0
                           /\ count is_optimizer_step (trace w1)
                              = count is_optimizer_step (trace w0))
              num_epochs batch_size num_steps total_steps ui get_test_error)
    with (fuel := fuel) (v := v0) (v' := v') (w := w0) (w' := w')
    as ((Hp & Ho & Hc) & _); [| |exact Hloop|].
  - intros v w1 v1 w2 (Hp & Ho & Hc) _ Hit.
    destruct (iteration_more C _ _ _ _ _ _ _ _ _ Hit)
      as (tr2 & Htr2 & _ & _ & _ & _ & _ & _ & Hz).
    destruct (Hz Hne) as (Hp2 & Ho2 & Hc2).
    rewrite Hp2, Ho2, Htr2, count_app, Hc2, Hp, Ho, Hc. repeat split. lia.
  - repeat split.
  - rewrite Hp, Ho, Hc, Hp0, Ho0, Htr0, count_app.
    repeat split. unfold count; simpl. lia.
Qed.

(** X13.  The update loop (lines 167-187) makes one optimizer step for
    every minibatch that its generators yield and builds one generator per
    epoch; it steps no environment, makes no store call, and leaves the
    store, both environments and the mode flag as they were. *)
Theorem update_loop_steps_once_per_minibatch
    (C : Collab) (n : nat) (batch_size : Z) (w : World C) :
  let w' := epochs C n batch_size w in
  count is_optimizer_step (trace w')
  = (count is_optimizer_step (trace w)
     + batches_drawn n batch_size (storage w) (rng w))%nat
  /\ count is_get_generator (trace w') = (count is_get_generator (trace w) + n)%nat
  /\ count is_env_step (trace w') = count is_env_step (trace w)
  /\ count is_store (trace w') = count is_store (trace w)
  /\ count is_store_last (trace w') = count is_store_last (trace w)
  /\ storage w' = storage w /\ env w' = env w /\ eval_env w' = eval_env w
  /\ training w' = training w.
Proof.
  intros w'. subst w'.
  destruct (epochs_more C batch_size n w)
    as (tr & Htr & Hall & Hopt & Hgen & He & Hee & Ht & Hs).
  rewrite Htr, !count_app, Hopt, Hgen.
  assert (Hnone : count is_env_step tr = 0%nat /\ count is_store tr = 0%nat
                  /\ count is_store_last tr = 0%nat).
  { repeat split; apply (count_disjoint C _ update_event); try exact Hall;
      intros e Hev; apply update_event_disjoint in Hev; tauto. }
  destruct Hnone as (H1 & H2 & H3). rewrite H1, H2, H3.
  repeat split; try assumption; lia.
Qed.



End TrainModelState.

(** * [training_pipeline] *)

(** ** File names *)

Section Paths.

Import Pipeline.

Lemma append_cons (c : Ascii.ascii) (s t : string) :
  String c s +:+ t = String c (s +:+ t).
Proof. reflexivity. Qed.

Lemma append_nil_r (s : string) : s +:+ "" = s.
Proof.
  induction s as [|c s IH]; [reflexivity|].
  rewrite append_cons, IH. reflexivity.
Qed.

Lemma append_assoc (a b c : string) : (a +:+ b) +:+ c = a +:+ b +:+ c.
Proof.
  induction a as [|x a IH]; [reflexivity|].
  rewrite !append_cons, IH. reflexivity.
Qed.

Lemma append_not_empty (a b : string) : b <> "" -> a +:+ b <> "".
Proof. destruct a; [auto | rewrite append_cons; discriminate]. Qed.

Lemma ends_with_sep_append (a b : string) :
  b <> "" -> ends_with_sep (a +:+ b) = ends_with_sep b.
Proof.
  intros Hb. induction a as [|x a IH]; [reflexivity|].
  rewrite append_cons. simpl. rewrite IH.
  destruct (a +:+ b) eqn:Hab; [|reflexivity].
  exfalso. exact (append_not_empty a b Hb Hab).
Qed.

Lemma starts_with_sep_append (a b : string) :
  starts_with_sep a = false -> starts_with_sep b = false ->
  starts_with_sep (a +:+ b) = false.
Proof. destruct a; [auto | rewrite append_cons; simpl; auto]. Qed.

(** Joining a relative component appends it to the directory form of the
    path, which is what [os.path.join(path, "")] gives. *)
Lemma join2_relative (path b : string) :
  starts_with_sep b = false -> join2 path b = join2 path "" +:+ b.
Proof.
  intros Hb. unfold join2. rewrite Hb.
  change (starts_with_sep "") with false.
  destruct (String.eqb path "" || ends_with_sep path).
  - rewrite append_nil_r. reflexivity.
  - rewrite !append_assoc. reflexivity.
Qed.

(** After a component that does not end with the separator, the next
    relative component comes after one separator. *)
Lemma join2_after (x b : string) :
  x <> "" -> ends_with_sep x = false -> starts_with_sep b = false ->
  join2 x b = x +:+ "/" +:+ b.
Proof.
  intros Hx He Hb. unfold join2. rewrite Hb, He.
  destruct (String.eqb_spec x ""); [contradiction | reflexivity].
Qed.

Lemma path_join_relative (base d1 d2 file : string) :
  d1 <> "" -> ends_with_sep d1 = false -> starts_with_sep d1 = false ->
  d2 <> "" -> ends_with_sep d2 = false -> starts_with_sep d2 = false ->
  starts_with_sep file = false ->
  path_join base [d1; d2; file]
  = join2 base "" +:+ d1 +:+ "/" +:+ d2 +:+ "/" +:+ file.
Proof.
  intros N1 E1 S1 N2 E2 S2 Sf. unfold path_join. simpl.
  rewrite (join2_relative base d1 S1).
  rewrite (join2_after _ d2)
    by first [assumption
             |apply append_not_empty; assumption
             |rewrite ends_with_sep_append; assumption].
  rewrite !append_assoc.
  rewrite <- (append_assoc d1 "/" d2), <- (append_assoc (join2 base "")).
  rewrite (join2_after _ file)
    by first [assumption
             |apply append_not_empty; assumption
             |rewrite ends_with_sep_append; assumption].
  rewrite !append_assoc. reflexivity.
Qed.

Lemma path_join_relative2 (base d1 file : string) :
  d1 <> "" -> ends_with_sep d1 = false -> starts_with_sep d1 = false ->
  starts_with_sep file = false ->
  path_join base [d1; file] = join2 base "" +:+ d1 +:+ "/" +:+ file.
Proof.
  intros N1 E1 S1 Sf. unfold path_join. simpl.
  rewrite (join2_relative base d1 S1).
  rewrite (join2_after _ file)
    by first [assumption
             |apply append_not_empty; assumption
             |rewrite ends_with_sep_append; assumption].
  rewrite !append_assoc. reflexivity.
Qed.

Lemma model_name_relative (hp : Hyperparams) (name : string) :
  test_run hp = true \/ starts_with_sep name = false ->
  starts_with_sep (model_name hp name) = false.
Proof.
  unfold model_name. intros [Ht|Hn].
  - rewrite Ht. reflexivity.
  - destruct (test_run hp); [reflexivity|].
    apply starts_with_sep_append; [exact Hn | reflexivity].
Qed.

(** X15.  In a test run, and in any run of a model whose name does not
    start with [/], the three files are placed under [path_to_base]: the
    rewards in [results/rewards], the weights in [models] and the video in
    [results/videos], all three named [<model name>_<env name>] with the
    extensions [.csv], [.pt] and [.mp4]. *)
Theorem pipeline_files_under_base
    (hp : Hyperparams) (path_to_base name : string) :
  test_run hp = true \/ starts_with_sep name = false ->
  let n := model_name hp name in
  let dir := join2 path_to_base "" in
  rewards_filepath hp path_to_base n
  = dir +:+ "results/rewards/" +:+ n +:+ "_" +:+ env_name hp +:+ ".csv"
  /\ model_filepath hp path_to_base n
     = dir +:+ "models/" +:+ n +:+ "_" +:+ env_name hp +:+ ".pt"
  /\ video_filepath hp path_to_base n
     = dir +:+ "results/videos/" +:+ n +:+ "_" +:+ env_name hp +:+ ".mp4".
Proof.
  intros H n dir.
  pose proof (model_name_relative hp name H) as Hn. fold n in Hn.
  assert (Hs : forall ext, starts_with_sep (stem hp n +:+ ext) = false).
  { intros ext. unfold stem. rewrite !append_assoc.
    apply starts_with_sep_append; [exact Hn | reflexivity]. }
  unfold rewards_filepath, model_filepath, video_filepath.
  rewrite !path_join_relative, path_join_relative2
    by (try discriminate; try reflexivity; apply Hs).
  unfold stem. rewrite !append_assoc. repeat split.
Qed.

End Paths.

(** ** The run of the pipeline *)

Section PipelineRun.

Context (C : Collab) (B : Pipeline.Builders C).

Import Training Pipeline.

(** A call of [train_model] that returns test rewards has evaluated, so it
    had a step to evaluate. *)
Lemma train_model_ok_steps (fuel : nat) (device : Device C)
    (epochs_n batch : Z) (lr eps : Qc) (n_steps budget : Z)
    (w w' : World C) (r : list Z * rewards_t) :
  train_model C fuel device epochs_n batch lr eps n_steps budget true w
    = Ok (r, w') ->
  1 <= n_steps.
Proof.
  destruct r as [sts [tr te]]. intros H.
  destruct (train_model_ok_inv C _ _ _ _ _ _ _ _ _ _ _ _ _ _ H)
    as (ui & v0 & w0 & v' & Hset & Hloop & _ & _ & _ & Hd & Htot & Hui).
  apply train_setup_inv in Hset. destruct Hset as (_ & _ & Hv0 & _).
  destruct fuel as [|fuel]; simpl in Hloop;
    (destruct (decide (step v0 < budget)) as [_|Hge];
     [|subst v0; simpl in Hge; lia]); [discriminate|].
  destruct (iteration C _ _ _ _ _ v0 w0) as [[v1 w1]| |] eqn:Hit;
    simpl in Hloop; try discriminate.
  apply iteration_inv in Hit.
  destruct Hit as (_ & _ & _ & _ & _ & _ & _ & _ & _ & _ & _ & _ & _ & _ & _
                   & _ & _ & _ & Hstats).
  subst v0. simpl in Hstats.
  destruct (decide (0 = 0)); [|contradiction]. tauto.
Qed.

(** X16.  With [env.num_envs * num_steps >= 1], [total_steps >= 1] and,
    for the test rewards, [num_steps >= 1], the pipeline returns.  It has
    then written three files, in this order: the statistics that
    [train_model] returned, the weights, and the video.  The video is made
    after a [reset] of its environment, from 1024 steps and 1024 rendered
    frames, with the weights that were saved; making it changes neither
    the training environment nor the trajectory store. *)
Theorem training_pipeline_returns
    (hp : Hyperparams) (path_to_base : string) (w w0 : World C)
    (name : string) (device : Device C) :
  1 <= num_envs C * num_steps hp ->
  1 <= total_steps hp ->
  (get_test hp = true -> 1 <= num_steps hp) ->
  built_world C B hp w = (w0, name, device) ->
  exists sts rw w1 w' tr frames,
    train_model C (Z.to_nat (total_steps hp)) device (num_epochs hp)
                (batch_size hp) (adam_lr hp) (adam_eps hp) (num_steps hp)
                (total_steps hp) (get_test hp) w0 = Ok ((sts, rw), w1)
    /\ training_pipeline C B (Z.to_nat (total_steps hp)) hp path_to_base w
       = ([SavedRewards (rewards_filepath hp path_to_base name) sts rw;
           SavedModel (model_filepath hp path_to_base name) name (params w');
           SavedVideo (video_filepath hp path_to_base name)],
          Ok w')
    /\ trace w' = trace w1 ++ EEnvReset EvalEnv :: EModelEval :: tr
                    ++ [ESaveVideo frames]
    /\ length frames = 1024%nat
    /\ count is_eval_step tr = 1024%nat
    /\ count is_render tr = 1024%nat
    /\ count is_train_step tr = 0%nat
    /\ params w' = params w1 /\ env w' = env w1 /\ storage w' = storage w1.
Proof.
  intros Hd Htot Hns Hb.
  destruct (train_model_returns C device (num_epochs hp) (batch_size hp)
              (adam_lr hp) (adam_eps hp) (num_steps hp) (total_steps hp)
              (get_test hp) w0 Hd Htot Hns) as (sts & tr_r & te & w1 & Ht).
  unfold training_pipeline. rewrite Hb, Ht.
  unfold do_reset.
  destruct (env_reset C _) as [s o] eqn:Hr.
  match goal with |- context [evaluate_model C EvalEnv o 1024 true ?wv] =>
    set (w2 := wv)
  end.
  destruct (eval_model_ok C EvalEnv o 1024 true w2 ltac:(lia))
    as (rows & o' & w' & w3 & tr & fs & He & Hsteps & _ & Htr & Hev & Hp & _ & _
        & Hs & _ & He1 & _).
  pose proof (eval_steps_frames C EvalEnv true (Z.to_nat 1024) o [] []
                (do_model_eval C w2)) as Hfs.
  rewrite Hsteps in Hfs. simpl fst in Hfs. simpl snd in Hfs.
  destruct (evaluated_counts C _ _ _ _ _ _ _ Hev)
    as (_ & _ & H3 & _ & _ & _ & H7 & H8).
  exists sts, (tr_r, te), w1, w', tr, fs.
  split; [reflexivity|].
  rewrite He, Hp.
  split; [reflexivity|].
  split; [rewrite Htr; subst w2; simpl; rewrite <- app_assoc; reflexivity|].
  split; [simpl in Hfs; lia|].
  split; [exact H7|]. split; [exact H3|]. split; [exact H8|].
  split; [reflexivity|].
  split; [rewrite (He1 eq_refl); reflexivity|].
  rewrite Hs. reflexivity.
Qed.

(** X17.  When [env.num_envs * num_steps <= 0], or [total_steps <= 0], or
    test rewards are asked for with [num_steps <= 0], the pipeline writes
    no file and does not return, however long it runs: [train_model]
    raises or loops before anything is saved. *)
Theorem training_pipeline_saves_nothing
    (hp : Hyperparams) (path_to_base : string) (w : World C) (fuel : nat) :
  num_envs C * num_steps hp <= 0 \/ total_steps hp <= 0
  \/ (get_test hp = true /\ num_steps hp <= 0) ->
  exists r,
    training_pipeline C B fuel hp path_to_base w = ([], r)
    /\ forall w', r <> Ok w'.
Proof.
  intros Hbad. unfold training_pipeline.
  destruct (built_world C B hp w) as [[w0 name] device].
  destruct (train_model C fuel device _ _ _ _ _ _ _ w0)
    as [[[sts [tr te]] w1]|e|] eqn:Ht.
  - exfalso.
    destruct (train_model_ok_inv C _ _ _ _ _ _ _ _ _ _ _ _ _ _ Ht)
      as (_ & _ & _ & _ & _ & _ & _ & _ & _ & Hd & Htot & _).
    destruct Hbad as [Hbad|[Hbad|[Hg Hbad]]]; [lia | lia |].
    rewrite Hg in Ht. apply train_model_ok_steps in Ht. lia.
  - exists (Raise e). split; [reflexivity | discriminate].
  - exists OutOfFuel. split; [reflexivity | discriminate].
Qed.

End PipelineRun.

(** * The further properties on the dummy collaborators *)

Section MoreWitnesses.

Import Training.


(** Two evaluation steps with a video: two frames are saved. *)
Lemma evaluate_model_video_frames_witness :
  exists r w' tr frames,
    evaluate_model Demo.collab EvalEnv (0 : Obs Demo.collab) 2 true Demo.world0 = Ok (r, w')
    /\ trace w' = trace Demo.world0 ++ EModelEval :: tr ++ [ESaveVideo frames]
    /\ Z.of_nat (length frames) = 2.
Proof.
  destruct (eval_model_ok Demo.collab EvalEnv (0 : Obs Demo.collab) 2 true Demo.world0 ltac:(lia))
    as (rows & o' & w' & _ & _ & _ & He & _).
  destruct (evaluate_model_video_frames Demo.collab EvalEnv (0 : Obs Demo.collab) 2 true
              Demo.world0 w' _ He) as (tr & frames & Htr & _ & _ & _ & _ & Hf).
  exists (sum0 rows, o'), w', tr, frames.
  split; [exact He|]. split; [exact Htr | exact (Hf eq_refl)].
Defined.

(** The same call leaves the store and the training environment. *)
Lemma evaluate_model_leaves_training_alone_witness :
  exists r w',
    evaluate_model Demo.collab EvalEnv (0 : Obs Demo.collab) 2 true Demo.world0 = Ok (r, w')
    /\ storage w' = storage Demo.world0 /\ env w' = env Demo.world0.
Proof.
  destruct (eval_model_ok Demo.collab EvalEnv (0 : Obs Demo.collab) 2 true Demo.world0 ltac:(lia))
    as (rows & o' & w' & _ & _ & _ & He & _).
  destruct (evaluate_model_leaves_training_alone Demo.collab EvalEnv (0 : Obs Demo.collab) 2 true
              Demo.world0 w' _ He) as (Hs & Henv & _).
  exists (sum0 rows, o'), w'.
  split; [exact He|]. split; [exact Hs | exact Henv].
Defined.

(** Rollouts of no step. *)
Lemma train_model_zero_increment_raises_witness :
  train_model Demo.collab 1 tt 1 2 0%Qc 0%Qc 0 5 false Demo.world0
  = Raise ZeroDivisionError.
Proof.
  apply (train_model_zero_increment_raises Demo.collab 1 tt 1 2 0%Qc 0%Qc 0 5
           false Demo.world0).
  reflexivity.
Defined.

(** A budget of no step. *)
Lemma train_model_without_budget_raises_witness :
  train_model Demo.collab 1 tt 1 2 0%Qc 0%Qc 2 0 false Demo.world0
  = Raise StackEmpty.
Proof.
  apply (train_model_without_budget_raises Demo.collab 1 tt 1 2 0%Qc 0%Qc 2 0
           false Demo.world0).
  - simpl. lia.
  - lia.
Defined.


(** The same run: one record per iteration of the two. *)
Lemma returned_statistics_are_aligned_witness :
  exists sts tr te w',
    train_model Demo.collab 5 tt 1 2 0%Qc 0%Qc 2 5 true Demo.world0
    = Ok ((sts, (tr, te)), w')
    /\ length tr = length sts.
Proof.
  destruct (train_model_returns Demo.collab tt 1 2 0%Qc 0%Qc 2 5 true
              Demo.world0 ltac:(simpl; lia) ltac:(lia) ltac:(intros _; lia))
    as (sts & tr & te & w' & H).
  exists sts, tr, te, w'. split; [exact H|].
  destruct (returned_statistics_are_aligned Demo.collab _ tt 1 2 0%Qc 0%Qc 2 5
              true Demo.world0 w' sts tr te H) as (k & _ & _ & Hl & _).
  exact Hl.
Defined.

Lemma at_most_hundred_statistics_witness :
  exists sts rw w',
    train_model Demo.collab 5 tt 1 2 0%Qc 0%Qc 2 5 true Demo.world0
    = Ok ((sts, rw), w')
    /\ (1 <= length sts <= 100)%nat.
Proof.
  destruct (train_model_returns Demo.collab tt 1 2 0%Qc 0%Qc 2 5 true
              Demo.world0 ltac:(simpl; lia) ltac:(lia) ltac:(intros _; lia))
    as (sts & tr & te & w' & H).
  exists sts, (tr, te), w'. split; [exact H|].
  exact (proj1 (at_most_hundred_statistics Demo.collab _ tt 1 2 0%Qc 0%Qc 2 5
                  true Demo.world0 w' sts tr te H)).
Defined.

Lemma train_model_leaves_train_mode_witness :
  exists r w',
    train_model Demo.collab 5 tt 1 2 0%Qc 0%Qc 2 5 true Demo.world0 = Ok (r, w')
    /\ training w' = true.
Proof.
  destruct (train_model_returns Demo.collab tt 1 2 0%Qc 0%Qc 2 5 true
              Demo.world0 ltac:(simpl; lia) ltac:(lia) ltac:(intros _; lia))
    as (sts & tr & te & w' & H).
  exists (sts, (tr, te)), w'. split; [exact H|].
  exact (train_model_leaves_train_mode Demo.collab _ tt 1 2 0%Qc 0%Qc 2 5 true
           Demo.world0 w' _ H).
Defined.

Lemma environments_reset_once_before_loop_witness :
  exists r w' tr,
    train_model Demo.collab 5 tt 1 2 0%Qc 0%Qc 2 5 true Demo.world0 = Ok (r, w')
    /\ trace w' = [EModelTo; EAdam; EStorageNew;
                   EEnvReset TrainEnv; EEnvReset EvalEnv] ++ tr
    /\ count is_env_reset tr = 0%nat.
Proof.
  destruct (train_model_returns Demo.collab tt 1 2 0%Qc 0%Qc 2 5 true
              Demo.world0 ltac:(simpl; lia) ltac:(lia) ltac:(intros _; lia))
    as (sts & tr & te & w' & H).
  destruct (environments_reset_once_before_loop Demo.collab _ tt 1 2 0%Qc 0%Qc
              2 5 true Demo.world0 w' _ H) as (tr' & Htr & Hc).
  exists (sts, (tr, te)), w', tr'. split; [exact H|].
  split; [exact Htr | exact Hc].
Defined.

(** Without test rewards the evaluation environment is only reset. *)
Lemma evaluation_environment_steps_witness :
  exists r w',
    train_model Demo.collab 5 tt 1 2 0%Qc 0%Qc 2 5 false Demo.world0 = Ok (r, w')
    /\ count is_eval_step (trace w') = 0%nat.
Proof.
  destruct (train_model_returns Demo.collab tt 1 2 0%Qc 0%Qc 2 5 false
              Demo.world0 ltac:(simpl; lia) ltac:(lia) ltac:(discriminate))
    as (sts & tr & te & w' & H).
  exists (sts, (tr, te)), w'. split; [exact H|].
  exact (proj1 (evaluation_environment_steps Demo.collab _ tt 1 2 0%Qc 0%Qc
                  2 5 false Demo.world0 w' sts (tr, te) H)).
Defined.

(** No epoch: the two weights come back as they were. *)
Lemma no_epoch_no_update_witness :
  exists r w',
    train_model Demo.collab 5 tt 0 2 0%Qc 0%Qc 2 5 false Demo.world0 = Ok (r, w')
    /\ params w' = params Demo.world0.
Proof.
  destruct (train_model_returns Demo.collab tt 0 2 0%Qc 0%Qc 2 5 false
              Demo.world0 ltac:(simpl; lia) ltac:(lia) ltac:(discriminate))
    as (sts & tr & te & w' & H).
  exists (sts, (tr, te)), w'. split; [exact H|].
  exact (proj1 (no_epoch_no_update Demo.collab _ tt 0 2 0%Qc 0%Qc 2 5 false
                  Demo.world0 w' _ ltac:(lia) H)).
Defined.



(** The test run of the dummy pipeline under [/data]. *)
Lemma pipeline_files_under_base_witness :
  Pipeline.rewards_filepath PipelineDemo.hp "/data" "test_ppo"
  = "/data/results/rewards/test_ppo_coinrun.csv".
Proof.
  exact (proj1 (pipeline_files_under_base PipelineDemo.hp "/data" "ppo"
                  (or_introl eq_refl))).
Defined.

Lemma training_pipeline_returns_witness :
  exists sts rw w',
    Pipeline.training_pipeline Demo.collab PipelineDemo.builders 5
      PipelineDemo.hp "/data" Demo.world0
    = ([Pipeline.SavedRewards "/data/results/rewards/test_ppo_coinrun.csv" sts rw;
        Pipeline.SavedModel "/data/models/test_ppo_coinrun.pt" "test_ppo"
          (params w');
        Pipeline.SavedVideo "/data/results/videos/test_ppo_coinrun.mp4"],
       Ok w').
Proof.
  destruct (training_pipeline_returns Demo.collab PipelineDemo.builders
              PipelineDemo.hp "/data" Demo.world0 _ _ _
              ltac:(simpl; lia) ltac:(simpl; lia) ltac:(intros _; simpl; lia)
              eq_refl)
    as (sts & rw & w1 & w' & tr & frames & _ & Hp & _).
  exists sts, rw, w'. exact Hp.
Defined.

(** The same pipeline with a budget of no step. *)
Lemma training_pipeline_saves_nothing_witness :
  exists r,
    Pipeline.training_pipeline Demo.collab PipelineDemo.builders 5
      (Pipeline.mkHyperparams "coinrun" 2 50 true "7" 1 2 0%Qc 0%Qc 2 0 true)
      "/data" Demo.world0
    = ([], r).
Proof.
  destruct (training_pipeline_saves_nothing Demo.collab PipelineDemo.builders
              (Pipeline.mkHyperparams "coinrun" 2 50 true "7" 1 2 0%Qc 0%Qc 2 0
                 true)
              "/data" Demo.world0 5 ltac:(right; left; simpl; lia))
    as (r & Hr & _).
  exists r. exact Hr.
Defined.

End MoreWitnesses.
